(** * create_my_kg.py: the CSV-to-knowledge-graph ingestion script

    A shallow embedding of [llm-knowledge-graph/create_my_kg.py].  The script
    is a straight-line program around one loop; everything it touches
    (the loader, the splitter, the embedding and chat models, the graph
    database) is an external service.  The services are parameters of the
    development; the Cypher statements the script sends are given their
    MERGE / IF NOT EXISTS meaning on an explicit graph store. *)

From Stdlib Require Import ZArith String Ascii DecimalString DecimalZ DecimalPos.
From Stdlib Require Import Floats.PrimFloat.
From stdpp Require Import gmap strings list.

Local Open Scope string_scope.
Local Open Scope list_scope.

(** ** Python values, exceptions *)

(** Values found in a [Document.metadata] dict. *)
Inductive pyval : Type :=
| PyStr (s : string)
| PyInt (z : Z).

Inductive exn : Type :=
| KeyError (key : string)
| TypeError (what : string)
| ServiceError (msg : string).

Inductive result (A : Type) : Type :=
| Ok (a : A)
| Err (e : exn).
Arguments Ok {A} a.
Arguments Err {A} e.

(** A langchain [Document]: text plus a metadata dict. *)
Record document : Type := Doc {
  page_content : string;
  metadata : gmap string pyval
}.

(** ** Strings: [str(int)], [os.path.basename] *)

(** [str(z)] for a Python int. *)
Definition str_of_int (z : Z) : string := NilZero.string_of_int (Z.to_int z).

(** What an f-string field [{v}] renders. *)
Definition format_value (v : pyval) : string :=
  match v with
  | PyStr s => s
  | PyInt z => str_of_int z
  end.

(** [p.rfind(sep)], counting positions from [i]. *)
Fixpoint rfind_from (i : nat) (sep : ascii) (p : string) : option nat :=
  match p with
  | EmptyString => None
  | String c p' =>
      match rfind_from (S i) sep p' with
      | Some j => Some j
      | None => if Ascii.eqb c sep then Some i else None
      end
  end.

Definition rfind (sep : ascii) (p : string) : Z :=
  match rfind_from 0 sep p with
  | Some j => Z.of_nat j
  | None => (-1)%Z
  end.

(** The slice [p[i:]]. *)
Fixpoint slice_from (i : nat) (p : string) : string :=
  match i, p with
  | O, _ => p
  | S _, EmptyString => EmptyString
  | S i', String _ p' => slice_from i' p'
  end.

(** [c in s]. *)
Fixpoint contains (c : ascii) (s : string) : bool :=
  match s with
  | EmptyString => false
  | String c' s' => Ascii.eqb c' c || contains c s'
  end.

(** [posixpath.basename]: [i = p.rfind('/') + 1; return p[i:]]. *)
Definition basename (p : string) : string :=
  slice_from (Z.to_nat (rfind "/" p + 1)) p.

(** ** Lines 89-90: the chunk identifier *)

(** [chunk.metadata[key]]: a missing key raises [KeyError]. *)
Definition metadata_get (chunk : document) (key : string) : result pyval :=
  match metadata chunk !! key with
  | Some v => Ok v
  | None => Err (KeyError key)
  end.

(** [os.path.basename(v)] on a metadata value: only a path string is accepted. *)
Definition path_basename (v : pyval) : result string :=
  match v with
  | PyStr p => Ok (basename p)
  | PyInt _ => Err (TypeError "expected str, bytes or os.PathLike object, not int")
  end.

(** [f"{filename}.{page}"] *)
Definition format_chunk_id (filename : string) (page : pyval) : string :=
  filename +:+ "." +:+ format_value page.

(** [filename = os.path.basename(chunk.metadata["source"])] *)
Definition chunk_filename (chunk : document) : result string :=
  match metadata_get chunk "source" with
  | Ok v => path_basename v
  | Err e => Err e
  end.

(** [chunk_id = f"{filename}.{chunk.metadata['page']}"] *)
Definition chunk_id_of (chunk : document) : result (string * string) :=
  match chunk_filename chunk with
  | Ok filename =>
      match metadata_get chunk "page" with
      | Ok page => Ok (filename, format_chunk_id filename page)
      | Err e => Err e
      end
  | Err e => Err e
  end.

(** ** Graph documents (langchain's [Node], [Relationship], [GraphDocument]) *)

Module Node.
Record t : Type := mk {
  id : string;
  type : string;
  properties : gmap string string
}.
End Node.

Module Relationship.
Record t : Type := mk {
  source : Node.t;
  target : Node.t;
  type : string;
  properties : gmap string string
}.
End Relationship.

Record graph_document : Type := GraphDocument {
  nodes : list Node.t;
  relationships : list Relationship.t;
  source : document
}.

(** What [convert_to_graph_documents] hands back: GraphDocument objects, and
    the returned Python list, whose entries are references to those objects
    (positions in [objects]).  The list may mention one object twice. *)
Record extraction : Type := Extraction {
  objects : list graph_document;
  graph_docs : list nat
}.

(** Lines 120-123: [Node(id=chunk_id, type="Chunk")]. *)
Definition chunk_node (chunk_id : string) : Node.t :=
  Node.mk chunk_id "Chunk" ∅.

(** Lines 128-132: [Relationship(source=chunk_node, target=node, type="HAS_ENTITY")]. *)
Definition has_entity (chunk_id : string) (node : Node.t) : Relationship.t :=
  Relationship.mk (chunk_node chunk_id) node "HAS_ENTITY" ∅.

(** [graph_doc.relationships.append(r)]. *)
Definition append_relationship (graph_doc : graph_document) (r : Relationship.t)
  : graph_document :=
  GraphDocument (nodes graph_doc) (relationships graph_doc ++ [r]) (source graph_doc).

(** Lines 125-133, the inner loop: one append per entry of [graph_doc.nodes].
    The list iterated over is not the list appended to. *)
Definition link_nodes (chunk_id : string) (graph_doc : graph_document) : graph_document :=
  foldl (fun gd node => append_relationship gd (has_entity chunk_id node))
        graph_doc (nodes graph_doc).

(** One iteration of the outer loop (line 119) on the object a reference
    designates; the object is updated in place. *)
Definition link_object (chunk_id : string) (heap : list graph_document) (ref : nat)
  : list graph_document :=
  match heap !! ref with
  | Some graph_doc => <[ref := link_nodes chunk_id graph_doc]> heap
  | None => heap
  end.

(** Lines 119-133. *)
Definition link_entities (chunk_id : string) (ex : extraction) : extraction :=
  Extraction (foldl (link_object chunk_id) (objects ex) (graph_docs ex)) (graph_docs ex).

(** The list of graph documents as a callee sees it. *)
Definition deref (ex : extraction) : list graph_document :=
  omap (fun ref => objects ex !! ref) (graph_docs ex).

(** How often the returned list mentions the object at [ref]. *)
Definition mentions (ref : nat) (refs : list nat) : nat :=
  length (List.filter (Nat.eqb ref) refs).

(** A graph document after [k] passes of the inner loop over it. *)
Definition linked (k : nat) (chunk_id : string) (graph_doc : graph_document)
  : graph_document :=
  GraphDocument (nodes graph_doc)
                (relationships graph_doc
                 ++ concat (replicate k (map (has_entity chunk_id) (nodes graph_doc))))
                (source graph_doc).

(** ** The graph store and the two Cypher statements *)

Inductive propval : Type :=
| VStr (s : string)
| VVec (v : list float).

Record db_node : Type := DbNode {
  labels : list string;
  props : gmap string propval
}.

(** A relationship between two stored nodes, given by their positions. *)
Record db_rel : Type := DbRel {
  rel_start : nat;
  rel_type : string;
  rel_end : nat
}.

Record vector_index : Type := VectorIndex {
  ix_name : string;
  ix_label : string;
  ix_property : string;
  ix_dimensions : Z;
  ix_similarity : string
}.

Record graph_db : Type := GraphDb {
  db_nodes : list db_node;
  db_rels : list db_rel;
  db_indexes : list vector_index
}.

(** The parameter dict of lines 97-102. *)
Record properties : Type := Properties {
  filename : string;
  chunk_id : string;
  text : string;
  embedding : list float
}.

Definition has_label (label : string) (n : db_node) : bool :=
  existsb (String.eqb label) (labels n).

Definition has_id (id : string) (n : db_node) : bool :=
  match props n !! "id" with
  | Some (VStr s) => String.eqb s id
  | _ => false
  end.

(** The pattern [(:label {id: $id})]. *)
Definition matches (label id : string) (n : db_node) : bool :=
  has_label label n && has_id id n.

(** [MERGE (x:label {id: $id})] on the stored nodes: create the node unless
    some node matches. *)
Definition merge_node_in (label id : string) (ns : list db_node) : list db_node :=
  if existsb (matches label id) ns then ns
  else ns ++ [DbNode [label] {[ "id" := VStr id ]}].

Definition merge_node (label id : string) (g : graph_db) : graph_db :=
  GraphDb (merge_node_in label id (db_nodes g)) (db_rels g) (db_indexes g).

Definition set_node_prop (key : string) (v : propval) (n : db_node) : db_node :=
  DbNode (labels n) (<[key := v]> (props n)).

(** [SET x.key = v] for every node bound by [(x:label {id: $id})]. *)
Definition set_prop_in (label id key : string) (v : propval) (ns : list db_node)
  : list db_node :=
  map (fun n => if matches label id n then set_node_prop key v n else n) ns.

Definition set_prop (label id key : string) (v : propval) (g : graph_db) : graph_db :=
  GraphDb (set_prop_in label id key v (db_nodes g)) (db_rels g) (db_indexes g).

(** Positions of the nodes bound by [(x:label {id: $id})]. *)
Fixpoint matching_from (i : nat) (label id : string) (ns : list db_node) : list nat :=
  match ns with
  | [] => []
  | n :: ns' =>
      (if matches label id n then [i] else []) ++ matching_from (S i) label id ns'
  end.

Definition matching (label id : string) (g : graph_db) : list nat :=
  matching_from 0 label id (db_nodes g).

Definition db_rel_eqb (r1 r2 : db_rel) : bool :=
  Nat.eqb (rel_start r1) (rel_start r2) && String.eqb (rel_type r1) (rel_type r2)
  && Nat.eqb (rel_end r1) (rel_end r2).

(** [MERGE (a)-[:t]->(b)] for bound [a], [b]. *)
Definition merge_rel (r : db_rel) (rs : list db_rel) : list db_rel :=
  if existsb (db_rel_eqb r) rs then rs else rs ++ [r].

(** [MERGE (d)<-[:PART_OF]-(c)] over the rows [(d, c)]. *)
Definition merge_part_of (ds cs : list nat) (g : graph_db) : graph_db :=
  GraphDb (db_nodes g)
          (foldl (fun rs dc => merge_rel (DbRel (snd dc) "PART_OF" (fst dc)) rs)
                 (db_rels g) (list_prod ds cs))
          (db_indexes g).

(** Lines 104-113:
<<
    MERGE (d:Document {id: $filename})
    MERGE (c:Chunk {id: $chunk_id})
    SET c.text = $text
    MERGE (d)<-[:PART_OF]-(c)
    WITH c
    CALL db.create.setNodeVectorProperty(c, 'textEmbedding', $embedding)
>> *)
Definition merge_chunk (p : properties) (g : graph_db) : graph_db :=
  let g1 := merge_node "Document" (filename p) g in
  let g2 := merge_node "Chunk" (chunk_id p) g1 in
  let g3 := set_prop "Chunk" (chunk_id p) "text" (VStr (text p)) g2 in
  let g4 := merge_part_of (matching "Document" (filename p) g3)
                          (matching "Chunk" (chunk_id p) g3) g3 in
  set_prop "Chunk" (chunk_id p) "textEmbedding" (VVec (embedding p)) g4.

(** What the statement leaves in the node store. *)
Definition merge_chunk_nodes (p : properties) (ns : list db_node) : list db_node :=
  set_prop_in "Chunk" (chunk_id p) "textEmbedding" (VVec (embedding p))
    (set_prop_in "Chunk" (chunk_id p) "text" (VStr (text p))
       (merge_node_in "Chunk" (chunk_id p)
          (merge_node_in "Document" (filename p) ns))).

(** Lines 139-146: the index the script declares. *)
Definition chunkVector : vector_index :=
  VectorIndex "chunkVector" "Chunk" "textEmbedding" 1536 "cosine".

Definition same_index (ix jx : vector_index) : bool :=
  String.eqb (ix_name ix) (ix_name jx)
  || (String.eqb (ix_label ix) (ix_label jx)
      && String.eqb (ix_property ix) (ix_property jx)).

(** [CREATE VECTOR INDEX ... IF NOT EXISTS]: nothing happens when an index of
    that name, or a vector index on that label and property, is there. *)
Definition create_vector_index (ix : vector_index) (g : graph_db) : graph_db :=
  if existsb (same_index ix) (db_indexes g) then g
  else GraphDb (db_nodes g) (db_rels g) (db_indexes g ++ [ix]).

Inductive cypher : Type :=
| MergeChunk (p : properties)
| CreateVectorIndex (ix : vector_index).

Definition exec_cypher (q : cypher) (g : graph_db) : graph_db :=
  match q with
  | MergeChunk p => merge_chunk p g
  | CreateVectorIndex ix => create_vector_index ix g
  end.

(** ** The script as a program over its services *)

Inductive client : Type :=
| ChatOpenAI
| OpenAIEmbeddings
| Neo4jGraph
| LLMGraphTransformer.

(** Lines 18-71 build these four objects, in this order. *)
Definition clients : list client :=
  [ChatOpenAI; OpenAIEmbeddings; Neo4jGraph; LLMGraphTransformer].

(** Line 15. *)
Definition DATA_PATH : string := "llm-knowledge-graph/data/course/csvs".

(** Line 76: [DirectoryLoader(DATA_PATH, glob="**/*.csv", loader_cls=CSVLoader)]. *)
Record loader_config : Type := DirectoryLoader {
  path : string;
  glob : string;
  loader_cls : string
}.

Definition loader : loader_config := DirectoryLoader DATA_PATH "**/*.csv" "CSVLoader".

(** Lines 78-82. *)
Record splitter_config : Type := CharacterTextSplitter {
  separator : string;
  chunk_size : Z;
  chunk_overlap : Z
}.

Definition newline : string := String (ascii_of_nat 10) EmptyString.

Definition text_splitter : splitter_config :=
  CharacterTextSplitter (newline +:+ newline) 1500 200.

(** Lines 36-70: the vocabulary given to the graph transformer. *)
Definition allowed_nodes : list string :=
  ["Claim"; "Claim_Amount"; "Loss_Payment"; "Loss_Reserve"; "Expense_Payment";
   "Expense_Reserve"; "Claim_Coverage"; "Policy_Coverage_Detail"; "Policy";
   "Policy_Amount"; "Agreement_Party_Role"; "Premium"; "Catastrophe";
   "in:Claim"; "in:PolicyCoverageDetail"; "in:Policy"; "in:Catastrophe";
   "in:ExpensePayment"; "in:ExpenseReserve"; "in:LossPayment"; "in:LossReserve"].

Definition allowed_relationships : list string :=
  ["in:against"; "in:hasCatastrophe"; "in:hasExpensePayment"; "in:hasExpenseReserve";
   "in:hasLossPayment"; "in:hasLossReserve"; "in:hasPolicy"].

(** One entry per thing the script does to the outside, with what came back. *)
Inductive event : Type :=
| EvConstruct (c : client) (r : result unit)
| EvLoad (cfg : loader_config) (r : result (list document))
| EvSplit (cfg : splitter_config) (docs : list document) (r : result (list document))
| EvRaise (e : exn)
| EvPrint (line : string)
| EvEmbed (text : string) (r : result (list float))
| EvQuery (q : cypher) (r : result unit)
| EvExtract (docs : list document) (r : result extraction)
| EvAddGraphDocuments (gds : list graph_document) (r : result unit).

(** The error an event ended with, if it did. *)
Definition failure {A : Type} (r : result A) : option exn :=
  match r with
  | Ok _ => None
  | Err e => Some e
  end.

Definition raised (ev : event) : option exn :=
  match ev with
  | EvConstruct _ r => failure r
  | EvLoad _ r => failure r
  | EvSplit _ _ r => failure r
  | EvRaise e => Some e
  | EvPrint _ => None
  | EvEmbed _ r => failure r
  | EvQuery _ r => failure r
  | EvExtract _ r => failure r
  | EvAddGraphDocuments _ r => failure r
  end.

Definition succeeded (ev : event) : Prop := raised ev = None.

(** The pipeline stage an event belongs to. *)
Inductive stage : Type :=
| SSetup | SLoad | SSplit | SRaise | SPrint | SEmbed | SWrite | SExtract | SIndex.

Definition stage_of (ev : event) : stage :=
  match ev with
  | EvConstruct _ _ => SSetup
  | EvLoad _ _ => SLoad
  | EvSplit _ _ _ => SSplit
  | EvRaise _ => SRaise
  | EvPrint _ => SPrint
  | EvEmbed _ _ => SEmbed
  | EvQuery (MergeChunk _) _ => SWrite
  | EvQuery (CreateVectorIndex _) _ => SIndex
  | EvExtract _ _ => SExtract
  | EvAddGraphDocuments _ _ => SWrite
  end.

(** The stages of the loop body. *)
Definition loop_stage (st : stage) : bool :=
  match st with
  | SRaise | SPrint | SEmbed | SWrite | SExtract => true
  | SSetup | SLoad | SSplit | SIndex => false
  end.

Definition is_load_event (ev : event) : bool :=
  match ev with
  | EvLoad _ _ => true
  | _ => false
  end.

Definition is_split_event (ev : event) : bool :=
  match ev with
  | EvSplit _ _ _ => true
  | _ => false
  end.

(** A failed extraction, or a failed subgraph write. *)
Definition fails_after_write (ev : event) : bool :=
  match ev with
  | EvExtract _ (Err _) => true
  | EvAddGraphDocuments _ (Err _) => true
  | _ => false
  end.

Definition is_index_event (ev : event) : bool :=
  match ev with
  | EvQuery (CreateVectorIndex _) _ => true
  | _ => false
  end.

Section Pipeline.

(** The state of everything outside the script other than the graph store:
    file system, model endpoints, network. *)
Context {E : Type}.

(** How the outside answers.  Every call may fail. *)
Record services : Type := Services {
  construct : client -> E -> E * result unit;
  loader_load : loader_config -> E -> E * result (list document);
  split_documents : splitter_config -> list document -> E -> E * result (list document);
  embed_query : string -> E -> E * result (list float);
  convert_to_graph_documents :
    list string -> list string -> list document -> E -> E * result extraction;
  (** [graph.query]: whether the statement goes through; a failed statement
      leaves the store as it was. *)
  query_fault : cypher -> E -> E * option exn;
  (** [graph.add_graph_documents]: the library writes the subgraph. *)
  add_graph_documents :
    list graph_document -> graph_db -> E -> graph_db * E * result unit
}.

Variable svc : services.

Record world : Type := World {
  db : graph_db;
  env : E
}.

Record outcome (A : Type) : Type := Out {
  final : world;
  trace : list event;
  res : result A
}.
Arguments Out {A} final trace res.
Arguments final {A} o.
Arguments trace {A} o.
Arguments res {A} o.

(** State, a transcript, and exceptions; the state reached when an
    exception is raised is kept. *)
Definition M (A : Type) : Type := world -> outcome A.

Definition ret {A : Type} (a : A) : M A := fun w => Out w [] (Ok a).

Definition bind {A B : Type} (m : M A) (k : A -> M B) : M B :=
  fun w =>
    let o := m w in
    match res o with
    | Ok a =>
        let o' := k a (final o) in
        Out (final o') (trace o ++ trace o') (res o')
    | Err e => Out (final o) (trace o) (Err e)
    end.

#[export] Instance M_ret : MRet M := @ret.
#[export] Instance M_bind : MBind M := fun A B k m => bind m k.

(** [for x in xs: body(x)]. *)
Fixpoint for_each {A : Type} (xs : list A) (body : A -> M unit) : M unit :=
  match xs with
  | [] => mret tt
  | x :: xs' => body x ;; for_each xs' body
  end.

(** A call that only touches the outside state. *)
Definition call {A : Type} (f : E -> E * result A) (ev : result A -> event) : M A :=
  fun w =>
    let (e', r) := f (env w) in
    Out (World (db w) e') [ev r] r.

(** An expression of the script that may raise. *)
Definition eval {A : Type} (r : result A) : M A :=
  fun w =>
    match r with
    | Ok a => Out w [] (Ok a)
    | Err e => Out w [EvRaise e] (Err e)
    end.

Definition print (line : string) : M unit :=
  fun w => Out w [EvPrint line] (Ok tt).

(** [graph.query(q, params)]. *)
Definition graph_query (q : cypher) : M unit :=
  fun w =>
    let (e', fault) := query_fault svc q (env w) in
    match fault with
    | Some e => Out (World (db w) e') [EvQuery q (Err e)] (Err e)
    | None => Out (World (exec_cypher q (db w)) e') [EvQuery q (Ok tt)] (Ok tt)
    end.

(** [graph.add_graph_documents(graph_docs)]. *)
Definition graph_add_graph_documents (gds : list graph_document) : M unit :=
  fun w =>
    let '(g', e', r) := add_graph_documents svc gds (db w) (env w) in
    Out (World g' e') [EvAddGraphDocuments gds r] r.

(** Lines 87-136, the loop body. *)
Definition process_chunk (chunk : document) : M unit :=
  ids ← eval (chunk_id_of chunk) ;
  let filename := fst ids in
  let chunk_id := snd ids in
  print ("Processing - " +:+ chunk_id) ;;
  chunk_embedding ← call (embed_query svc (page_content chunk))
                         (EvEmbed (page_content chunk)) ;
  let properties := Properties filename chunk_id (page_content chunk) chunk_embedding in
  graph_query (MergeChunk properties) ;;
  graph_docs ← call (convert_to_graph_documents svc allowed_nodes allowed_relationships
                                                [chunk])
                    (EvExtract [chunk]) ;
  graph_add_graph_documents (deref (link_entities chunk_id graph_docs)).

(** Lines 18-71. *)
Definition setup : M unit :=
  for_each clients (fun c => call (construct svc c) (EvConstruct c)).

(** The whole script. *)
Definition main : M unit :=
  setup ;;
  docs ← call (loader_load svc loader) (EvLoad loader) ;
  chunks ← call (split_documents svc text_splitter docs) (EvSplit text_splitter docs) ;
  for_each chunks process_chunk ;;
  graph_query (CreateVectorIndex chunkVector).

End Pipeline.

Arguments services E : clear implicits.
Arguments world E : clear implicits.
Arguments outcome E A : clear implicits.
Arguments M E A : clear implicits.
Arguments Out {E A} final trace res.
Arguments final {E A} o.
Arguments trace {E A} o.
Arguments res {E A} o.

(** ** Reading transcripts and stores *)

(** The parameters of a write statement that went through. *)
Definition merged (ev : event) : option properties :=
  match ev with
  | EvQuery (MergeChunk p) (Ok _) => Some p
  | _ => None
  end.

Definition merges (t : list event) : list properties := omap merged t.

(** The write statements of a run, applied one after the other to a node store. *)
Definition replay_nodes (ps : list properties) (ns : list db_node) : list db_node :=
  foldl (fun ns p => merge_chunk_nodes p ns) ns ps.

(** Document and Chunk nodes. *)
Definition is_core (n : db_node) : bool :=
  has_label "Document" n || has_label "Chunk" n.

Definition core_nodes (g : graph_db) : list db_node :=
  List.filter is_core (db_nodes g).

(** What identifies a stored node: its labels and its [id] property. *)
Definition node_key (n : db_node) : list string * option propval :=
  (labels n, props n !! "id").

Definition count_nodes (label id : string) (g : graph_db) : nat :=
  length (List.filter (matches label id) (db_nodes g)).

Definition present_in (label id : string) (ns : list db_node) : Prop :=
  existsb (matches label id) ns = true.

Definition present (label id : string) (g : graph_db) : Prop :=
  present_in label id (db_nodes g).

(** The nodes include the Document and the Chunk of [p], and every Chunk node
    of that id carries the text and the embedding of [p]. *)
Definition holds_chunk_in (p : properties) (ns : list db_node) : Prop :=
  present_in "Document" (filename p) ns
  /\ present_in "Chunk" (chunk_id p) ns
  /\ Forall (fun n => matches "Chunk" (chunk_id p) n = true ->
                      props n !! "text" = Some (VStr (text p))
                      /\ props n !! "textEmbedding" = Some (VVec (embedding p)))
            ns.

Definition holds_chunk (p : properties) (g : graph_db) : Prop :=
  holds_chunk_in p (db_nodes g).

(** Some Chunk node has id [id], and each one has a [textEmbedding] of length [dim]. *)
Definition embedded_chunk_in (id : string) (dim : nat) (ns : list db_node) : Prop :=
  present_in "Chunk" id ns
  /\ Forall (fun n => matches "Chunk" id n = true ->
                      exists v, props n !! "textEmbedding" = Some (VVec v)
                                /\ length v = dim)
            ns.

Definition embedded_chunk (id : string) (dim : nat) (g : graph_db) : Prop :=
  embedded_chunk_in id dim (db_nodes g).

(** The transcript of a loop iteration that ran to its end. *)
Definition chunk_block (chunk : document) (block : list event) : Prop :=
  exists (filename chunk_id : string) (chunk_embedding : list float) (graph_docs : extraction),
    chunk_id_of chunk = Ok (filename, chunk_id)
    /\ block =
         [ EvPrint ("Processing - " +:+ chunk_id);
           EvEmbed (page_content chunk) (Ok chunk_embedding);
           EvQuery (MergeChunk (Properties filename chunk_id (page_content chunk)
                                           chunk_embedding)) (Ok tt);
           EvExtract [chunk] (Ok graph_docs);
           EvAddGraphDocuments (deref (link_entities chunk_id graph_docs)) (Ok tt) ].

Definition setup_trace : list event :=
  map (fun c => EvConstruct c (Ok tt)) clients.

(** A run stops at the first exception: everything before it went through,
    and the exception is the run's result. *)
Definition fail_stop {A : Type} (t : list event) (r : result A) : Prop :=
  match r with
  | Ok _ => Forall succeeded t
  | Err e =>
      exists (t0 : list event) (ev : event),
        t = t0 ++ [ev] /\ Forall succeeded t0 /\ raised ev = Some e
  end.

(** ** Runs, case by case

    The ways one loop iteration, the loop, and the script can go, with the
    state and transcript each way leaves.  The lemmas [process_chunk_run],
    [for_each_run] and [main_run] show the program takes one of them. *)

Inductive chunk_run {E : Type} (svc : services E) (chunk : document) (w : world E)
  : outcome E unit -> Prop :=
| chunk_no_id (e : exn) :
    chunk_id_of chunk = Err e ->
    chunk_run svc chunk w (Out w [EvRaise e] (Err e))
| chunk_embed_failed (filename chunk_id : string) (e1 : E) (x : exn) :
    chunk_id_of chunk = Ok (filename, chunk_id) ->
    embed_query svc (page_content chunk) (env w) = (e1, Err x) ->
    chunk_run svc chunk w
      (Out (World (db w) e1)
           [ EvPrint ("Processing - " +:+ chunk_id);
             EvEmbed (page_content chunk) (Err x) ]
           (Err x))
| chunk_write_failed (filename chunk_id : string) (e1 e2 : E)
    (chunk_embedding : list float) (x : exn) :
    chunk_id_of chunk = Ok (filename, chunk_id) ->
    embed_query svc (page_content chunk) (env w) = (e1, Ok chunk_embedding) ->
    let p := Properties filename chunk_id (page_content chunk) chunk_embedding in
    query_fault svc (MergeChunk p) e1 = (e2, Some x) ->
    chunk_run svc chunk w
      (Out (World (db w) e2)
           [ EvPrint ("Processing - " +:+ chunk_id);
             EvEmbed (page_content chunk) (Ok chunk_embedding);
             EvQuery (MergeChunk p) (Err x) ]
           (Err x))
| chunk_extract_failed (filename chunk_id : string) (e1 e2 e3 : E)
    (chunk_embedding : list float) (x : exn) :
    chunk_id_of chunk = Ok (filename, chunk_id) ->
    embed_query svc (page_content chunk) (env w) = (e1, Ok chunk_embedding) ->
    let p := Properties filename chunk_id (page_content chunk) chunk_embedding in
    query_fault svc (MergeChunk p) e1 = (e2, None) ->
    convert_to_graph_documents svc allowed_nodes allowed_relationships [chunk] e2
      = (e3, Err x) ->
    chunk_run svc chunk w
      (Out (World (merge_chunk p (db w)) e3)
           [ EvPrint ("Processing - " +:+ chunk_id);
             EvEmbed (page_content chunk) (Ok chunk_embedding);
             EvQuery (MergeChunk p) (Ok tt);
             EvExtract [chunk] (Err x) ]
           (Err x))
| chunk_subgraph (filename chunk_id : string) (e1 e2 e3 e4 : E)
    (chunk_embedding : list float) (graph_docs : extraction)
    (g4 : graph_db) (r : result unit) :
    chunk_id_of chunk = Ok (filename, chunk_id) ->
    embed_query svc (page_content chunk) (env w) = (e1, Ok chunk_embedding) ->
    let p := Properties filename chunk_id (page_content chunk) chunk_embedding in
    query_fault svc (MergeChunk p) e1 = (e2, None) ->
    convert_to_graph_documents svc allowed_nodes allowed_relationships [chunk] e2
      = (e3, Ok graph_docs) ->
    add_graph_documents svc (deref (link_entities chunk_id graph_docs))
                        (merge_chunk p (db w)) e3 = (g4, e4, r) ->
    chunk_run svc chunk w
      (Out (World g4 e4)
           [ EvPrint ("Processing - " +:+ chunk_id);
             EvEmbed (page_content chunk) (Ok chunk_embedding);
             EvQuery (MergeChunk p) (Ok tt);
             EvExtract [chunk] (Ok graph_docs);
             EvAddGraphDocuments (deref (link_entities chunk_id graph_docs)) r ]
           r).

Inductive loop_run {E : Type} (svc : services E)
  : list document -> world E -> outcome E unit -> Prop :=
| loop_done (w : world E) :
    loop_run svc [] w (Out w [] (Ok tt))
| loop_abort (chunk : document) (chunks : list document) (w : world E)
    (o : outcome E unit) (e : exn) :
    chunk_run svc chunk w o -> res o = Err e ->
    loop_run svc (chunk :: chunks) w o
| loop_next (chunk : document) (chunks : list document) (w : world E)
    (o o' : outcome E unit) :
    chunk_run svc chunk w o -> res o = Ok tt ->
    loop_run svc chunks (final o) o' ->
    loop_run svc (chunk :: chunks) w
             (Out (final o') (trace o ++ trace o') (res o')).

Inductive script_run {E : Type} (svc : services E) (w : world E)
  : outcome E unit -> Prop :=
| script_setup_failed (e : exn) :
    res (setup svc w) = Err e ->
    script_run svc w (setup svc w)
| script_load_failed (e0 e1 : E) (x : exn) :
    setup svc w = Out (World (db w) e0) setup_trace (Ok tt) ->
    loader_load svc loader e0 = (e1, Err x) ->
    script_run svc w
      (Out (World (db w) e1) (setup_trace ++ [EvLoad loader (Err x)]) (Err x))
| script_split_failed (e0 e1 e2 : E) (docs : list document) (x : exn) :
    setup svc w = Out (World (db w) e0) setup_trace (Ok tt) ->
    loader_load svc loader e0 = (e1, Ok docs) ->
    split_documents svc text_splitter docs e1 = (e2, Err x) ->
    script_run svc w
      (Out (World (db w) e2)
           (setup_trace ++ [EvLoad loader (Ok docs); EvSplit text_splitter docs (Err x)])
           (Err x))
| script_loop_failed (e0 e1 e2 : E) (docs chunks : list document)
    (o : outcome E unit) (x : exn) :
    setup svc w = Out (World (db w) e0) setup_trace (Ok tt) ->
    loader_load svc loader e0 = (e1, Ok docs) ->
    split_documents svc text_splitter docs e1 = (e2, Ok chunks) ->
    loop_run svc chunks (World (db w) e2) o -> res o = Err x ->
    script_run svc w
      (Out (final o)
           (setup_trace
            ++ [EvLoad loader (Ok docs); EvSplit text_splitter docs (Ok chunks)]
            ++ trace o)
           (Err x))
| script_index (e0 e1 e2 e3 : E) (docs chunks : list document)
    (o : outcome E unit) (fault : option exn) :
    setup svc w = Out (World (db w) e0) setup_trace (Ok tt) ->
    loader_load svc loader e0 = (e1, Ok docs) ->
    split_documents svc text_splitter docs e1 = (e2, Ok chunks) ->
    loop_run svc chunks (World (db w) e2) o -> res o = Ok tt ->
    query_fault svc (CreateVectorIndex chunkVector) (env (final o)) = (e3, fault) ->
    script_run svc w
      (Out (World (match fault with
                   | Some _ => db (final o)
                   | None => create_vector_index chunkVector (db (final o))
                   end) e3)
           (setup_trace
            ++ [EvLoad loader (Ok docs); EvSplit text_splitter docs (Ok chunks)]
            ++ trace o
            ++ [EvQuery (CreateVectorIndex chunkVector)
                        (match fault with Some x => Err x | None => Ok tt end)])
           (match fault with Some x => Err x | None => Ok tt end)).

(** Assumptions on the outside that some statements need. *)

(** The embedding model answers with vectors of [dim] components. *)
Definition embeds_in_dimension {E : Type} (svc : services E) (dim : nat) : Prop :=
  forall (text : string) (e : E) (v : list float),
    snd (embed_query svc text e) = Ok v -> length v = dim.

(** Writing a subgraph neither adds, removes nor changes Document and Chunk
    nodes, whether or not the call fails. *)
Definition keeps_core_nodes {E : Type} (svc : services E) : Prop :=
  forall (gds : list graph_document) (g : graph_db) (e : E),
    core_nodes (fst (fst (add_graph_documents svc gds g e))) = core_nodes g.

(** Writing a subgraph removes no node and leaves a written chunk as it is:
    what [MERGE] does with a node that is already there. *)
Definition keeps_written_chunks {E : Type} (svc : services E) : Prop :=
  forall (gds : list graph_document) (g : graph_db) (e : E),
    (forall label id, present label id g ->
       present label id (fst (fst (add_graph_documents svc gds g e))))
    /\ (forall p, holds_chunk p g ->
          holds_chunk p (fst (fst (add_graph_documents svc gds g e)))).

(** ** Sample services *)

Definition empty_db : graph_db := GraphDb [] [] [].

Definition sample_embedding : list float := repeat 0%float 1536.

Definition sample_extract (fails_on : string) (docs : list document) : result extraction :=
  match docs with
  | [c] =>
      if String.eqb (page_content c) fails_on then Err (ServiceError "rate limit")
      else Ok (Extraction [GraphDocument [Node.mk (page_content c) "Claim" ∅] [] c] [0])
  | _ => Ok (Extraction [] [])
  end.

Definition sample_import (gds : list graph_document) (g : graph_db) : graph_db :=
  GraphDb (db_nodes g ++ map (fun _ => DbNode ["__Entity__"] ∅) gds)
          (db_rels g) (db_indexes g).

(** Services that load [docs], split nothing, and fail to extract from the
    chunk whose text is [fails_on]. *)
Definition sample_services (docs : list document) (fails_on : string) : services unit :=
  {| construct := fun _ e => (e, Ok tt);
     loader_load := fun _ e => (e, Ok docs);
     split_documents := fun _ ds e => (e, Ok ds);
     embed_query := fun _ e => (e, Ok sample_embedding);
     convert_to_graph_documents := fun _ _ ds e => (e, sample_extract fails_on ds);
     query_fault := fun _ e => (e, None);
     add_graph_documents := fun gds g e => (sample_import gds g, e, Ok tt) |}.

Definition sample_world : world unit := World empty_db tt.

(** The nodes a graph document mentions: its nodes and the two ends of each of
    its relationships. *)
Definition mentioned_nodes (gd : graph_document) : list Node.t :=
  nodes gd
  ++ flat_map (fun r => [Relationship.source r; Relationship.target r])
              (relationships gd).

(** A subgraph writer that merges every mentioned node by type and id, the
    Chunk node at the source of the [HAS_ENTITY] relationships among them. *)
Definition merging_import (gds : list graph_document) (g : graph_db) : graph_db :=
  GraphDb (foldl (fun ns n => merge_node_in (Node.type n) (Node.id n) ns)
                 (db_nodes g) (flat_map mentioned_nodes gds))
          (db_rels g) (db_indexes g).

(** Services as [sample_services], with an embedding model that answers
    [chunk_embedding] and the merging writer. *)
Definition merging_services (docs : list document) (chunk_embedding : list float)
    (fails_on : string) : services unit :=
  {| construct := fun _ e => (e, Ok tt);
     loader_load := fun _ e => (e, Ok docs);
     split_documents := fun _ ds e => (e, Ok ds);
     embed_query := fun _ e => (e, Ok chunk_embedding);
     convert_to_graph_documents := fun _ _ ds e => (e, sample_extract fails_on ds);
     query_fault := fun _ e => (e, None);
     add_graph_documents := fun gds g e => (merging_import gds g, e, Ok tt) |}.

(** ** Sample inputs *)

Definition csv_chunk (source : string) (page : Z) (content : string) : document :=
  Doc content {[ "source" := PyStr source; "page" := PyInt page ]}.

(** Two files of the same name in two sub-directories of [DATA_PATH]; the
    glob [**/*.csv] reaches both. *)
Definition chunk_2023 : document :=
  csv_chunk "llm-knowledge-graph/data/course/csvs/2023/claims.csv" 0 "claim_id: 17".

Definition chunk_2024 : document :=
  csv_chunk "llm-knowledge-graph/data/course/csvs/2024/claims.csv" 0 "claim_id: 52".

Definition chunk_policy : document :=
  csv_chunk "llm-knowledge-graph/data/course/csvs/policy.csv" 3 "policy_id: 9".

(** A chunk whose metadata has no ['page'] entry. *)
Definition chunk_row : document :=
  Doc "claim_id: 17"
      {[ "source" := PyStr "llm-knowledge-graph/data/course/csvs/claims.csv";
         "row" := PyInt 0 ]}.

(** ** Counting calls *)

Definition is_embed_event (ev : event) : bool :=
  match ev with
  | EvEmbed _ _ => true
  | _ => false
  end.

Definition is_extract_event (ev : event) : bool :=
  match ev with
  | EvExtract _ _ => true
  | _ => false
  end.

Definition is_merge_event (ev : event) : bool :=
  match ev with
  | EvQuery (MergeChunk _) _ => true
  | _ => false
  end.

Definition is_subgraph_event (ev : event) : bool :=
  match ev with
  | EvAddGraphDocuments _ _ => true
  | _ => false
  end.

(** The lines the script printed (line 91), in order. *)
Definition printed_line (ev : event) : option string :=
  match ev with
  | EvPrint line => Some line
  | _ => None
  end.

Definition printed (t : list event) : list string := omap printed_line t.

(** * Properties *)

(** ** Strings and chunk identifiers *)

Lemma uint_digits_no_dot (d : Decimal.uint) :
  contains "." (NilEmpty.string_of_uint d) = false.
Proof. induction d; simpl; auto. Qed.

Lemma str_of_int_no_dot (z : Z) : contains "." (str_of_int z) = false.
Proof.
  unfold str_of_int, NilZero.string_of_int, NilZero.string_of_uint.
  destruct (Z.to_int z) as [d | d]; destruct d; simpl; auto using uint_digits_no_dot.
Qed.

Lemma to_int_not_nil (z : Z) :
  Z.to_int z <> Decimal.Pos Decimal.Nil /\ Z.to_int z <> Decimal.Neg Decimal.Nil.
Proof.
  destruct z as [| p | p]; simpl; split; try discriminate;
    intros H; injection H as H; exact (Unsigned.to_uint_nonnil p H).
Qed.

Lemma str_of_int_inj (z1 z2 : Z) : str_of_int z1 = str_of_int z2 -> z1 = z2.
Proof.
  unfold str_of_int. intros Heq.
  destruct (to_int_not_nil z1) as [Hp1 Hn1].
  destruct (to_int_not_nil z2) as [Hp2 Hn2].
  pose proof (NilZero.isi _ Hp1 Hn1) as H1.
  pose proof (NilZero.isi _ Hp2 Hn2) as H2.
  rewrite Heq in H1. rewrite H1 in H2.
  injection H2 as H2. now apply to_int_inj.
Qed.

Lemma append_cons (a : ascii) (s t : string) : String a s +:+ t = String a (s +:+ t).
Proof. reflexivity. Qed.

Lemma append_nil (t : string) : "" +:+ t = t.
Proof. reflexivity. Qed.

Lemma contains_app (c : ascii) (s t : string) :
  contains c (s +:+ t) = contains c s || contains c t.
Proof.
  induction s as [| a s IH]; [reflexivity |].
  rewrite append_cons. simpl. rewrite IH. now rewrite orb_assoc.
Qed.

(** A suffix without dots after the last dot determines where the string splits. *)
Lemma split_at_last_dot (f1 f2 d1 d2 : string) :
  contains "." d1 = false -> contains "." d2 = false ->
  f1 +:+ String "." d1 = f2 +:+ String "." d2 -> f1 = f2 /\ d1 = d2.
Proof.
  intros H1 H2. revert f2.
  induction f1 as [| a f1 IH]; intros [| b f2] Heq;
    rewrite ?append_nil, ?append_cons in Heq.
  - injection Heq as Heq. now split.
  - injection Heq as Hb Heq. rewrite Heq in H1.
    rewrite contains_app in H1. simpl in H1.
    rewrite orb_true_r in H1. discriminate.
  - injection Heq as Ha Heq. rewrite <- Heq in H2.
    rewrite contains_app in H2. simpl in H2.
    rewrite orb_true_r in H2. discriminate.
  - injection Heq as Hab Heq. destruct (IH _ Heq) as [-> ->]. now subst.
Qed.

Lemma format_chunk_id_int_inj (f1 f2 : string) (z1 z2 : Z) :
  format_chunk_id f1 (PyInt z1) = format_chunk_id f2 (PyInt z2) ->
  f1 = f2 /\ z1 = z2.
Proof.
  unfold format_chunk_id. simpl format_value. intros Heq.
  change (f1 +:+ String "." (str_of_int z1) = f2 +:+ String "." (str_of_int z2)) in Heq.
  apply split_at_last_dot in Heq; auto using str_of_int_no_dot.
  destruct Heq as [-> Hz]. split; [reflexivity | now apply str_of_int_inj].
Qed.

Example basename_nested :
  basename "llm-knowledge-graph/data/course/csvs/2023/claims.csv" = "claims.csv".
Proof. reflexivity. Qed.

Example basename_plain : basename "claims.csv" = "claims.csv".
Proof. reflexivity. Qed.

Example chunk_id_policy : chunk_id_of chunk_policy = Ok ("policy.csv", "policy.csv.3").
Proof. vm_compute. reflexivity. Qed.

Example chunk_id_without_page : chunk_id_of chunk_row = Err (KeyError "page").
Proof. vm_compute. reflexivity. Qed.

Lemma chunk_id_of_inv (chunk : document) (f i : string) :
  chunk_id_of chunk = Ok (f, i) ->
  exists (src : string) (page : pyval),
    metadata chunk !! "source" = Some (PyStr src)
    /\ metadata chunk !! "page" = Some page
    /\ f = basename src
    /\ i = f +:+ "." +:+ format_value page.
Proof.
  unfold chunk_id_of, chunk_filename, metadata_get, path_basename.
  destruct (metadata chunk !! "source") as [[src | z] |]; try discriminate.
  destruct (metadata chunk !! "page") as [page |]; try discriminate.
  intros [= <- <-]. now exists src, page.
Qed.

Lemma chunk_id_of_lookup (chunk : document) (src : string) (page : pyval) :
  metadata chunk !! "source" = Some (PyStr src) ->
  metadata chunk !! "page" = Some page ->
  chunk_id_of chunk = Ok (basename src, format_chunk_id (basename src) page).
Proof.
  intros Hs Hp. unfold chunk_id_of, chunk_filename, metadata_get.
  rewrite Hs. simpl. now rewrite Hp.
Qed.


(** ** Lists *)

Lemma filter_none {A : Type} (P : A -> bool) (l : list A) :
  Forall (fun y => P y = false) l -> List.filter P l = [].
Proof.
  induction 1 as [| y l Hy _ IH]; simpl; [reflexivity |]. now rewrite Hy.
Qed.

(** ** Linking entities to their chunk *)

Lemma foldl_append_relationship (chunk_id : string) (ns : list Node.t)
    (gd : graph_document) :
  foldl (fun gd node => append_relationship gd (has_entity chunk_id node)) gd ns
  = GraphDocument (nodes gd) (relationships gd ++ map (has_entity chunk_id) ns) (source gd).
Proof.
  revert gd. induction ns as [| n ns IH]; intros gd; simpl.
  - rewrite app_nil_r. now destruct gd.
  - rewrite IH. unfold append_relationship. simpl. now rewrite <- app_assoc.
Qed.

Lemma link_nodes_spec (chunk_id : string) (gd : graph_document) :
  link_nodes chunk_id gd
  = GraphDocument (nodes gd)
                  (relationships gd ++ map (has_entity chunk_id) (nodes gd))
                  (source gd).
Proof. apply foldl_append_relationship. Qed.

Lemma linked_zero (chunk_id : string) (gd : graph_document) : linked 0 chunk_id gd = gd.
Proof. unfold linked. simpl. rewrite app_nil_r. now destruct gd. Qed.

Lemma linked_one (chunk_id : string) (gd : graph_document) :
  linked 1 chunk_id gd = link_nodes chunk_id gd.
Proof. rewrite link_nodes_spec. unfold linked. simpl. now rewrite app_nil_r. Qed.

Lemma linked_link_nodes (k : nat) (chunk_id : string) (gd : graph_document) :
  linked k chunk_id (link_nodes chunk_id gd) = linked (S k) chunk_id gd.
Proof.
  rewrite link_nodes_spec. unfold linked. simpl. now rewrite <- app_assoc.
Qed.

Lemma link_object_lookup (chunk_id : string) (heap : list graph_document) (ref i : nat) :
  link_object chunk_id heap ref !! i
  = (if Nat.eqb i ref then link_nodes chunk_id else id) <$> heap !! i.
Proof.
  unfold link_object.
  destruct (Nat.eqb_spec i ref) as [-> | Hne].
  - destruct (heap !! ref) as [gd |] eqn:Hl; simpl.
    + apply list_lookup_insert_eq. now apply lookup_lt_Some in Hl.
    + exact Hl.
  - destruct (heap !! ref) as [gd |] eqn:Hl.
    + rewrite list_lookup_insert_ne by congruence. now destruct (heap !! i).
    + now destruct (heap !! i).
Qed.

(** Each object is passed over once per mention in the list. *)
Lemma link_objects_lookup (chunk_id : string) (refs : list nat)
    (heap : list graph_document) (i : nat) :
  foldl (link_object chunk_id) heap refs !! i
  = linked (mentions i refs) chunk_id <$> heap !! i.
Proof.
  revert heap. induction refs as [| ref refs IH]; intros heap; simpl.
  - destruct (heap !! i) as [gd |]; simpl; [| reflexivity].
    unfold mentions. simpl. now rewrite linked_zero.
  - rewrite IH, link_object_lookup. unfold mentions. simpl.
    destruct (Nat.eqb i ref); destruct (heap !! i) as [gd |]; simpl; try reflexivity.
    now rewrite linked_link_nodes.
Qed.

Lemma link_objects_length (chunk_id : string) (refs : list nat)
    (heap : list graph_document) :
  length (foldl (link_object chunk_id) heap refs) = length heap.
Proof.
  revert heap. induction refs as [| ref refs IH]; intros heap; simpl; [reflexivity |].
  rewrite IH. unfold link_object.
  destruct (heap !! ref); [apply length_insert | reflexivity].
Qed.

Lemma mentions_elem (ref : nat) (refs : list nat) :
  In ref refs -> exists k, mentions ref refs = S k.
Proof.
  unfold mentions. induction refs as [| r refs IH]; simpl; [tauto |].
  intros [-> | Hin].
  - rewrite Nat.eqb_refl. simpl. eauto.
  - destruct (Nat.eqb ref r); simpl; eauto.
Qed.

Lemma mentions_nodup (ref : nat) (refs : list nat) :
  List.NoDup refs -> In ref refs -> mentions ref refs = 1.
Proof.
  unfold mentions. induction 1 as [| r refs Hnot _ IH]; simpl; [tauto |].
  intros [-> | Hin].
  - rewrite Nat.eqb_refl. simpl. f_equal.
    rewrite filter_none; [reflexivity |].
    apply List.Forall_forall. intros y Hy.
    apply Nat.eqb_neq. intros ->. contradiction.
  - destruct (Nat.eqb_spec ref r) as [-> | _]; [contradiction | auto].
Qed.

Lemma omap_pointwise {A B : Type} (f g : A -> option B) (l : list A) :
  (forall x, f x = g x) -> omap f l = omap g l.
Proof.
  intros Hfg. induction l as [| x l IH]; csimpl; [reflexivity |].
  now rewrite Hfg, IH.
Qed.

Lemma deref_link_entities (chunk_id : string) (ex : extraction) :
  deref (link_entities chunk_id ex)
  = omap (fun ref => linked (mentions ref (graph_docs ex)) chunk_id <$> objects ex !! ref)
         (graph_docs ex).
Proof.
  unfold deref, link_entities. simpl.
  apply omap_pointwise. intros ref. apply link_objects_lookup.
Qed.

Lemma deref_linked_nodes (chunk_id : string) (K : nat -> nat)
    (heap : list graph_document) (l : list nat) :
  map nodes (omap (fun ref => linked (K ref) chunk_id <$> heap !! ref) l)
  = map nodes (omap (fun ref => heap !! ref) l).
Proof.
  induction l as [| r l IH]; csimpl; [reflexivity |].
  destruct (heap !! r) as [gd |]; simpl; [now rewrite IH | exact IH].
Qed.

Lemma deref_linked_pairs (chunk_id : string) (K : nat -> nat)
    (heap : list graph_document) (l : list nat) :
  Forall2 (fun gd gd' => exists k, gd' = linked k chunk_id gd)
          (omap (fun ref => heap !! ref) l)
          (omap (fun ref => linked (K ref) chunk_id <$> heap !! ref) l).
Proof.
  induction l as [| r l IH]; csimpl; [constructor |].
  destruct (heap !! r) as [gd |]; simpl; [| exact IH].
  constructor; [now exists (K r) | exact IH].
Qed.

Lemma deref_linked_once (chunk_id : string) (K : nat -> nat)
    (heap : list graph_document) (l : list nat) :
  (forall ref, In ref l -> K ref = 1) ->
  omap (fun ref => linked (K ref) chunk_id <$> heap !! ref) l
  = map (link_nodes chunk_id) (omap (fun ref => heap !! ref) l).
Proof.
  induction l as [| r l IH]; intros HK; csimpl; [reflexivity |].
  rewrite IH by (intros; apply HK; now right).
  destruct (heap !! r) as [gd |]; simpl; [| reflexivity].
  rewrite (HK r) by now left. now rewrite linked_one.
Qed.

Lemma linked_has_entity (k : nat) (chunk_id : string) (gd : graph_document) (n : Node.t) :
  In n (nodes gd) -> In (has_entity chunk_id n) (relationships (linked (S k) chunk_id gd)).
Proof.
  intros Hin. unfold linked. simpl.
  apply in_or_app. right. apply in_or_app. left. now apply in_map.
Qed.

Lemma deref_linked_all (chunk_id : string) (K : nat -> nat)
    (heap : list graph_document) (l : list nat) :
  (forall ref, In ref l -> exists k, K ref = S k) ->
  Forall (fun gd => Forall (fun n => In (has_entity chunk_id n) (relationships gd))
                           (nodes gd))
         (omap (fun ref => linked (K ref) chunk_id <$> heap !! ref) l).
Proof.
  induction l as [| r l IH]; intros HK; csimpl; [constructor |].
  assert (IH' := IH (fun ref Hin => HK ref (or_intror Hin))).
  destruct (heap !! r) as [gd |]; simpl; [| exact IH'].
  constructor; [| exact IH'].
  destruct (HK r (or_introl eq_refl)) as [k ->].
  apply List.Forall_forall. intros n Hn. now apply linked_has_entity.
Qed.

(** ** Runs: sequencing, loops, exceptions *)

Section Runs.

Context {E : Type} (svc : services E).

Lemma mbind_run {A B : Type} (m : M E A) (k : A -> M E B) (w : world E) :
  (m ≫= k) w =
  match res (m w) with
  | Ok a =>
      Out (final (k a (final (m w))))
          (trace (m w) ++ trace (k a (final (m w))))
          (res (k a (final (m w))))
  | Err e => Out (final (m w)) (trace (m w)) (Err e)
  end.
Proof. reflexivity. Qed.

Lemma for_each_cons {A : Type} (x : A) (xs : list A) (body : A -> M E unit) :
  for_each (x :: xs) body = (body x ≫= fun _ => for_each xs body).
Proof. reflexivity. Qed.

Lemma call_run {A : Type} (f : E -> E * result A) (ev : result A -> event) (w : world E) :
  call f ev w = Out (World (db w) (fst (f (env w)))) [ev (snd (f (env w)))] (snd (f (env w))).
Proof. unfold call. now destruct (f (env w)). Qed.

Lemma fail_stop_bind {A B : Type} (m : M E A) (k : A -> M E B) (w : world E) :
  fail_stop (trace (m w)) (res (m w)) ->
  (forall a w', fail_stop (trace (k a w')) (res (k a w'))) ->
  fail_stop (trace ((m ≫= k) w)) (res ((m ≫= k) w)).
Proof.
  intros Hm Hk. rewrite mbind_run.
  destruct (res (m w)) as [a | e] eqn:Hres; simpl in *; [| exact Hm].
  specialize (Hk a (final (m w))).
  destruct (res (k a (final (m w)))) as [b | e]; simpl in *.
  - now apply Forall_app.
  - destruct Hk as (t0 & ev & Ht & Hok & Hev).
    exists (trace (m w) ++ t0), ev. rewrite Ht, app_assoc.
    repeat split; [now apply Forall_app | exact Hev].
Qed.

Lemma fail_stop_for_each {A : Type} (xs : list A) (body : A -> M E unit) :
  (forall x w, fail_stop (trace (body x w)) (res (body x w))) ->
  forall w, fail_stop (trace (for_each xs body w)) (res (for_each xs body w)).
Proof.
  intros Hbody. induction xs as [| x xs IH]; intros w.
  - simpl. constructor.
  - rewrite for_each_cons. apply fail_stop_bind; auto.
Qed.

Lemma fail_stop_call {A : Type} (f : E -> E * result A) (ev : result A -> event) :
  (forall r, raised (ev r) = failure r) ->
  forall w, fail_stop (trace (call f ev w)) (res (call f ev w)).
Proof.
  intros Hev w. unfold call.
  destruct (f (env w)) as [e' [a | e]]; simpl.
  - constructor; [| constructor]. unfold succeeded. now rewrite Hev.
  - exists [], (ev (Err e)). rewrite Hev. repeat split. constructor.
Qed.

Lemma fail_stop_eval {A : Type} (r : result A) (w : world E) :
  fail_stop (trace (eval r w)) (res (eval r w)).
Proof.
  destruct r as [a | e]; simpl; [constructor |].
  exists [], (EvRaise e). repeat split. constructor.
Qed.

Lemma fail_stop_print (line : string) (w : world E) :
  fail_stop (trace (print line w)) (res (print line w)).
Proof. simpl. repeat constructor. Qed.

Lemma fail_stop_graph_query (q : cypher) (w : world E) :
  fail_stop (trace (graph_query svc q w)) (res (graph_query svc q w)).
Proof.
  unfold graph_query. destruct (query_fault svc q (env w)) as [e' [e |]]; simpl.
  - exists [], (EvQuery q (Err e)). repeat split. constructor.
  - repeat constructor.
Qed.

Lemma fail_stop_add_graph_documents (gds : list graph_document) (w : world E) :
  fail_stop (trace (graph_add_graph_documents svc gds w))
            (res (graph_add_graph_documents svc gds w)).
Proof.
  unfold graph_add_graph_documents.
  destruct (add_graph_documents svc gds (db w) (env w)) as [[g' e'] [[] | e]]; simpl.
  - repeat constructor.
  - exists [], (EvAddGraphDocuments gds (Err e)). repeat split. constructor.
Qed.

Lemma fail_stop_process_chunk (chunk : document) (w : world E) :
  fail_stop (trace (process_chunk svc chunk w)) (res (process_chunk svc chunk w)).
Proof.
  unfold process_chunk.
  apply fail_stop_bind; [apply fail_stop_eval |]. intros ids w1.
  apply fail_stop_bind; [apply fail_stop_print |]. intros _ w2.
  apply fail_stop_bind; [now apply fail_stop_call |]. intros emb w3.
  apply fail_stop_bind; [apply fail_stop_graph_query |]. intros _ w4.
  apply fail_stop_bind; [now apply fail_stop_call |]. intros gds w5.
  apply fail_stop_add_graph_documents.
Qed.

Lemma fail_stop_main (w : world E) :
  fail_stop (trace (main svc w)) (res (main svc w)).
Proof.
  unfold main, setup.
  apply fail_stop_bind.
  { apply fail_stop_for_each. intros c w'. now apply fail_stop_call. }
  intros _ w1.
  apply fail_stop_bind; [now apply fail_stop_call |]. intros docs w2.
  apply fail_stop_bind; [now apply fail_stop_call |]. intros chunks w3.
  apply fail_stop_bind.
  { apply fail_stop_for_each. intros c w'. apply fail_stop_process_chunk. }
  intros _ w4. apply fail_stop_graph_query.
Qed.

(** The program takes one of the listed ways. *)

Lemma process_chunk_run (chunk : document) (w : world E) :
  chunk_run svc chunk w (process_chunk svc chunk w).
Proof.
  unfold process_chunk, mbind, M_bind, bind, eval, print, call, graph_query,
    graph_add_graph_documents.
  destruct (chunk_id_of chunk) as [[fname cid] | e] eqn:Hid; simpl;
    [| now constructor].
  destruct (embed_query svc (page_content chunk) (env w)) as [e1 [emb | x]] eqn:Hemb;
    simpl; [| now apply (chunk_embed_failed svc chunk w fname cid)].
  destruct (query_fault svc _ e1) as [e2 [x |]] eqn:Hq; simpl;
    [now apply (chunk_write_failed svc chunk w fname cid e1 e2 emb) |].
  destruct (convert_to_graph_documents svc _ _ _ e2) as [e3 [ex | x]] eqn:Hex; simpl;
    [| now apply (chunk_extract_failed svc chunk w fname cid e1 e2 e3 emb)].
  destruct (add_graph_documents svc _ _ e3) as [[g4 e4] r] eqn:Hadd; simpl.
  now apply (chunk_subgraph svc chunk w fname cid e1 e2 e3 e4 emb ex g4 r).
Qed.

Lemma for_each_run (chunks : list document) (w : world E) :
  loop_run svc chunks w (for_each chunks (process_chunk svc) w).
Proof.
  revert w. induction chunks as [| c cs IH]; intros w.
  - apply loop_done.
  - rewrite for_each_cons, mbind_run.
    pose proof (process_chunk_run c w) as Hc.
    destruct (process_chunk svc c w) as [w1 t1 [[] | e]] eqn:Ho; simpl.
    + now apply (loop_next svc c cs w (Out w1 t1 (Ok tt))).
    + now apply (loop_abort svc c cs w _ e).
Qed.

Lemma construct_each (cs : list client) (w : world E) :
  let o := for_each cs (fun c => call (construct svc c) (EvConstruct c)) w in
  db (final o) = db w
  /\ Forall (fun ev => stage_of ev = SSetup) (trace o)
  /\ (res o = Ok tt -> trace o = map (fun c => EvConstruct c (Ok tt)) cs).
Proof.
  revert w. induction cs as [| c cs IH]; intros w.
  - simpl. repeat split. constructor.
  - cbv zeta. rewrite for_each_cons, mbind_run, call_run.
    destruct (construct svc c (env w)) as [e1 [[] | x]]; simpl.
    + destruct (IH (World (db w) e1)) as (Hdb & Hst & Htr).
      repeat split; [exact Hdb | now constructor |].
      intros Hok. now rewrite (Htr Hok).
    + repeat split; [repeat constructor | discriminate].
Qed.

Lemma setup_run (w : world E) :
  (exists e0, setup svc w = Out (World (db w) e0) setup_trace (Ok tt))
  \/ (exists e, res (setup svc w) = Err e
                /\ db (final (setup svc w)) = db w
                /\ Forall (fun ev => stage_of ev = SSetup) (trace (setup svc w))).
Proof.
  destruct (construct_each clients w) as (Hdb & Hst & Htr).
  fold (setup svc) in Hdb, Hst, Htr.
  destruct (setup svc w) as [[g0 e0] t0 [[] | e]] eqn:Hs; simpl in *.
  - left. exists e0. subst g0. now rewrite Htr.
  - right. exists e. auto.
Qed.

Lemma main_run (w : world E) : script_run svc w (main svc w).
Proof.
  unfold main. rewrite mbind_run.
  destruct (setup_run w) as [[e0 Hs] | (e & He & _)].
  2:{ rewrite He. pose proof (script_setup_failed svc w e He) as H.
      destruct (setup svc w) as [w0 t0 r0]; simpl in *. now subst r0. }
  rewrite Hs; simpl.
  rewrite mbind_run, call_run. simpl.
  destruct (loader_load svc loader e0) as [e1 [docs | x]] eqn:Hl; simpl;
    [| now apply (script_load_failed svc w e0 e1 x)].
  rewrite mbind_run, call_run. simpl.
  destruct (split_documents svc text_splitter docs e1) as [e2 [chunks | x]] eqn:Hsp;
    simpl; [| now apply (script_split_failed svc w e0 e1 e2 docs x)].
  rewrite mbind_run.
  pose proof (for_each_run chunks (World (db w) e2)) as Hloop.
  destruct (for_each chunks (process_chunk svc) (World (db w) e2))
    as [w3 t3 [[] | x]] eqn:Hfor; simpl.
  - unfold graph_query.
    destruct (query_fault svc (CreateVectorIndex chunkVector) (env w3))
      as [e3 fault] eqn:Hq.
    pose proof (script_index svc w e0 e1 e2 e3 docs chunks _ fault Hs Hl Hsp Hloop
                  eq_refl Hq) as H.
    destruct fault; simpl in *; exact H.
  - exact (script_loop_failed svc w e0 e1 e2 docs chunks _ x Hs Hl Hsp Hloop eq_refl).
Qed.

End Runs.

(** ** Transcripts *)

Lemma split_unique {A : Type} (P : A -> bool) (a b t t' : list A) (x ev : A) :
  a ++ x :: b = t ++ ev :: t' ->
  Forall (fun y => P y = false) a -> Forall (fun y => P y = false) b ->
  P ev = true ->
  t = a /\ ev = x /\ t' = b.
Proof.
  revert t. induction a as [| y a IH]; intros [| z t] Heq Ha Hb Hev; simpl in Heq.
  - injection Heq as -> ->. auto.
  - injection Heq as -> ->.
    apply Forall_app in Hb as [_ Hb]. inversion Hb; subst. congruence.
  - injection Heq as -> _. inversion Ha; subst. congruence.
  - injection Heq as -> Heq. inversion Ha; subst.
    destruct (IH t Heq) as (-> & -> & ->); auto.
Qed.

Lemma not_among {A : Type} (P : A -> bool) (l t t' : list A) (ev : A) :
  l = t ++ ev :: t' -> Forall (fun y => P y = false) l -> P ev = true -> False.
Proof.
  intros -> Hl Hev. apply Forall_app in Hl as [_ Hl].
  inversion Hl; subst. congruence.
Qed.

Section Transcripts.

Context {E : Type} (svc : services E).

Lemma chunk_run_stages (c : document) (w : world E) (o : outcome E unit) :
  chunk_run svc c w o ->
  Forall (fun ev => loop_stage (stage_of ev) = true) (trace o).
Proof. intros H. destruct H; simpl; repeat constructor. Qed.

Lemma chunk_run_ok_block (c : document) (w : world E) (o : outcome E unit) :
  chunk_run svc c w o -> res o = Ok tt -> chunk_block c (trace o).
Proof.
  intros H Hok. destruct H; simpl in *; try discriminate.
  subst r. exists filename0, chunk_id0, chunk_embedding, graph_docs0. auto.
Qed.

Lemma chunk_block_stages (c : document) (b : list event) :
  chunk_block c b -> map stage_of b = [SPrint; SEmbed; SWrite; SExtract; SWrite].
Proof. intros (f & i & v & ex & _ & ->). reflexivity. Qed.

(** A loop either completes every iteration, or completes some and stops in
    the next. *)
Lemma loop_run_blocks (chunks : list document) (w : world E) (o : outcome E unit) :
  loop_run svc chunks w o ->
  (res o = Ok tt
   /\ exists blocks, Forall2 chunk_block chunks blocks /\ trace o = concat blocks)
  \/ (exists (e : exn) (pre post : list document) (c : document)
             (blocks : list (list event)) (wc : world E) (oc : outcome E unit),
         res o = Err e
         /\ chunks = pre ++ c :: post
         /\ Forall2 chunk_block pre blocks
         /\ chunk_run svc c wc oc /\ res oc = Err e
         /\ trace o = concat blocks ++ trace oc
         /\ final o = final oc).
Proof.
  induction 1 as [w | c cs w o e Hc He | c cs w o o' Hc Hok Hl IH].
  - left. split; [reflexivity |]. exists []. split; [constructor | reflexivity].
  - right. exists e, [], cs, c, [], w, o. repeat split; auto.
  - pose proof (chunk_run_ok_block c w o Hc Hok) as Hb.
    destruct IH as [(Hres & blocks & Hbs & Ht)
                   | (e & pre & post & c' & blocks & wc & oc & Hres & Hcs & Hbs & Hc' & He
                      & Ht & Hf)].
    + left. split; [exact Hres |]. exists (trace o :: blocks).
      split; [now constructor | simpl; now rewrite Ht].
    + right. exists e, (c :: pre), post, c', (trace o :: blocks), wc, oc.
      simpl. rewrite Hcs, Ht, app_assoc. repeat split; auto.
Qed.

Lemma loop_run_stages (chunks : list document) (w : world E) (o : outcome E unit) :
  loop_run svc chunks w o ->
  Forall (fun ev => loop_stage (stage_of ev) = true) (trace o).
Proof.
  induction 1 as [w | c cs w o e Hc He | c cs w o o' Hc Hok Hl IH]; simpl.
  - constructor.
  - now apply (chunk_run_stages c w).
  - apply Forall_app. split; [now apply (chunk_run_stages c w) | exact IH].
Qed.

(** What an iteration writes as subgraph is what extraction returned for the
    chunk, after the linking loop. *)
Lemma written_subgraph (c : document) (w : world E) (gds : list graph_document)
    (r : result unit) :
  In (EvAddGraphDocuments gds r) (trace (process_chunk svc c w)) ->
  exists filename chunk_id graph_docs,
    chunk_id_of c = Ok (filename, chunk_id)
    /\ In (EvExtract [c] (Ok graph_docs)) (trace (process_chunk svc c w))
    /\ gds = deref (link_entities chunk_id graph_docs).
Proof.
  generalize (process_chunk_run svc c w). generalize (process_chunk svc c w).
  intros o H.
  destruct H as [e He | f i e1 x Hid He | f i e1 e2 v x Hid He p Hq
                | f i e1 e2 e3 v x Hid He p Hq Hx
                | f i e1 e2 e3 e4 v ex g4 r' Hid He p Hq Hx Ha]; simpl; intros Hin;
    repeat (destruct Hin as [Hin | Hin]; try discriminate); try contradiction.
  injection Hin as <- <-. exists f, i, ex. repeat split; auto.
Qed.

Lemma loop_stage_not_index (ev : event) :
  loop_stage (stage_of ev) = true -> is_index_event ev = false.
Proof. destruct ev as [| | | | | | [] | |]; simpl; congruence. Qed.

Lemma loop_stage_not_split (ev : event) :
  loop_stage (stage_of ev) = true -> is_split_event ev = false.
Proof. destruct ev as [| | | | | | [] | |]; simpl; congruence. Qed.

Lemma chunk_block_loop_stages (c : document) (b : list event) :
  chunk_block c b -> Forall (fun ev => loop_stage (stage_of ev) = true) b.
Proof. intros (f & i & v & ex & _ & ->). repeat constructor. Qed.

Lemma blocks_loop_stages (chunks : list document) (blocks : list (list event)) :
  Forall2 chunk_block chunks blocks ->
  Forall (fun ev => loop_stage (stage_of ev) = true) (concat blocks).
Proof.
  induction 1 as [| c b cs bs Hb _ IH]; simpl; [constructor |].
  apply Forall_app. split; [now apply (chunk_block_loop_stages c) | exact IH].
Qed.

(** The transcript of any run of the script. *)
Lemma main_transcript (w : world E) :
  (Forall (fun ev => stage_of ev = SSetup) (trace (main svc w))
   /\ exists e, res (main svc w) = Err e)
  \/ (exists x,
        trace (main svc w) = setup_trace ++ [EvLoad loader (Err x)]
        /\ res (main svc w) = Err x)
  \/ (exists docs x,
        trace (main svc w)
        = setup_trace ++ [EvLoad loader (Ok docs); EvSplit text_splitter docs (Err x)]
        /\ res (main svc w) = Err x)
  \/ (exists docs chunks e pre post c blocks wc oc,
        trace (main svc w)
        = setup_trace
          ++ [EvLoad loader (Ok docs); EvSplit text_splitter docs (Ok chunks)]
          ++ concat blocks ++ trace oc
        /\ res (main svc w) = Err e
        /\ chunks = pre ++ c :: post
        /\ Forall2 chunk_block pre blocks
        /\ chunk_run svc c wc oc /\ res oc = Err e
        /\ final (main svc w) = final oc)
  \/ (exists docs chunks blocks r,
        trace (main svc w)
        = setup_trace
          ++ [EvLoad loader (Ok docs); EvSplit text_splitter docs (Ok chunks)]
          ++ concat blocks
          ++ [EvQuery (CreateVectorIndex chunkVector) r]
        /\ res (main svc w) = r
        /\ Forall2 chunk_block chunks blocks).
Proof.
  generalize (main_run svc w). generalize (main svc w). intros o H.
  destruct H as [e He | e0 e1 x Hs Hl | e0 e1 e2 docs x Hs Hl Hsp
                | e0 e1 e2 docs chunks o x Hs Hl Hsp Hloop Hres
                | e0 e1 e2 e3 docs chunks o fault Hs Hl Hsp Hloop Hres Hq].
  - left. destruct (setup_run svc w) as [[e0 Hs] | (e' & _ & _ & Hst)].
    + rewrite Hs in He. discriminate.
    + split; [exact Hst | now exists e].
  - right. left. exists x. auto.
  - right. right. left. exists docs, x. auto.
  - right. right. right. left.
    destruct (loop_run_blocks chunks _ o Hloop)
      as [(Hok & _) | (e & pre & post & c & blocks & wc & oc & He & Hcs & Hbs & Hc & Hoc
                       & Ht & Hf)]; [congruence |].
    exists docs, chunks, e, pre, post, c, blocks, wc, oc. simpl.
    rewrite Ht. repeat split; auto; congruence.
  - right. right. right. right.
    destruct (loop_run_blocks chunks _ o Hloop)
      as [(_ & blocks & Hbs & Ht) | (e & pre & post & c & blocks & wc & oc & He & _)];
      [| congruence].
    exists docs, chunks, blocks, (match fault with Some x => Err x | None => Ok tt end).
    simpl. rewrite Ht. auto.
Qed.

Lemma setup_stage_not_index (ev : event) :
  stage_of ev = SSetup -> is_index_event ev = false.
Proof. destruct ev as [| | | | | | [] | |]; simpl; congruence. Qed.

Lemma setup_stage_not_split (ev : event) :
  stage_of ev = SSetup -> is_split_event ev = false.
Proof. destruct ev as [| | | | | | [] | |]; simpl; congruence. Qed.

(** No index statement before the loop is over. *)
Lemma no_index_before_loop_end (docs chunks : list document) (loop_part : list event) :
  Forall (fun ev => loop_stage (stage_of ev) = true) loop_part ->
  Forall (fun ev => is_index_event ev = false)
         (setup_trace
          ++ [EvLoad loader (Ok docs); EvSplit text_splitter docs (Ok chunks)]
          ++ loop_part).
Proof.
  intros Hl. apply Forall_app. split; [repeat constructor |].
  apply Forall_app. split; [repeat constructor |].
  eapply Forall_impl; [exact Hl | apply loop_stage_not_index].
Qed.

(** Where the statements sent to the store come from. *)
Lemma chunk_run_queries (c : document) (w : world E) (o : outcome E unit)
    (q : cypher) (r : result unit) :
  chunk_run svc c w o -> In (EvQuery q r) (trace o) ->
  exists f i v, chunk_id_of c = Ok (f, i)
                /\ q = MergeChunk (Properties f i (page_content c) v).
Proof.
  intros H.
  destruct H as [e He | f i e1 x Hid He | f i e1 e2 v x Hid He p Hq
                | f i e1 e2 e3 v x Hid He p Hq Hx
                | f i e1 e2 e3 e4 v ex g4 r' Hid He p Hq Hx Ha]; simpl; intros Hin;
    repeat (destruct Hin as [Hin | Hin]; try discriminate); try contradiction;
    injection Hin as <- _; now exists f, i, v.
Qed.

Lemma loop_run_queries (chunks : list document) (w : world E) (o : outcome E unit)
    (q : cypher) (r : result unit) :
  loop_run svc chunks w o -> In (EvQuery q r) (trace o) ->
  exists c f i v, In c chunks
                  /\ chunk_id_of c = Ok (f, i)
                  /\ q = MergeChunk (Properties f i (page_content c) v).
Proof.
  induction 1 as [w | c cs w o e Hc He | c cs w o o' Hc Hok Hl IH]; cbn [trace];
    intros Hin.
  - destruct Hin.
  - destruct (chunk_run_queries c w o q r Hc Hin) as (f & i & v & Hid & ->).
    exists c, f, i, v. repeat split; auto. now left.
  - apply in_app_or in Hin as [Hin | Hin].
    + destruct (chunk_run_queries c w o q r Hc Hin) as (f & i & v & Hid & ->).
      exists c, f, i, v. repeat split; auto. now left.
    + destruct (IH Hin) as (c' & f & i & v & Hc' & Hid & ->).
      exists c', f, i, v. repeat split; auto. now right.
Qed.

Lemma main_queries (w : world E) (q : cypher) (r : result unit) :
  In (EvQuery q r) (trace (main svc w)) ->
  q = CreateVectorIndex chunkVector
  \/ exists c f i v, chunk_id_of c = Ok (f, i)
                     /\ q = MergeChunk (Properties f i (page_content c) v).
Proof.
  generalize (main_run svc w). generalize (main svc w). intros o H.
  destruct H as [e He | e0 e1 x Hs Hl | e0 e1 e2 docs x Hs Hl Hsp
                | e0 e1 e2 docs chunks o x Hs Hl Hsp Hloop Hres
                | e0 e1 e2 e3 docs chunks o fault Hs Hl Hsp Hloop Hres Hq];
    cbn [trace]; intros Hin.
  - exfalso. destruct (setup_run svc w) as [[e0 Hs] | (e' & _ & _ & Hst)].
    + rewrite Hs in He. discriminate.
    + rewrite List.Forall_forall in Hst. now specialize (Hst _ Hin); destruct q.
  - exfalso. apply in_app_or in Hin as [Hin | Hin]; simpl in Hin;
      repeat (destruct Hin as [Hin | Hin]; try discriminate); contradiction.
  - exfalso. apply in_app_or in Hin as [Hin | Hin]; simpl in Hin;
      repeat (destruct Hin as [Hin | Hin]; try discriminate); contradiction.
  - apply in_app_or in Hin as [Hin | Hin];
      [exfalso; simpl in Hin;
       repeat (destruct Hin as [Hin | Hin]; try discriminate); contradiction |].
    apply in_app_or in Hin as [Hin | Hin];
      [exfalso; simpl in Hin;
       repeat (destruct Hin as [Hin | Hin]; try discriminate); contradiction |].
    right. destruct (loop_run_queries chunks _ o q r Hloop Hin)
      as (c & f & i & v & _ & Hid & ->). now exists c, f, i, v.
  - apply in_app_or in Hin as [Hin | Hin];
      [exfalso; simpl in Hin;
       repeat (destruct Hin as [Hin | Hin]; try discriminate); contradiction |].
    apply in_app_or in Hin as [Hin | Hin];
      [exfalso; simpl in Hin;
       repeat (destruct Hin as [Hin | Hin]; try discriminate); contradiction |].
    apply in_app_or in Hin as [Hin | Hin].
    + right. destruct (loop_run_queries chunks _ o q r Hloop Hin)
        as (c & f & i & v & _ & Hid & ->). now exists c, f, i, v.
    + left. destruct Hin as [Hin | []]. now injection Hin as <- _.
Qed.

(** Either no index statement was issued and the run failed, or the index
    statement closes the transcript. *)
Lemma index_event_position (w : world E) :
  (Forall (fun ev => is_index_event ev = false) (trace (main svc w))
   /\ exists e, res (main svc w) = Err e)
  \/ (exists docs chunks blocks r,
        trace (main svc w)
        = (setup_trace
           ++ [EvLoad loader (Ok docs); EvSplit text_splitter docs (Ok chunks)]
           ++ concat blocks)
          ++ [EvQuery (CreateVectorIndex chunkVector) r]
        /\ res (main svc w) = r
        /\ Forall2 chunk_block chunks blocks
        /\ Forall (fun ev => is_index_event ev = false)
                  (setup_trace
                   ++ [EvLoad loader (Ok docs); EvSplit text_splitter docs (Ok chunks)]
                   ++ concat blocks)).
Proof.
  destruct (main_transcript w)
    as [(Hst & e & He) | [(x & Ht & He) | [(docs & x & Ht & He)
       | [(docs & chunks & e & pre & post & c & blocks & wc & oc & Ht & He & _ & Hbs
           & Hc & _)
       | (docs & chunks & blocks & r & Ht & Hr & Hbs)]]]].
  - left. split; [| now exists e].
    eapply Forall_impl; [exact Hst | apply setup_stage_not_index].
  - left. split; [| now exists x].
    rewrite Ht. apply Forall_app. split; repeat constructor.
  - left. split; [| now exists x].
    rewrite Ht. apply Forall_app. split; repeat constructor.
  - left. split; [| now exists e].
    rewrite Ht. apply no_index_before_loop_end.
    apply Forall_app. split; [now apply (blocks_loop_stages pre) |].
    exact (chunk_run_stages c wc oc Hc).
  - right. exists docs, chunks, blocks, r.
    rewrite Ht, <- !app_assoc. repeat split; auto.
    apply no_index_before_loop_end. now apply (blocks_loop_stages chunks).
Qed.

Lemma loop_stage_not_load (ev : event) :
  loop_stage (stage_of ev) = true -> is_load_event ev = false.
Proof. destruct ev as [| | | | | | [] | |]; simpl; congruence. Qed.

Lemma setup_stage_not_load (ev : event) :
  stage_of ev = SSetup -> is_load_event ev = false.
Proof. destruct ev as [| | | | | | [] | |]; simpl; congruence. Qed.

(** How every transcript begins: the clients, then one load with the
    configured loader, then one split of what was loaded with the configured
    splitter; neither is called again. *)
Lemma head_of_transcript (w : world E) :
  Forall (fun ev => stage_of ev = SSetup) (trace (main svc w))
  \/ (exists x, trace (main svc w) = setup_trace ++ [EvLoad loader (Err x)])
  \/ (exists docs r rest,
        trace (main svc w)
        = setup_trace ++ EvLoad loader (Ok docs) :: EvSplit text_splitter docs r :: rest
        /\ Forall (fun ev => is_load_event ev = false) rest
        /\ Forall (fun ev => is_split_event ev = false) rest).
Proof.
  destruct (main_transcript w)
    as [(Hst & _) | [(x & Ht & _) | [(docs & x & Ht & _)
       | [(docs & chunks & e & pre & post & c & blocks & wc & oc & Ht & _ & _ & Hbs
           & Hc & _)
       | (docs & chunks & blocks & r & Ht & _ & Hbs)]]]].
  - now left.
  - right. left. now exists x.
  - right. right. exists docs, (Err x), []. rewrite Ht. repeat split; constructor.
  - right. right. exists docs, (Ok chunks), (concat blocks ++ trace oc).
    rewrite Ht. split; [reflexivity |].
    assert (Hl : Forall (fun ev => loop_stage (stage_of ev) = true)
                        (concat blocks ++ trace oc)).
    { apply Forall_app. split; [now apply (blocks_loop_stages pre) |].
      exact (chunk_run_stages c wc oc Hc). }
    split; (eapply Forall_impl; [exact Hl |]);
      [apply loop_stage_not_load | apply loop_stage_not_split].
  - right. right.
    exists docs, (Ok chunks), (concat blocks ++ [EvQuery (CreateVectorIndex chunkVector) r]).
    rewrite Ht. split; [reflexivity |].
    pose proof (blocks_loop_stages chunks blocks Hbs) as Hl.
    split; (apply Forall_app; split; [| repeat constructor]);
      (eapply Forall_impl; [exact Hl |]);
      [apply loop_stage_not_load | apply loop_stage_not_split].
Qed.

End Transcripts.

(** ** The graph store *)

Lemma db_nodes_merge_chunk (p : properties) (g : graph_db) :
  db_nodes (merge_chunk p g) = merge_chunk_nodes p (db_nodes g).
Proof. reflexivity. Qed.

(** *** Patterns and single nodes *)

Lemma has_id_set (id key : string) (v : propval) (n : db_node) :
  key <> "id" -> has_id id (set_node_prop key v n) = has_id id n.
Proof.
  intros Hk. unfold has_id, set_node_prop. simpl.
  now rewrite lookup_insert_ne.
Qed.

Lemma matches_set (label id key : string) (v : propval) (n : db_node) :
  key <> "id" -> matches label id (set_node_prop key v n) = matches label id n.
Proof. intros Hk. unfold matches. now rewrite has_id_set. Qed.

Lemma matches_core (label id : string) (n : db_node) :
  label = "Document" \/ label = "Chunk" -> matches label id n = true -> is_core n = true.
Proof.
  unfold matches, is_core. intros [-> | ->] H; apply andb_true_iff in H as [H _];
    rewrite H; [reflexivity | apply orb_true_r].
Qed.

Lemma matches_new (label id : string) :
  matches label id (DbNode [label] {[ "id" := VStr id ]}) = true.
Proof.
  unfold matches, has_label, has_id. simpl.
  rewrite lookup_singleton_eq. now rewrite !String.eqb_refl.
Qed.

Lemma matches_new_inv (label label' id id' : string) :
  matches label id (DbNode [label'] {[ "id" := VStr id' ]}) = true ->
  label = label' /\ id = id'.
Proof.
  unfold matches, has_label, has_id. simpl. rewrite lookup_singleton_eq.
  rewrite orb_false_r. intros H. apply andb_true_iff in H as [Hl Hi].
  apply String.eqb_eq in Hl, Hi. auto.
Qed.

Lemma matches_same_id (label label' id id' : string) (n : db_node) :
  matches label id n = true -> matches label' id' n = true -> id = id'.
Proof.
  unfold matches, has_id. intros H H'.
  apply andb_true_iff in H as [_ H]. apply andb_true_iff in H' as [_ H'].
  destruct (props n !! "id") as [[s | v] |]; try discriminate.
  apply String.eqb_eq in H, H'. congruence.
Qed.

(** *** MERGE and SET on a node list *)

Lemma merge_node_in_self (label id : string) (ns : list db_node) :
  existsb (matches label id) (merge_node_in label id ns) = true.
Proof.
  unfold merge_node_in.
  destruct (existsb (matches label id) ns) eqn:Hex; [exact Hex |].
  rewrite existsb_app. simpl. rewrite matches_new. apply orb_true_r.
Qed.

Lemma merge_node_in_mono (P : db_node -> bool) (label id : string) (ns : list db_node) :
  existsb P ns = true -> existsb P (merge_node_in label id ns) = true.
Proof.
  intros H. unfold merge_node_in.
  destruct (existsb (matches label id) ns); [exact H |].
  rewrite existsb_app, H. reflexivity.
Qed.

Lemma merge_node_in_present (label id : string) (ns : list db_node) :
  existsb (matches label id) ns = true -> merge_node_in label id ns = ns.
Proof. intros H. unfold merge_node_in. now rewrite H. Qed.

Lemma existsb_set_prop (label label' id id' key : string) (v : propval)
    (ns : list db_node) :
  key <> "id" ->
  existsb (matches label' id') (set_prop_in label id key v ns)
  = existsb (matches label' id') ns.
Proof.
  intros Hk. unfold set_prop_in. induction ns as [| n ns IH]; simpl; [reflexivity |].
  rewrite IH. destruct (matches label id n); [now rewrite matches_set | reflexivity].
Qed.

Lemma set_prop_in_keys (label id key : string) (v : propval) (ns : list db_node) :
  key <> "id" -> map node_key (set_prop_in label id key v ns) = map node_key ns.
Proof.
  intros Hk. unfold set_prop_in. rewrite map_map. apply map_ext. intros n.
  destruct (matches label id n); [| reflexivity].
  unfold node_key, set_node_prop. simpl. now rewrite lookup_insert_ne.
Qed.

Lemma text_is_not_id : "text" <> "id".
Proof. discriminate. Qed.

Lemma textEmbedding_is_not_id : "textEmbedding" <> "id".
Proof. discriminate. Qed.

(** The statement's two SETs, node by node. *)
Lemma merge_chunk_nodes_map (p : properties) (ns : list db_node) :
  merge_chunk_nodes p ns
  = map (fun n => if matches "Chunk" (chunk_id p) n
                  then set_node_prop "textEmbedding" (VVec (embedding p))
                         (set_node_prop "text" (VStr (text p)) n)
                  else n)
        (merge_node_in "Chunk" (chunk_id p) (merge_node_in "Document" (filename p) ns)).
Proof.
  unfold merge_chunk_nodes, set_prop_in. rewrite map_map. apply map_ext. intros n.
  destruct (matches "Chunk" (chunk_id p) n) eqn:Hm.
  - now rewrite matches_set, Hm by apply text_is_not_id.
  - now rewrite Hm.
Qed.

Lemma present_after_merge (label id : string) (p : properties) (ns : list db_node) :
  present_in label id ns -> present_in label id (merge_chunk_nodes p ns).
Proof.
  unfold present_in, merge_chunk_nodes. intros H.
  rewrite !existsb_set_prop by discriminate.
  now do 2 apply merge_node_in_mono.
Qed.

Lemma document_after_merge (p : properties) (ns : list db_node) :
  present_in "Document" (filename p) (merge_chunk_nodes p ns).
Proof.
  unfold present_in, merge_chunk_nodes.
  rewrite !existsb_set_prop by discriminate.
  apply merge_node_in_mono, merge_node_in_self.
Qed.

Lemma chunk_after_merge (p : properties) (ns : list db_node) :
  present_in "Chunk" (chunk_id p) (merge_chunk_nodes p ns).
Proof.
  unfold present_in, merge_chunk_nodes.
  rewrite !existsb_set_prop by discriminate.
  apply merge_node_in_self.
Qed.

(** Right after the statement the store holds the chunk. *)
Lemma holds_after_merge (p : properties) (ns : list db_node) :
  holds_chunk_in p (merge_chunk_nodes p ns).
Proof.
  split; [apply document_after_merge |]. split; [apply chunk_after_merge |].
  rewrite merge_chunk_nodes_map. apply List.Forall_forall. intros n' Hin.
  apply in_map_iff in Hin as (n & <- & _).
  destruct (matches "Chunk" (chunk_id p) n) eqn:Hm.
  - intros _. unfold set_node_prop. simpl. split.
    + rewrite lookup_insert_ne by discriminate. apply lookup_insert_eq.
    + apply lookup_insert_eq.
  - congruence.
Qed.

Lemma holds_embedded (p : properties) (ns : list db_node) :
  holds_chunk_in p ns -> embedded_chunk_in (chunk_id p) (length (embedding p)) ns.
Proof.
  intros (_ & Hc & Hall). split; [exact Hc |].
  eapply Forall_impl; [exact Hall |]. intros n Hn Hm.
  destruct (Hn Hm) as [_ Hv]. now exists (embedding p).
Qed.

(** Chunks of another id keep their embedding. *)
Lemma embedded_other_after_merge (id : string) (dim : nat) (p : properties)
    (ns : list db_node) :
  id <> chunk_id p ->
  embedded_chunk_in id dim ns -> embedded_chunk_in id dim (merge_chunk_nodes p ns).
Proof.
  intros Hne [Hpres Hall]. split; [now apply present_after_merge |].
  rewrite merge_chunk_nodes_map. apply List.Forall_forall. intros n' Hin.
  apply in_map_iff in Hin as (n & <- & Hin).
  destruct (matches "Chunk" (chunk_id p) n) eqn:Hm.
  - rewrite !matches_set by discriminate. intros Hm'.
    destruct Hne. exact (matches_same_id _ _ _ _ n Hm' Hm).
  - intros Hm'. unfold merge_node_in in Hin.
    rewrite List.Forall_forall in Hall.
    destruct (existsb (matches "Document" (filename p)) ns);
      destruct (existsb (matches "Chunk" (chunk_id p)) _);
      repeat (apply in_app_or in Hin as [Hin | Hin]); auto;
      destruct Hin as [<- | []];
      apply matches_new_inv in Hm' as [Hl Hi]; congruence.
Qed.

Lemma embedded_after_merge (id : string) (p : properties) (ns : list db_node) :
  embedded_chunk_in id (length (embedding p)) ns ->
  embedded_chunk_in id (length (embedding p)) (merge_chunk_nodes p ns).
Proof.
  intros H. destruct (String.eqb_spec id (chunk_id p)) as [-> | Hne].
  - apply holds_embedded, holds_after_merge.
  - now apply embedded_other_after_merge.
Qed.

(** *** Running the statement again *)

Lemma merge_chunk_nodes_present (p : properties) (ns : list db_node) :
  present_in "Document" (filename p) ns -> present_in "Chunk" (chunk_id p) ns ->
  merge_chunk_nodes p ns
  = map (fun n => if matches "Chunk" (chunk_id p) n
                  then set_node_prop "textEmbedding" (VVec (embedding p))
                         (set_node_prop "text" (VStr (text p)) n)
                  else n) ns.
Proof.
  intros Hd Hc. rewrite merge_chunk_nodes_map.
  now rewrite (merge_node_in_present "Document"), (merge_node_in_present "Chunk").
Qed.

Lemma set_twice (u : list float) (t : string) (n : db_node) :
  set_node_prop "textEmbedding" (VVec u)
    (set_node_prop "text" (VStr t)
       (set_node_prop "textEmbedding" (VVec u) (set_node_prop "text" (VStr t) n)))
  = set_node_prop "textEmbedding" (VVec u) (set_node_prop "text" (VStr t) n).
Proof.
  unfold set_node_prop. simpl. f_equal.
  rewrite (insert_insert_ne _ "text" "textEmbedding") by discriminate.
  now rewrite !insert_insert_eq.
Qed.

Lemma merge_chunk_nodes_idem (p : properties) (ns : list db_node) :
  merge_chunk_nodes p (merge_chunk_nodes p ns) = merge_chunk_nodes p ns.
Proof.
  rewrite (merge_chunk_nodes_present p (merge_chunk_nodes p ns))
    by (apply document_after_merge || apply chunk_after_merge).
  rewrite merge_chunk_nodes_map, map_map. apply map_ext. intros n.
  destruct (matches "Chunk" (chunk_id p) n) eqn:Hm.
  - rewrite !matches_set, Hm by discriminate. apply set_twice.
  - now rewrite Hm.
Qed.

(** Whatever the text and the embedding, a second statement for the same
    file name and chunk id creates no node. *)
Lemma merge_chunk_nodes_keys_again (p p' : properties) (ns : list db_node) :
  present_in "Document" (filename p') ns -> present_in "Chunk" (chunk_id p') ns ->
  map node_key (merge_chunk_nodes p' ns) = map node_key ns.
Proof.
  intros Hd Hc. unfold merge_chunk_nodes.
  rewrite !set_prop_in_keys by discriminate.
  now rewrite (merge_node_in_present "Document"), (merge_node_in_present "Chunk").
Qed.

Lemma count_zero (P : db_node -> bool) (ns : list db_node) :
  existsb P ns = false -> length (List.filter P ns) = 0.
Proof.
  induction ns as [| n ns IH]; simpl; [reflexivity |].
  destruct (P n); simpl; [discriminate | exact IH].
Qed.

Lemma count_positive (P : db_node -> bool) (ns : list db_node) :
  existsb P ns = true -> 1 <= length (List.filter P ns).
Proof.
  induction ns as [| n ns IH]; simpl; [discriminate |].
  destruct (P n); simpl; [lia | exact IH].
Qed.

Lemma count_merge_node_in (label id : string) (ns : list db_node) :
  length (List.filter (matches label id) (merge_node_in label id ns))
  = Nat.max 1 (length (List.filter (matches label id) ns)).
Proof.
  unfold merge_node_in.
  destruct (existsb (matches label id) ns) eqn:Hex.
  - apply count_positive in Hex. lia.
  - rewrite List.filter_app, length_app, (count_zero _ _ Hex). simpl.
    now rewrite matches_new.
Qed.

Lemma count_merge_other (label label' id id' : string) (ns : list db_node) :
  label <> label' ->
  length (List.filter (matches label id) (merge_node_in label' id' ns))
  = length (List.filter (matches label id) ns).
Proof.
  intros Hne. unfold merge_node_in.
  destruct (existsb (matches label' id') ns); [reflexivity |].
  rewrite List.filter_app, length_app. simpl.
  destruct (matches label id _) eqn:Hm; [| simpl; lia].
  apply matches_new_inv in Hm as [Hl _]. contradiction.
Qed.

Lemma count_set_prop (label label' id id' key : string) (v : propval)
    (ns : list db_node) :
  key <> "id" ->
  length (List.filter (matches label' id') (set_prop_in label id key v ns))
  = length (List.filter (matches label' id') ns).
Proof.
  intros Hk. unfold set_prop_in. induction ns as [| n ns IH]; simpl; [reflexivity |].
  destruct (matches label id n); [rewrite matches_set by exact Hk |];
    destruct (matches label' id' n); simpl; now rewrite IH.
Qed.

Lemma count_documents_after_merge (p : properties) (g : graph_db) :
  count_nodes "Document" (filename p) (merge_chunk p g)
  = Nat.max 1 (count_nodes "Document" (filename p) g).
Proof.
  unfold count_nodes. rewrite db_nodes_merge_chunk. unfold merge_chunk_nodes.
  rewrite !count_set_prop by discriminate.
  rewrite count_merge_other by discriminate. apply count_merge_node_in.
Qed.

Lemma count_chunks_after_merge (p : properties) (g : graph_db) :
  count_nodes "Chunk" (chunk_id p) (merge_chunk p g)
  = Nat.max 1 (count_nodes "Chunk" (chunk_id p) g).
Proof.
  unfold count_nodes. rewrite db_nodes_merge_chunk. unfold merge_chunk_nodes.
  rewrite !count_set_prop by discriminate.
  rewrite count_merge_node_in. now rewrite count_merge_other by discriminate.
Qed.

(** *** The PART_OF relationship *)

Lemma db_rel_eqb_refl (r : db_rel) : db_rel_eqb r r = true.
Proof. unfold db_rel_eqb. now rewrite !Nat.eqb_refl, String.eqb_refl. Qed.

Lemma merge_rel_self (r : db_rel) (rs : list db_rel) :
  existsb (db_rel_eqb r) (merge_rel r rs) = true.
Proof.
  unfold merge_rel. destruct (existsb (db_rel_eqb r) rs) eqn:Hex; [exact Hex |].
  rewrite existsb_app. simpl. rewrite db_rel_eqb_refl. apply orb_true_r.
Qed.

Lemma merge_rel_mono (r r' : db_rel) (rs : list db_rel) :
  existsb (db_rel_eqb r) rs = true -> existsb (db_rel_eqb r) (merge_rel r' rs) = true.
Proof.
  intros H. unfold merge_rel. destruct (existsb (db_rel_eqb r') rs); [exact H |].
  rewrite existsb_app, H. reflexivity.
Qed.

Lemma merge_rels_mono (r : db_rel) (rs : list db_rel) (pairs : list (nat * nat)) :
  existsb (db_rel_eqb r) rs = true ->
  existsb (db_rel_eqb r)
          (foldl (fun rs dc => merge_rel (DbRel (snd dc) "PART_OF" (fst dc)) rs) rs pairs)
  = true.
Proof.
  revert rs. induction pairs as [| dc pairs IH]; intros rs H; simpl; [exact H |].
  apply IH. now apply merge_rel_mono.
Qed.

Lemma merge_rels_all (rs : list db_rel) (pairs : list (nat * nat)) :
  Forall (fun dc =>
            existsb (db_rel_eqb (DbRel (snd dc) "PART_OF" (fst dc)))
                    (foldl (fun rs dc => merge_rel (DbRel (snd dc) "PART_OF" (fst dc)) rs)
                           rs pairs) = true)
         pairs.
Proof.
  revert rs. induction pairs as [| dc pairs IH]; intros rs; simpl; constructor.
  - apply merge_rels_mono, merge_rel_self.
  - apply IH.
Qed.

Lemma merge_rels_nothing_new (rs : list db_rel) (pairs : list (nat * nat)) :
  Forall (fun dc => existsb (db_rel_eqb (DbRel (snd dc) "PART_OF" (fst dc))) rs = true)
         pairs ->
  foldl (fun rs dc => merge_rel (DbRel (snd dc) "PART_OF" (fst dc)) rs) rs pairs = rs.
Proof.
  induction 1 as [| dc pairs Hdc _ IH]; simpl; [reflexivity |].
  unfold merge_rel at 2. now rewrite Hdc.
Qed.

Lemma matching_from_set (i : nat) (label label' id id' key : string) (v : propval)
    (ns : list db_node) :
  key <> "id" ->
  matching_from i label' id' (set_prop_in label id key v ns)
  = matching_from i label' id' ns.
Proof.
  intros Hk. revert i. unfold set_prop_in.
  induction ns as [| n ns IH]; intros i; simpl; [reflexivity |].
  rewrite IH. destruct (matches label id n); [now rewrite matches_set | reflexivity].
Qed.

Lemma db_rels_merge_chunk (p : properties) (g : graph_db) :
  db_rels (merge_chunk p g)
  = foldl (fun rs dc => merge_rel (DbRel (snd dc) "PART_OF" (fst dc)) rs) (db_rels g)
          (list_prod (matching_from 0 "Document" (filename p) (merge_chunk_nodes p (db_nodes g)))
                     (matching_from 0 "Chunk" (chunk_id p) (merge_chunk_nodes p (db_nodes g)))).
Proof.
  unfold merge_chunk_nodes. rewrite !(matching_from_set _ _ _ _ _ "textEmbedding") by discriminate.
  reflexivity.
Qed.

(** The whole statement, run again with the same parameters, changes nothing. *)
Lemma merge_chunk_idem (p : properties) (g : graph_db) :
  merge_chunk p (merge_chunk p g) = merge_chunk p g.
Proof.
  assert (Hn : db_nodes (merge_chunk p (merge_chunk p g)) = db_nodes (merge_chunk p g)).
  { rewrite !db_nodes_merge_chunk. apply merge_chunk_nodes_idem. }
  assert (Hr : db_rels (merge_chunk p (merge_chunk p g)) = db_rels (merge_chunk p g)).
  { rewrite (db_rels_merge_chunk p (merge_chunk p g)).
    rewrite db_nodes_merge_chunk, merge_chunk_nodes_idem.
    apply merge_rels_nothing_new.
    rewrite db_rels_merge_chunk. apply merge_rels_all. }
  assert (Hi : db_indexes (merge_chunk p (merge_chunk p g)) = db_indexes (merge_chunk p g))
    by reflexivity.
  destruct (merge_chunk p (merge_chunk p g)), (merge_chunk p g). simpl in *. congruence.
Qed.

(** *** Sequences of write statements *)

Lemma replay_nodes_app (ps1 ps2 : list properties) (ns : list db_node) :
  replay_nodes (ps1 ++ ps2) ns = replay_nodes ps2 (replay_nodes ps1 ns).
Proof. unfold replay_nodes. apply foldl_app. Qed.

Lemma present_after_replay (label id : string) (ps : list properties) (ns : list db_node) :
  present_in label id ns -> present_in label id (replay_nodes ps ns).
Proof.
  revert ns. induction ps as [| p ps IH]; intros ns H; simpl; [exact H |].
  apply IH. now apply present_after_merge.
Qed.

Lemma replayed_present (ps : list properties) (ns : list db_node) (p : properties) :
  In p ps ->
  present_in "Document" (filename p) (replay_nodes ps ns)
  /\ present_in "Chunk" (chunk_id p) (replay_nodes ps ns).
Proof.
  revert ns. induction ps as [| q ps IH]; intros ns; simpl; [tauto |].
  intros [-> | Hin]; [| now apply IH].
  split; apply present_after_replay;
    [apply document_after_merge | apply chunk_after_merge].
Qed.

Lemma replay_keys_again (ps : list properties) (ns : list db_node) :
  Forall (fun p => present_in "Document" (filename p) ns
                   /\ present_in "Chunk" (chunk_id p) ns) ps ->
  map node_key (replay_nodes ps ns) = map node_key ns.
Proof.
  revert ns. induction ps as [| p ps IH]; intros ns H; simpl; [reflexivity |].
  inversion H as [| ? ? [Hd Hc] Hrest]; subst.
  rewrite IH.
  - now apply (merge_chunk_nodes_keys_again p).
  - eapply Forall_impl; [exact Hrest |].
    intros q [Hqd Hqc]. split; now apply present_after_merge.
Qed.

Lemma present_in_same (label id id' : string) (ns : list db_node) :
  id = id' -> present_in label id ns -> present_in label id' ns.
Proof. now intros ->. Qed.

Lemma replay_again_keys (ps1 ps2 : list properties) (ns : list db_node) :
  (forall p2, In p2 ps2 ->
     exists p1, In p1 ps1 /\ filename p1 = filename p2 /\ chunk_id p1 = chunk_id p2) ->
  map node_key (replay_nodes ps2 (replay_nodes ps1 ns))
  = map node_key (replay_nodes ps1 ns).
Proof.
  intros H. apply replay_keys_again. apply List.Forall_forall. intros p2 Hin.
  destruct (H p2 Hin) as (p1 & Hin1 & Hf & Hc).
  destruct (replayed_present ps1 ns p1 Hin1) as [Hd Hk].
  split; [now apply (present_in_same _ _ _ _ Hf) | now apply (present_in_same _ _ _ _ Hc)].
Qed.

Lemma embedded_after_replay (id : string) (dim : nat) (ps : list properties)
    (ns : list db_node) :
  Forall (fun p => length (embedding p) = dim) ps ->
  embedded_chunk_in id dim ns -> embedded_chunk_in id dim (replay_nodes ps ns).
Proof.
  revert ns. induction ps as [| p ps IH]; intros ns Hdim H; simpl; [exact H |].
  inversion Hdim as [| ? ? Hp Hrest]; subst.
  apply IH; [exact Hrest |]. now apply embedded_after_merge.
Qed.

Lemma replayed_embedded (dim : nat) (ps : list properties) (ns : list db_node)
    (p : properties) :
  Forall (fun p => length (embedding p) = dim) ps ->
  In p ps -> embedded_chunk_in (chunk_id p) dim (replay_nodes ps ns).
Proof.
  revert ns. induction ps as [| q ps IH]; intros ns Hdim; simpl; [tauto |].
  inversion Hdim as [| ? ? Hq Hrest]; subst.
  intros [-> | Hin]; [| now apply IH].
  apply embedded_after_replay; [exact Hrest |].
  apply holds_embedded, holds_after_merge.
Qed.

(** *** Document and Chunk nodes apart from the rest *)

Lemma existsb_core (label id : string) (ns : list db_node) :
  label = "Document" \/ label = "Chunk" ->
  existsb (matches label id) (List.filter is_core ns) = existsb (matches label id) ns.
Proof.
  intros Hl. induction ns as [| n ns IH]; simpl; [reflexivity |].
  destruct (is_core n) eqn:Hc; simpl; [now rewrite IH |].
  destruct (matches label id n) eqn:Hm; [| exact IH].
  rewrite (matches_core label id n Hl Hm) in Hc. discriminate.
Qed.

Lemma core_merge_node_in (label id : string) (ns : list db_node) :
  label = "Document" \/ label = "Chunk" ->
  List.filter is_core (merge_node_in label id ns)
  = merge_node_in label id (List.filter is_core ns).
Proof.
  intros Hl. unfold merge_node_in. rewrite existsb_core by exact Hl.
  destruct (existsb (matches label id) ns); [reflexivity |].
  rewrite List.filter_app. simpl.
  now rewrite (matches_core label id _ Hl (matches_new label id)).
Qed.

Lemma core_set_prop_in (label id key : string) (v : propval) (ns : list db_node) :
  List.filter is_core (set_prop_in label id key v ns)
  = set_prop_in label id key v (List.filter is_core ns).
Proof.
  unfold set_prop_in. induction ns as [| n ns IH]; simpl; [reflexivity |].
  assert (Hc : is_core (if matches label id n then set_node_prop key v n else n)
               = is_core n) by now destruct (matches label id n).
  rewrite Hc. destruct (is_core n); simpl; now rewrite IH.
Qed.

Lemma core_merge_chunk (p : properties) (g : graph_db) :
  core_nodes (merge_chunk p g) = merge_chunk_nodes p (core_nodes g).
Proof.
  unfold core_nodes. rewrite db_nodes_merge_chunk. unfold merge_chunk_nodes.
  rewrite !core_set_prop_in, !core_merge_node_in; auto.
Qed.

Lemma forall_core (label id : string) (Q : db_node -> Prop) (ns : list db_node) :
  label = "Document" \/ label = "Chunk" ->
  Forall (fun n => matches label id n = true -> Q n) (List.filter is_core ns) ->
  Forall (fun n => matches label id n = true -> Q n) ns.
Proof.
  intros Hl. induction ns as [| n ns IH]; simpl; [constructor |].
  destruct (is_core n) eqn:Hc; intros H.
  - inversion H; subst. constructor; auto.
  - constructor; [| auto]. intros Hm.
    rewrite (matches_core label id n Hl Hm) in Hc. discriminate.
Qed.

Lemma holds_chunk_core (p : properties) (g : graph_db) :
  holds_chunk_in p (core_nodes g) -> holds_chunk p g.
Proof.
  unfold holds_chunk, holds_chunk_in, present_in, core_nodes.
  rewrite !existsb_core by auto. intros (Hd & Hc & Hall).
  repeat split; auto. now apply (forall_core "Chunk") in Hall; auto.
Qed.

Lemma embedded_chunk_core (id : string) (dim : nat) (g : graph_db) :
  embedded_chunk_in id dim (core_nodes g) -> embedded_chunk id dim g.
Proof.
  unfold embedded_chunk, embedded_chunk_in, present_in, core_nodes.
  rewrite !existsb_core by auto. intros (Hc & Hall).
  split; auto. now apply (forall_core "Chunk") in Hall; auto.
Qed.

Lemma present_core (label id : string) (g : graph_db) :
  label = "Document" \/ label = "Chunk" ->
  present_in label id (core_nodes g) -> present label id g.
Proof.
  intros Hl. unfold present, present_in, core_nodes. now rewrite existsb_core.
Qed.

(** ** The store along a run *)

Lemma merges_app (t1 t2 : list event) : merges (t1 ++ t2) = merges t1 ++ merges t2.
Proof. unfold merges. apply omap_app. Qed.

Lemma merged_inv (ev : event) (p : properties) :
  merged ev = Some p <-> ev = EvQuery (MergeChunk p) (Ok tt).
Proof.
  split; [| now intros ->].
  destruct ev as [| | | | | | [q | ix] [[] | e] | |]; simpl; try discriminate.
  now intros [= ->].
Qed.

Lemma merges_in (p : properties) (t : list event) :
  In p (merges t) <-> In (EvQuery (MergeChunk p) (Ok tt)) t.
Proof.
  unfold merges. induction t as [| ev t IH]; csimpl; [tauto |].
  destruct (merged ev) as [q |] eqn:Hq; simpl; rewrite IH.
  - apply merged_inv in Hq. subst ev. split; intros [H | H]; auto.
    + left. congruence.
    + left. congruence.
  - split; [auto |]. intros [H | H]; [| exact H].
    apply merged_inv in H. congruence.
Qed.

Lemma filter_none_merges (t : list event) :
  Forall (fun ev => merged ev = None) t -> merges t = [].
Proof.
  unfold merges. induction 1 as [| ev t Hev _ IH]; csimpl; [reflexivity |].
  now rewrite Hev.
Qed.

Lemma core_create_vector_index (ix : vector_index) (g : graph_db) :
  core_nodes (create_vector_index ix g) = core_nodes g.
Proof.
  unfold create_vector_index. now destruct (existsb (same_index ix) (db_indexes g)).
Qed.

Section StoreAlongRuns.

Context {E : Type} (svc : services E).

Hypothesis keeps : keeps_core_nodes svc.

(** The Document and Chunk nodes a run leaves are those its successful write
    statements make of the initial ones; a failure undoes nothing. *)
Lemma chunk_run_core (c : document) (w : world E) (o : outcome E unit) :
  chunk_run svc c w o ->
  core_nodes (db (final o)) = replay_nodes (merges (trace o)) (core_nodes (db w)).
Proof.
  intros H.
  destruct H as [e He | f i e1 x Hid He | f i e1 e2 v x Hid He p Hq
                | f i e1 e2 e3 v x Hid He p Hq Hx
                | f i e1 e2 e3 e4 v ex g4 r Hid He p Hq Hx Ha]; simpl;
    try reflexivity.
  - apply core_merge_chunk.
  - pose proof (keeps (deref (link_entities i ex)) (merge_chunk p (db w)) e3) as Hk.
    rewrite Ha in Hk. simpl in Hk. rewrite Hk. apply core_merge_chunk.
Qed.

Lemma loop_run_core (chunks : list document) (w : world E) (o : outcome E unit) :
  loop_run svc chunks w o ->
  core_nodes (db (final o)) = replay_nodes (merges (trace o)) (core_nodes (db w)).
Proof.
  induction 1 as [w | c cs w o e Hc He | c cs w o o' Hc Hok Hl IH]; simpl.
  - reflexivity.
  - now apply (chunk_run_core c).
  - rewrite merges_app, replay_nodes_app, IH.
    now rewrite (chunk_run_core c w o Hc).
Qed.

Lemma main_core (w : world E) :
  core_nodes (db (final (main svc w)))
  = replay_nodes (merges (trace (main svc w))) (core_nodes (db w)).
Proof.
  generalize (main_run svc w). generalize (main svc w). intros o H.
  destruct H as [e He | e0 e1 x Hs Hl | e0 e1 e2 docs x Hs Hl Hsp
                | e0 e1 e2 docs chunks o x Hs Hl Hsp Hloop Hres
                | e0 e1 e2 e3 docs chunks o fault Hs Hl Hsp Hloop Hres Hq].
  - destruct (setup_run svc w) as [[e0 Hs] | (e' & _ & Hdb & Hst)].
    + rewrite Hs in He. discriminate.
    + rewrite Hdb. rewrite filter_none_merges; [reflexivity |].
      eapply Forall_impl; [exact Hst |].
      intros ev Hev. now destruct ev as [| | | | | | [] | |].
  - reflexivity.
  - reflexivity.
  - cbn [final trace]. rewrite !merges_app.
    change (merges setup_trace) with (@nil properties).
    change (merges [EvLoad loader (Ok docs); EvSplit text_splitter docs (Ok chunks)])
      with (@nil properties).
    exact (loop_run_core chunks _ o Hloop).
  - cbn [final trace db]. rewrite !merges_app.
    change (merges setup_trace) with (@nil properties).
    change (merges [EvLoad loader (Ok docs); EvSplit text_splitter docs (Ok chunks)])
      with (@nil properties).
    assert (Hlast : merges [EvQuery (CreateVectorIndex chunkVector)
                              (match fault with Some x => Err x | None => Ok tt end)] = [])
      by now destruct fault.
    rewrite Hlast, app_nil_r. simpl app.
    destruct fault; [| rewrite core_create_vector_index];
      exact (loop_run_core chunks _ o Hloop).
Qed.

End StoreAlongRuns.

Section EmbeddingsAlongRuns.

Context {E : Type} (svc : services E) (dim : nat).

Hypothesis embeds : embeds_in_dimension svc dim.

(** Every vector a run writes came from the embedding model. *)
Lemma chunk_run_dims (c : document) (w : world E) (o : outcome E unit) :
  chunk_run svc c w o ->
  Forall (fun p => length (embedding p) = dim) (merges (trace o)).
Proof.
  intros H.
  destruct H as [e He | f i e1 x Hid He | f i e1 e2 v x Hid He p Hq
                | f i e1 e2 e3 v x Hid He p Hq Hx
                | f i e1 e2 e3 e4 v ex g4 r Hid He p Hq Hx Ha];
    cbn; repeat constructor;
    apply (embeds (page_content c) (env w)); now rewrite He.
Qed.

Lemma loop_run_dims (chunks : list document) (w : world E) (o : outcome E unit) :
  loop_run svc chunks w o ->
  Forall (fun p => length (embedding p) = dim) (merges (trace o)).
Proof.
  induction 1 as [w | c cs w o e Hc He | c cs w o o' Hc Hok Hl IH]; cbn [trace].
  - constructor.
  - now apply (chunk_run_dims c w).
  - rewrite merges_app. apply Forall_app.
    split; [now apply (chunk_run_dims c w) | exact IH].
Qed.

Lemma main_dims (w : world E) :
  Forall (fun p => length (embedding p) = dim) (merges (trace (main svc w))).
Proof.
  generalize (main_run svc w). generalize (main svc w). intros o H.
  destruct H as [e He | e0 e1 x Hs Hl | e0 e1 e2 docs x Hs Hl Hsp
                | e0 e1 e2 docs chunks o x Hs Hl Hsp Hloop Hres
                | e0 e1 e2 e3 docs chunks o fault Hs Hl Hsp Hloop Hres Hq].
  - destruct (setup_run svc w) as [[e0 Hs] | (e' & _ & Hdb & Hst)].
    + rewrite Hs in He. discriminate.
    + rewrite filter_none_merges; [constructor |].
      eapply Forall_impl; [exact Hst |].
      intros ev Hev. now destruct ev as [| | | | | | [] | |].
  - constructor.
  - constructor.
  - cbn [trace]. rewrite !merges_app.
    change (merges setup_trace) with (@nil properties).
    change (merges [EvLoad loader (Ok docs); EvSplit text_splitter docs (Ok chunks)])
      with (@nil properties).
    exact (loop_run_dims chunks _ o Hloop).
  - cbn [trace]. rewrite !merges_app.
    change (merges setup_trace) with (@nil properties).
    change (merges [EvLoad loader (Ok docs); EvSplit text_splitter docs (Ok chunks)])
      with (@nil properties).
    assert (Hlast : merges [EvQuery (CreateVectorIndex chunkVector)
                              (match fault with Some x => Err x | None => Ok tt end)] = [])
      by now destruct fault.
    rewrite Hlast, app_nil_r. exact (loop_run_dims chunks _ o Hloop).
Qed.

End EmbeddingsAlongRuns.

Lemma create_vector_index_idem (ix : vector_index) (g : graph_db) :
  create_vector_index ix (create_vector_index ix g) = create_vector_index ix g.
Proof.
  unfold create_vector_index.
  destruct (existsb (same_index ix) (db_indexes g)) eqn:Hex; [now rewrite Hex |].
  simpl. rewrite existsb_app. simpl.
  unfold same_index at 2. rewrite String.eqb_refl. simpl.
  now rewrite orb_true_r.
Qed.

Lemma create_vector_index_iter (ix : vector_index) (g : graph_db) (n : nat) :
  Nat.iter (S n) (create_vector_index ix) g = create_vector_index ix g.
Proof.
  induction n as [| n IH]; [reflexivity |].
  change (Nat.iter (S (S n)) (create_vector_index ix) g)
    with (create_vector_index ix (Nat.iter (S n) (create_vector_index ix) g)).
  rewrite IH. apply create_vector_index_idem.
Qed.

(** ** The sample services *)

Lemma sample_embeds (docs : list document) (fails_on : string) :
  embeds_in_dimension (sample_services docs fails_on) 1536.
Proof. intros text e v. simpl. now intros [= <-]. Qed.

Lemma sample_keeps_core (docs : list document) (fails_on : string) :
  keeps_core_nodes (sample_services docs fails_on).
Proof.
  intros gds g e. simpl. unfold core_nodes, sample_import. simpl.
  rewrite List.filter_app.
  assert (Hnone : List.filter is_core (map (fun _ => DbNode ["__Entity__"] ∅) gds) = []).
  { induction gds as [| gd gds IH]; simpl; [reflexivity | exact IH]. }
  now rewrite Hnone, app_nil_r.
Qed.

Lemma Forall2_in_left {A B : Type} (R : A -> B -> Prop) (l : list A) (l' : list B) (x : A) :
  Forall2 R l l' -> In x l -> exists y, In y l' /\ R x y.
Proof.
  induction 1 as [| a b l l' Hab _ IH]; simpl; [tauto |].
  intros [-> | Hin].
  - exists b. auto.
  - destruct (IH Hin) as (y & Hy & HR). exists y. auto.
Qed.

(** * The claims *)


(** C8: an exception raised by any step of the script (building the clients,
    loading, splitting, a metadata lookup, embedding, a query, extraction,
    writing a subgraph) is the result of the run, and the step that raised it
    is the last thing the run did: everything before it went through, nothing
    is tried again and nothing follows. *)
Theorem failure_aborts_run {E : Type} (svc : services E) (w : world E)
    (ev : event) (e : exn) :
  In ev (trace (main svc w)) -> raised ev = Some e ->
  res (main svc w) = Err e
  /\ exists t0, trace (main svc w) = t0 ++ [ev] /\ Forall succeeded t0.
Proof.
  intros Hin Hev. pose proof (fail_stop_main svc w) as Hfs.
  apply list_elem_of_In in Hin.
  destruct (res (main svc w)) as [[] | e0]; simpl in Hfs.
  - rewrite Forall_forall in Hfs. specialize (Hfs ev Hin).
    unfold succeeded in Hfs. congruence.
  - destruct Hfs as (t0 & ev0 & Ht & Hok & Hev0).
    rewrite Ht in Hin. apply elem_of_app in Hin as [Hin | Hin].
    + rewrite Forall_forall in Hok. specialize (Hok ev Hin).
      unfold succeeded in Hok. congruence.
    + apply list_elem_of_singleton in Hin. subst ev0.
      split; [congruence |]. exists t0. now rewrite Ht.
Qed.

Lemma failure_aborts_run_witness :
  res (main (sample_services [chunk_2023; chunk_policy; chunk_2024] "policy_id: 9")
            sample_world)
  = Err (ServiceError "rate limit").
Proof.
  apply (failure_aborts_run
           (sample_services [chunk_2023; chunk_policy; chunk_2024] "policy_id: 9")
           sample_world
           (EvExtract [chunk_policy] (Err (ServiceError "rate limit")))
           (ServiceError "rate limit")).
  - vm_compute. do 14 right. left. reflexivity.
  - reflexivity.
Defined.

(** C5, as stated, fails: the first write of a chunk (the Document/Chunk
    statement) comes before the extraction for that chunk, so the stages of an
    iteration are not embed, extract, write. *)
Lemma write_precedes_extract :
  res (main (sample_services [chunk_policy] "") sample_world) = Ok tt
  /\ map stage_of (trace (main (sample_services [chunk_policy] "") sample_world))
     = [SSetup; SSetup; SSetup; SSetup; SLoad; SSplit;
        SPrint; SEmbed; SWrite; SExtract; SWrite; SIndex]
  /\ List.filter loop_stage
       (map stage_of (trace (main (sample_services [chunk_policy] "") sample_world)))
     <> [SPrint; SEmbed; SExtract; SWrite].
Proof. vm_compute. repeat split. discriminate. Qed.

(** C5 (amended): in a run that completes, the transcript is, after set-up,
    load and split, one block per chunk, in the order of the chunks, followed
    by the index statement; each block is: print, embed, write the Document
    and Chunk nodes, extract, write the subgraph.  No event of one chunk stands
    between the events of another. *)
Theorem chunks_processed_one_at_a_time {E : Type} (svc : services E) (w : world E) :
  res (main svc w) = Ok tt ->
  exists (docs chunks : list document) (blocks : list (list event)),
    trace (main svc w)
    = setup_trace
      ++ [EvLoad loader (Ok docs); EvSplit text_splitter docs (Ok chunks)]
      ++ concat blocks
      ++ [EvQuery (CreateVectorIndex chunkVector) (Ok tt)]
    /\ Forall2 chunk_block chunks blocks
    /\ Forall (fun b => map stage_of b = [SPrint; SEmbed; SWrite; SExtract; SWrite])
              blocks.
Proof.
  intros Hok.
  destruct (main_transcript svc w)
    as [(_ & e & He) | [(x & _ & He) | [(docs & x & _ & He)
       | [(docs & chunks & e & pre & post & c & blocks & wc & oc & _ & He & _)
       | (docs & chunks & blocks & r & Ht & Hr & Hbs)]]]]; try congruence.
  exists docs, chunks, blocks. rewrite Ht. replace r with (@Ok unit tt) by congruence.
  repeat split; [exact Hbs |].
  clear Ht. induction Hbs as [| c b cs bs Hb _ IH]; constructor; auto.
  now apply (chunk_block_stages c).
Qed.

Lemma chunks_processed_one_at_a_time_witness :
  exists (docs chunks : list document) (blocks : list (list event)),
    trace (main (sample_services [chunk_2023; chunk_policy] "") sample_world)
    = setup_trace
      ++ [EvLoad loader (Ok docs); EvSplit text_splitter docs (Ok chunks)]
      ++ concat blocks
      ++ [EvQuery (CreateVectorIndex chunkVector) (Ok tt)]
    /\ Forall2 chunk_block chunks blocks
    /\ Forall (fun b => map stage_of b = [SPrint; SEmbed; SWrite; SExtract; SWrite])
              blocks.
Proof.
  apply (chunks_processed_one_at_a_time
           (sample_services [chunk_2023; chunk_policy] "") sample_world).
  vm_compute. reflexivity.
Defined.

(** C6: the index statement is issued at most once in any run and exactly once
    in a run that completes; when it is issued it is the last event, and
    before it stands a finished block for every chunk.  Executing the
    statement again, any number of times, leaves the store as one execution
    does. *)
Theorem vector_index_created_once_after_loop {E : Type} (svc : services E) (w : world E) :
  length (List.filter is_index_event (trace (main svc w))) <= 1
  /\ (res (main svc w) = Ok tt ->
      length (List.filter is_index_event (trace (main svc w))) = 1)
  /\ (forall (t t' : list event) (ev : event),
        trace (main svc w) = t ++ ev :: t' -> is_index_event ev = true ->
        t' = []
        /\ exists docs chunks blocks r,
             ev = EvQuery (CreateVectorIndex chunkVector) r
             /\ t = setup_trace
                    ++ [EvLoad loader (Ok docs); EvSplit text_splitter docs (Ok chunks)]
                    ++ concat blocks
             /\ Forall2 chunk_block chunks blocks)
  /\ (forall (g : graph_db) (n : nat),
        Nat.iter (S n) (exec_cypher (CreateVectorIndex chunkVector)) g
        = exec_cypher (CreateVectorIndex chunkVector) g).
Proof.
  split; [| split; [| split]].
  4:{ intros g n. apply (create_vector_index_iter chunkVector). }
  all: destruct (index_event_position svc w)
    as [(Hno & e & He) | (docs & chunks & blocks & r & Ht & Hr & Hbs & Hpre)].
  - rewrite (filter_none _ _ Hno). simpl. lia.
  - rewrite Ht, List.filter_app, (filter_none _ _ Hpre). simpl. lia.
  - congruence.
  - intros _. now rewrite Ht, List.filter_app, (filter_none _ _ Hpre).
  - intros t t' ev Heq Hev.
    destruct (not_among is_index_event _ t t' ev Heq Hno Hev).
  - intros t t' ev Heq Hev. rewrite Ht in Heq.
    destruct (split_unique is_index_event _ _ _ _ _ _ Heq Hpre (List.Forall_nil _) Hev)
      as (-> & -> & ->).
    split; [reflexivity |]. exists docs, chunks, blocks, r. auto.
Qed.

(** C2: whenever an iteration writes a subgraph, the graph documents written
    are those extraction returned for the chunk, with their nodes unchanged,
    and each of their nodes is the target of a relationship of type
    [HAS_ENTITY] whose source is the node of type [Chunk] with the chunk's id. *)
Theorem every_entity_linked_to_its_chunk {E : Type} (svc : services E)
    (c : document) (w : world E) (gds : list graph_document) (r : result unit) :
  In (EvAddGraphDocuments gds r) (trace (process_chunk svc c w)) ->
  exists filename chunk_id graph_docs,
    chunk_id_of c = Ok (filename, chunk_id)
    /\ In (EvExtract [c] (Ok graph_docs)) (trace (process_chunk svc c w))
    /\ gds = deref (link_entities chunk_id graph_docs)
    /\ map nodes gds = map nodes (deref graph_docs)
    /\ Forall (fun gd =>
                 Forall (fun n =>
                           exists rel,
                             In rel (relationships gd)
                             /\ Relationship.type rel = "HAS_ENTITY"
                             /\ Relationship.target rel = n
                             /\ Node.id (Relationship.source rel) = chunk_id
                             /\ Node.type (Relationship.source rel) = "Chunk")
                        (nodes gd))
              gds.
Proof.
  intros Hin. destruct (written_subgraph svc c w gds r Hin) as (f & i & ex & Hid & Hex & ->).
  exists f, i, ex. repeat split; auto.
  - rewrite deref_link_entities. apply deref_linked_nodes.
  - rewrite deref_link_entities.
    eapply Forall_impl.
    + apply deref_linked_all. intros ref Href. now apply mentions_elem.
    + intros gd Hgd. eapply Forall_impl; [exact Hgd |].
      intros n Hn. exists (has_entity i n). repeat split; auto.
Qed.

Lemma every_entity_linked_to_its_chunk_witness :
  exists filename chunk_id graph_docs,
    chunk_id_of chunk_policy = Ok (filename, chunk_id)
    /\ In (EvExtract [chunk_policy] (Ok graph_docs))
          (trace (process_chunk (sample_services [chunk_policy] "") chunk_policy
                                sample_world))
    /\ deref (link_entities "policy.csv.3"
                            (Extraction
                               [GraphDocument [Node.mk "policy_id: 9" "Claim" ∅] []
                                              chunk_policy] [0]))
       = deref (link_entities chunk_id graph_docs).
Proof.
  destruct (every_entity_linked_to_its_chunk
              (sample_services [chunk_policy] "") chunk_policy sample_world
              (deref (link_entities "policy.csv.3"
                        (Extraction
                           [GraphDocument [Node.mk "policy_id: 9" "Claim" ∅] []
                                          chunk_policy] [0])))
              (Ok tt))
    as (f & i & ex & Hid & Hex & Hgds & _).
  - vm_compute. do 4 right. left. reflexivity.
  - exists f, i, ex. auto.
Defined.

(** C9: the linking loop leaves the returned list and every node list as they
    were, and turns the relationship list of each graph document into the old
    list followed by one [HAS_ENTITY] relationship per node, once for each time
    the returned list mentions the document; with each document mentioned
    once, exactly one per node.  That is what the iteration then writes. *)
Theorem linking_only_appends (chunk_id : string) (ex : extraction) :
  graph_docs (link_entities chunk_id ex) = graph_docs ex
  /\ (forall i : nat,
        objects (link_entities chunk_id ex) !! i
        = linked (mentions i (graph_docs ex)) chunk_id <$> objects ex !! i)
  /\ map nodes (deref (link_entities chunk_id ex)) = map nodes (deref ex)
  /\ Forall2 (fun gd gd' =>
                exists k,
                  nodes gd' = nodes gd
                  /\ source gd' = source gd
                  /\ relationships gd'
                     = relationships gd
                       ++ concat (replicate k (map (has_entity chunk_id) (nodes gd))))
             (deref ex) (deref (link_entities chunk_id ex))
  /\ (List.NoDup (graph_docs ex) ->
      deref (link_entities chunk_id ex)
      = map (fun gd =>
               GraphDocument (nodes gd)
                             (relationships gd ++ map (has_entity chunk_id) (nodes gd))
                             (source gd))
            (deref ex))
  /\ (forall (E : Type) (svc : services E) (c : document) (w : world E)
             (gds : list graph_document) (r : result unit),
        In (EvAddGraphDocuments gds r) (trace (process_chunk svc c w)) ->
        exists filename id graph_docs,
          chunk_id_of c = Ok (filename, id)
          /\ In (EvExtract [c] (Ok graph_docs)) (trace (process_chunk svc c w))
          /\ gds = deref (link_entities id graph_docs)).
Proof.
  split; [reflexivity |].
  split; [intros i; apply link_objects_lookup |].
  split; [rewrite deref_link_entities; apply deref_linked_nodes |].
  split.
  { rewrite deref_link_entities.
    eapply Forall2_impl; [apply deref_linked_pairs |].
    intros gd gd' [k ->]. now exists k. }
  split.
  { intros Hnd. rewrite deref_link_entities.
    rewrite deref_linked_once by (intros; now apply mentions_nodup).
    apply map_ext. intros gd. apply link_nodes_spec. }
  intros E svc c w gds r. apply written_subgraph.
Qed.

Lemma linking_only_appends_witness :
  deref (link_entities "policy.csv.3"
           (Extraction [GraphDocument [Node.mk "9" "Policy" ∅] [] chunk_policy] [0]))
  = [GraphDocument [Node.mk "9" "Policy" ∅]
                   [has_entity "policy.csv.3" (Node.mk "9" "Policy" ∅)]
                   chunk_policy].
Proof.
  destruct (linking_only_appends "policy.csv.3"
              (Extraction [GraphDocument [Node.mk "9" "Policy" ∅] [] chunk_policy] [0]))
    as (_ & _ & _ & _ & Honce & _).
  rewrite Honce; [reflexivity |].
  repeat constructor. simpl. tauto.
Defined.

(** C3: the write statement of lines 104-113 merges by id.  Run again with the
    same parameters it leaves the store as it was; run again for the same file
    name and chunk id with any text and embedding it creates no node; after it
    there is exactly one Document of that id and one Chunk of that id unless
    the store already held several; a second pass of write statements over ids
    a first pass has written creates no node; and so a second run of the
    script that writes only file names and chunk ids the first run wrote
    leaves the same Document and Chunk nodes, by label and id. *)
Theorem document_and_chunk_merged_by_id (p : properties) (text' : string)
    (embedding' : list float) (g : graph_db) :
  merge_chunk p (merge_chunk p g) = merge_chunk p g
  /\ map node_key
        (db_nodes (merge_chunk (Properties (filename p) (chunk_id p) text' embedding')
                               (merge_chunk p g)))
     = map node_key (db_nodes (merge_chunk p g))
  /\ count_nodes "Document" (filename p) (merge_chunk p g)
     = Nat.max 1 (count_nodes "Document" (filename p) g)
  /\ count_nodes "Chunk" (chunk_id p) (merge_chunk p g)
     = Nat.max 1 (count_nodes "Chunk" (chunk_id p) g)
  /\ (forall (ps1 ps2 : list properties) (ns : list db_node),
        (forall p2, In p2 ps2 ->
           exists p1, In p1 ps1 /\ filename p1 = filename p2 /\ chunk_id p1 = chunk_id p2) ->
        map node_key (replay_nodes ps2 (replay_nodes ps1 ns))
        = map node_key (replay_nodes ps1 ns))
  /\ (forall (E : Type) (svc : services E) (w1 w2 : world E),
        keeps_core_nodes svc ->
        db w2 = db (final (main svc w1)) ->
        (forall p2, In p2 (merges (trace (main svc w2))) ->
           exists p1, In p1 (merges (trace (main svc w1)))
                      /\ filename p1 = filename p2 /\ chunk_id p1 = chunk_id p2) ->
        map node_key (core_nodes (db (final (main svc w2))))
        = map node_key (core_nodes (db (final (main svc w1))))).
Proof.
  split; [apply merge_chunk_idem |].
  split.
  { rewrite !db_nodes_merge_chunk.
    apply (merge_chunk_nodes_keys_again p); simpl;
      [apply document_after_merge | apply chunk_after_merge]. }
  split; [apply count_documents_after_merge |].
  split; [apply count_chunks_after_merge |].
  split; [apply replay_again_keys |].
  intros E svc w1 w2 Hkeep Hdb Hids.
  rewrite (main_core svc Hkeep w2), Hdb, (main_core svc Hkeep w1).
  now apply replay_again_keys.
Qed.

Lemma document_and_chunk_merged_by_id_witness :
  map node_key
    (core_nodes
       (db (final (main (sample_services [chunk_2023; chunk_policy] "")
                        (World (db (final (main (sample_services [chunk_2023; chunk_policy] "")
                                                sample_world))) tt)))))
  = [(["Document"], Some (VStr "claims.csv")); (["Chunk"], Some (VStr "claims.csv.0"));
     (["Document"], Some (VStr "policy.csv")); (["Chunk"], Some (VStr "policy.csv.3"))].
Proof.
  destruct (document_and_chunk_merged_by_id
              (Properties "claims.csv" "claims.csv.0" "claim_id: 17" sample_embedding)
              "claim_id: 17" sample_embedding empty_db)
    as (_ & _ & _ & _ & _ & Hrun).
  rewrite (Hrun unit (sample_services [chunk_2023; chunk_policy] "") sample_world
                (World (db (final (main (sample_services [chunk_2023; chunk_policy] "")
                                        sample_world))) tt)
                (sample_keeps_core _ _) eq_refl).
  - vm_compute. reflexivity.
  - intros p2 Hin. exists p2. split; [| split; reflexivity].
    revert Hin. vm_compute. tauto.
Defined.

(** * Further properties of the script *)

(** ** Paths and identifiers *)

Lemma no_sep_rfind (sep : ascii) (p : string) (i : nat) :
  contains sep p = false -> rfind_from i sep p = None.
Proof.
  revert i. induction p as [| c p IH]; intros i; simpl; [reflexivity |].
  intros H. apply orb_false_iff in H as [Hc Hp].
  now rewrite (IH (S i) Hp), Hc.
Qed.

(** What [rfind] finds is the last separator. *)
Lemma rfind_from_last (sep : ascii) (p : string) (i : nat) :
  match rfind_from i sep p with
  | Some j => i <= j /\ contains sep (slice_from (S (j - i)) p) = false
  | None => contains sep p = false
  end.
Proof.
  revert i. induction p as [| c p IH]; intros i; simpl; [reflexivity |].
  specialize (IH (S i)).
  destruct (rfind_from (S i) sep p) as [j |].
  - destruct IH as [Hle Hno]. split; [lia |].
    replace (j - i) with (S (j - S i)) by lia. exact Hno.
  - destruct (Ascii.eqb c sep) eqn:Hc; simpl.
    + split; [lia |]. now rewrite Nat.sub_diag.
    + exact IH.
Qed.

Lemma rfind_from_app (sep : ascii) (d n : string) (i : nat) :
  contains sep n = false ->
  rfind_from i sep (d +:+ String sep n) = Some (i + String.length d).
Proof.
  intros Hn. revert i. induction d as [| a d IH]; intros i.
  - rewrite append_nil. simpl.
    rewrite (no_sep_rfind sep n (S i) Hn), Ascii.eqb_refl. f_equal. lia.
  - rewrite append_cons. simpl. rewrite (IH (S i)). f_equal. lia.
Qed.

Lemma slice_from_app (d n : string) (a : ascii) :
  slice_from (S (String.length d)) (d +:+ String a n) = n.
Proof.
  induction d as [| b d IH]; [reflexivity |].
  rewrite append_cons. simpl. exact IH.
Qed.

Lemma uint_digits_no_slash (d : Decimal.uint) :
  contains "/" (NilEmpty.string_of_uint d) = false.
Proof. induction d; simpl; auto. Qed.

Lemma str_of_int_no_slash (z : Z) : contains "/" (str_of_int z) = false.
Proof.
  unfold str_of_int, NilZero.string_of_int, NilZero.string_of_uint.
  destruct (Z.to_int z) as [d | d]; destruct d; simpl; auto using uint_digits_no_slash.
Qed.

Lemma basename_no_separator (p : string) : contains "/" (basename p) = false.
Proof.
  unfold basename, rfind. pose proof (rfind_from_last "/" p 0) as H.
  destruct (rfind_from 0 "/" p) as [j |].
  - destruct H as [_ H]. rewrite Nat.sub_0_r in H.
    replace (Z.to_nat (Z.of_nat j + 1)) with (S j) by lia. exact H.
  - exact H.
Qed.

Lemma basename_plain_name (p : string) : contains "/" p = false -> basename p = p.
Proof.
  intros H. unfold basename, rfind. now rewrite (no_sep_rfind "/" p 0 H).
Qed.

(** X1: the file name taken from a source path never contains a [/]; taking
    the basename again changes nothing; a path without [/] is its own
    basename; and with an integer page the chunk id contains no [/] either. *)
Theorem filename_has_no_separator (p : string) :
  contains "/" (basename p) = false
  /\ basename (basename p) = basename p
  /\ (contains "/" p = false -> basename p = p)
  /\ (forall (chunk : document) (f i : string) (z : Z),
        chunk_id_of chunk = Ok (f, i) ->
        metadata chunk !! "page" = Some (PyInt z) ->
        contains "/" f = false /\ contains "/" i = false).
Proof.
  split; [apply basename_no_separator |].
  split; [apply basename_plain_name, basename_no_separator |].
  split; [apply basename_plain_name |].
  intros chunk f i z Hid Hp.
  apply chunk_id_of_inv in Hid as (src & page & _ & Hp' & -> & ->).
  rewrite Hp in Hp'. injection Hp' as <-.
  split; [apply basename_no_separator |].
  rewrite !contains_app, basename_no_separator. simpl.
  apply str_of_int_no_slash.
Qed.

(** X2: [basename] keeps exactly what follows the last [/]: for a name
    without [/], the basename of [dir/name] is [name], whatever [dir] is. *)
Theorem basename_drops_directories (dir name : string) :
  contains "/" name = false ->
  basename (dir +:+ "/" +:+ name) = name.
Proof.
  intros Hn. unfold basename, rfind.
  change (dir +:+ "/" +:+ name) with (dir +:+ String "/" name).
  rewrite (rfind_from_app "/" dir name 0 Hn). simpl Nat.add.
  replace (Z.to_nat (Z.of_nat (String.length dir) + 1)) with (S (String.length dir))
    by lia.
  apply slice_from_app.
Qed.

Lemma basename_drops_directories_witness :
  basename ("llm-knowledge-graph/data/course/csvs/2023" +:+ "/" +:+ "claims.csv")
  = "claims.csv".
Proof. apply basename_drops_directories. reflexivity. Defined.

(** ** Metadata that does not yield an id *)

Lemma chunk_id_of_error (chunk : document) (e : exn) :
  chunk_id_of chunk = Err e ->
  (e = KeyError "source" /\ metadata chunk !! "source" = None)
  \/ (exists z what, e = TypeError what /\ metadata chunk !! "source" = Some (PyInt z))
  \/ (e = KeyError "page"
      /\ (exists src, metadata chunk !! "source" = Some (PyStr src))
      /\ metadata chunk !! "page" = None).
Proof.
  unfold chunk_id_of, chunk_filename, metadata_get, path_basename.
  destruct (metadata chunk !! "source") as [[src | z] |].
  - destruct (metadata chunk !! "page") as [page |]; [discriminate |].
    intros [= <-]. right. right. eauto.
  - intros [= <-]. right. left. eauto.
  - intros [= <-]. now left.
Qed.

(** X3: a chunk whose metadata gives no id stops the iteration at once: the
    exception is the result, no service is called, nothing is printed and the
    store and the outside are as before.  The exception is [KeyError 'source']
    when the source is missing, a [TypeError] when it is an integer, and
    [KeyError 'page'] when the source is a string and the page is missing. *)
Theorem chunk_without_id_is_not_processed {E : Type} (svc : services E)
    (chunk : document) (w : world E) (e : exn) :
  chunk_id_of chunk = Err e ->
  process_chunk svc chunk w = Out w [EvRaise e] (Err e)
  /\ ((e = KeyError "source" /\ metadata chunk !! "source" = None)
      \/ (exists z what, e = TypeError what
                         /\ metadata chunk !! "source" = Some (PyInt z))
      \/ (e = KeyError "page"
          /\ (exists src, metadata chunk !! "source" = Some (PyStr src))
          /\ metadata chunk !! "page" = None)).
Proof.
  intros Hid. split; [| now apply chunk_id_of_error].
  unfold process_chunk. rewrite mbind_run. now rewrite Hid.
Qed.

Lemma chunk_without_id_is_not_processed_witness :
  process_chunk (sample_services [chunk_row] "") chunk_row sample_world
  = Out sample_world [EvRaise (KeyError "page")] (Err (KeyError "page")).
Proof.
  apply (chunk_without_id_is_not_processed
           (sample_services [chunk_row] "") chunk_row sample_world (KeyError "page")).
  vm_compute. reflexivity.
Defined.

(** ** Completed runs *)

Section CompletedRuns.

Context {E : Type} (svc : services E).

Lemma completed_transcript (w : world E) :
  res (main svc w) = Ok tt ->
  exists (docs chunks : list document) (blocks : list (list event)),
    trace (main svc w)
    = setup_trace
      ++ [EvLoad loader (Ok docs); EvSplit text_splitter docs (Ok chunks)]
      ++ concat blocks
      ++ [EvQuery (CreateVectorIndex chunkVector) (Ok tt)]
    /\ Forall2 chunk_block chunks blocks.
Proof.
  intros Hok.
  destruct (main_transcript svc w)
    as [(_ & e & He) | [(x & _ & He) | [(docs & x & _ & He)
       | [(docs & chunks & e & pre & post & c & blocks & wc & oc & _ & He & _)
       | (docs & chunks & blocks & r & Ht & Hr & Hbs)]]]]; try congruence.
  exists docs, chunks, blocks. split; [| exact Hbs].
  rewrite Ht. now replace r with (@Ok unit tt) by congruence.
Qed.

(** The one split event of a completed run. *)
Lemma completed_split (w : world E) (cfg : splitter_config)
    (docs chunks : list document) :
  res (main svc w) = Ok tt ->
  In (EvSplit cfg docs (Ok chunks)) (trace (main svc w)) ->
  exists blocks,
    trace (main svc w)
    = setup_trace
      ++ [EvLoad loader (Ok docs); EvSplit text_splitter docs (Ok chunks)]
      ++ concat blocks
      ++ [EvQuery (CreateVectorIndex chunkVector) (Ok tt)]
    /\ Forall2 chunk_block chunks blocks.
Proof.
  intros Hok Hin.
  destruct (completed_transcript w Hok) as (docs0 & chunks0 & blocks & Ht & Hbs).
  exists blocks. rewrite Ht in Hin.
  apply in_app_or in Hin as [Hin | Hin];
    [exfalso; simpl in Hin;
     repeat (destruct Hin as [Hin | Hin]; try discriminate); contradiction |].
  simpl in Hin. destruct Hin as [Hin | [Hin | Hin]]; [discriminate | |].
  - injection Hin as _ <- <-. auto.
  - exfalso. apply in_app_or in Hin as [Hin | Hin].
    + pose proof (blocks_loop_stages chunks0 blocks Hbs) as Hl.
      rewrite List.Forall_forall in Hl. specialize (Hl _ Hin). discriminate.
    + destruct Hin as [Hin | []]. discriminate.
Qed.

Lemma count_in_blocks (P : event -> bool) (chunks : list document)
    (blocks : list (list event)) :
  (forall c b, chunk_block c b -> length (List.filter P b) = 1) ->
  Forall2 chunk_block chunks blocks ->
  length (List.filter P (concat blocks)) = length chunks.
Proof.
  intros HP. induction 1 as [| c b cs bs Hb _ IH]; simpl; [reflexivity |].
  now rewrite List.filter_app, length_app, (HP c b Hb), IH.
Qed.

End CompletedRuns.

(** X4: a run completes only if every chunk the splitter returned has a
    string source and a page in its metadata. *)
Theorem completed_run_had_ids {E : Type} (svc : services E) (w : world E)
    (cfg : splitter_config) (docs chunks : list document) :
  res (main svc w) = Ok tt ->
  In (EvSplit cfg docs (Ok chunks)) (trace (main svc w)) ->
  Forall (fun c => exists (src : string) (page : pyval),
                     metadata c !! "source" = Some (PyStr src)
                     /\ metadata c !! "page" = Some page)
         chunks.
Proof.
  intros Hok Hin.
  destruct (completed_split svc w cfg docs chunks Hok Hin) as (blocks & _ & Hbs).
  clear Hin. induction Hbs as [| c b cs bs Hb _ IH]; constructor; [| exact IH].
  destruct Hb as (f & i & v & ex & Hid & _).
  apply chunk_id_of_inv in Hid as (src & page & Hs & Hp & _). eauto.
Qed.

Lemma completed_run_had_ids_witness :
  Forall (fun c => exists (src : string) (page : pyval),
                     metadata c !! "source" = Some (PyStr src)
                     /\ metadata c !! "page" = Some page)
         [chunk_2023; chunk_policy].
Proof.
  apply (completed_run_had_ids
           (sample_services [chunk_2023; chunk_policy] "") sample_world
           text_splitter [chunk_2023; chunk_policy] [chunk_2023; chunk_policy]).
  - vm_compute. reflexivity.
  - apply (nth_error_In _ 5). vm_compute. reflexivity.
Defined.

(** X5: a completed run calls the embedding model once per chunk, the
    extraction model once per chunk, sends one write statement per chunk and
    writes one subgraph per chunk, however many graph documents and nodes
    extraction returns. *)
Theorem one_call_of_each_kind_per_chunk {E : Type} (svc : services E) (w : world E)
    (cfg : splitter_config) (docs chunks : list document) :
  res (main svc w) = Ok tt ->
  In (EvSplit cfg docs (Ok chunks)) (trace (main svc w)) ->
  length (List.filter is_embed_event (trace (main svc w))) = length chunks
  /\ length (List.filter is_extract_event (trace (main svc w))) = length chunks
  /\ length (List.filter is_merge_event (trace (main svc w))) = length chunks
  /\ length (List.filter is_subgraph_event (trace (main svc w))) = length chunks.
Proof.
  intros Hok Hin.
  destruct (completed_split svc w cfg docs chunks Hok Hin) as (blocks & Ht & Hbs).
  rewrite Ht. rewrite !List.filter_app, !length_app.
  rewrite !(count_in_blocks _ chunks blocks) by
    (exact Hbs || (intros c b (f & i & v & ex & _ & ->); reflexivity)).
  repeat split; simpl; lia.
Qed.

Lemma one_call_of_each_kind_per_chunk_witness :
  length (List.filter is_embed_event
            (trace (main (sample_services [chunk_2023; chunk_policy] "") sample_world)))
  = 2.
Proof.
  apply (one_call_of_each_kind_per_chunk
           (sample_services [chunk_2023; chunk_policy] "") sample_world
           text_splitter [chunk_2023; chunk_policy] [chunk_2023; chunk_policy]).
  - vm_compute. reflexivity.
  - apply (nth_error_In _ 5). vm_compute. reflexivity.
Defined.

(** ** The write statement on the store *)

Lemma db_rel_eqb_eq (r r' : db_rel) : db_rel_eqb r r' = true -> r = r'.
Proof.
  unfold db_rel_eqb. destruct r as [a t b], r' as [a' t' b']. simpl. intros H.
  apply andb_true_iff in H as [H Hb]. apply andb_true_iff in H as [Ha Ht].
  apply Nat.eqb_eq in Ha, Hb. apply String.eqb_eq in Ht. now subst.
Qed.

Lemma matching_from_nonempty (i : nat) (label id : string) (ns : list db_node) :
  existsb (matches label id) ns = true -> matching_from i label id ns <> [].
Proof.
  revert i. induction ns as [| n ns IH]; intros i; simpl; [discriminate |].
  destruct (matches label id n); simpl; [discriminate | apply IH].
Qed.

Lemma matching_from_lookup (i j : nat) (label id : string) (ns : list db_node) :
  In j (matching_from i label id ns) ->
  i <= j /\ exists n, ns !! (j - i) = Some n /\ matches label id n = true.
Proof.
  revert i. induction ns as [| n ns IH]; intros i; simpl; [tauto |].
  intros Hin. apply in_app_or in Hin as [Hin | Hin].
  - destruct (matches label id n) eqn:Hm; [| destruct Hin].
    destruct Hin as [<- | []]. split; [lia |].
    exists n. now rewrite Nat.sub_diag.
  - destruct (IH (S i) Hin) as (Hle & n' & Hl & Hm). split; [lia |].
    exists n'. replace (j - i) with (S (j - S i)) by lia. auto.
Qed.

(** X6: after the write statement there is a Document of the file name and a
    Chunk of the chunk id, and every such Chunk node has a [PART_OF]
    relationship to every such Document node; both ends are nodes of the
    store. *)
Theorem every_chunk_is_part_of_its_document (p : properties) (g : graph_db) :
  matching "Document" (filename p) (merge_chunk p g) <> []
  /\ matching "Chunk" (chunk_id p) (merge_chunk p g) <> []
  /\ (forall d c : nat,
        In d (matching "Document" (filename p) (merge_chunk p g)) ->
        In c (matching "Chunk" (chunk_id p) (merge_chunk p g)) ->
        In (DbRel c "PART_OF" d) (db_rels (merge_chunk p g))
        /\ (exists n, db_nodes (merge_chunk p g) !! d = Some n
                      /\ matches "Document" (filename p) n = true)
        /\ (exists n, db_nodes (merge_chunk p g) !! c = Some n
                      /\ matches "Chunk" (chunk_id p) n = true)).
Proof.
  unfold matching. rewrite db_nodes_merge_chunk.
  split; [apply matching_from_nonempty, document_after_merge |].
  split; [apply matching_from_nonempty, chunk_after_merge |].
  intros d c Hd Hc. split.
  - rewrite db_rels_merge_chunk.
    pose proof (merge_rels_all (db_rels g)
                  (list_prod
                     (matching_from 0 "Document" (filename p)
                        (merge_chunk_nodes p (db_nodes g)))
                     (matching_from 0 "Chunk" (chunk_id p)
                        (merge_chunk_nodes p (db_nodes g))))) as Hall.
    rewrite List.Forall_forall in Hall.
    specialize (Hall (d, c) (in_prod _ _ d c Hd Hc)). simpl in Hall.
    apply List.existsb_exists in Hall as (r & Hr & Heq).
    apply db_rel_eqb_eq in Heq. now subst r.
  - split.
    + destruct (matching_from_lookup 0 d _ _ _ Hd) as (_ & n & Hl & Hm).
      rewrite Nat.sub_0_r in Hl. eauto.
    + destruct (matching_from_lookup 0 c _ _ _ Hc) as (_ & n & Hl & Hm).
      rewrite Nat.sub_0_r in Hl. eauto.
Qed.

Lemma merge_rels_appends (rs : list db_rel) (pairs : list (nat * nat)) :
  exists added,
    foldl (fun rs dc => merge_rel (DbRel (snd dc) "PART_OF" (fst dc)) rs) rs pairs
    = rs ++ added
    /\ Forall (fun r => rel_type r = "PART_OF") added.
Proof.
  revert rs. induction pairs as [| dc pairs IH]; intros rs; simpl.
  - exists []. now rewrite app_nil_r.
  - destruct (IH (merge_rel (DbRel (snd dc) "PART_OF" (fst dc)) rs))
      as (added & Heq & Hall).
    unfold merge_rel in Heq |- *.
    destruct (existsb (db_rel_eqb (DbRel (snd dc) "PART_OF" (fst dc))) rs).
    + now exists added.
    + exists (DbRel (snd dc) "PART_OF" (fst dc) :: added).
      rewrite Heq, <- app_assoc. split; [reflexivity | now constructor].
Qed.

Lemma merge_node_in_appends (label id : string) (ns : list db_node) :
  exists extra, merge_node_in label id ns = ns ++ extra /\ length extra <= 1.
Proof.
  unfold merge_node_in. destruct (existsb (matches label id) ns).
  - exists []. rewrite app_nil_r. simpl. split; [reflexivity | lia].
  - eexists. split; [reflexivity | simpl; lia].
Qed.

(** X7: the write statement deletes nothing and touches nothing else: the
    indexes are as before, the relationships are the old ones followed by
    [PART_OF] relationships, at most two nodes are added, and every node that
    was there keeps its place, its labels and all its properties other than
    [text] and [textEmbedding]; a node that is not a Chunk of that id is
    unchanged. *)
Theorem write_statement_keeps_the_rest (p : properties) (g : graph_db) :
  db_indexes (merge_chunk p g) = db_indexes g
  /\ (exists added,
        db_rels (merge_chunk p g) = db_rels g ++ added
        /\ Forall (fun r => rel_type r = "PART_OF") added)
  /\ length (db_nodes g) <= length (db_nodes (merge_chunk p g))
     <= length (db_nodes g) + 2
  /\ (forall (i : nat) (n : db_node),
        db_nodes g !! i = Some n ->
        exists n',
          db_nodes (merge_chunk p g) !! i = Some n'
          /\ labels n' = labels n
          /\ (forall key, key <> "text" -> key <> "textEmbedding" ->
                props n' !! key = props n !! key)
          /\ (matches "Chunk" (chunk_id p) n = false -> n' = n)).
Proof.
  split; [reflexivity |].
  split; [rewrite db_rels_merge_chunk; apply merge_rels_appends |].
  rewrite db_nodes_merge_chunk, merge_chunk_nodes_map.
  destruct (merge_node_in_appends "Document" (filename p) (db_nodes g))
    as (x1 & H1 & Hx1).
  destruct (merge_node_in_appends "Chunk" (chunk_id p)
              (merge_node_in "Document" (filename p) (db_nodes g)))
    as (x2 & H2 & Hx2).
  rewrite H2, H1, <- app_assoc.
  split; [rewrite length_map, !length_app; lia |].
  intros i n Hl.
  rewrite list_lookup_fmap, (lookup_app_l_Some _ _ _ _ Hl). simpl.
  eexists. split; [reflexivity |].
  destruct (matches "Chunk" (chunk_id p) n); [| auto].
  split; [reflexivity |]. split; [| discriminate].
  intros key Ht He. unfold set_node_prop. simpl.
  now rewrite !lookup_insert_ne by congruence.
Qed.

(** ** Several chunks of one id *)

Lemma chunk_nodes_other_after_merge (id : string) (Q : db_node -> Prop)
    (p : properties) (ns : list db_node) :
  id <> chunk_id p ->
  Forall (fun n => matches "Chunk" id n = true -> Q n) ns ->
  Forall (fun n => matches "Chunk" id n = true -> Q n) (merge_chunk_nodes p ns).
Proof.
  intros Hne Hall.
  rewrite merge_chunk_nodes_map. apply List.Forall_forall. intros n' Hin.
  apply in_map_iff in Hin as (n & <- & Hin).
  destruct (matches "Chunk" (chunk_id p) n) eqn:Hm.
  - rewrite !matches_set by discriminate. intros Hm'.
    destruct Hne. exact (matches_same_id _ _ _ _ n Hm' Hm).
  - intros Hm'. unfold merge_node_in in Hin.
    rewrite List.Forall_forall in Hall.
    destruct (existsb (matches "Document" (filename p)) ns);
      destruct (existsb (matches "Chunk" (chunk_id p)) _);
      repeat (apply in_app_or in Hin as [Hin | Hin]); auto;
      destruct Hin as [<- | []];
      apply matches_new_inv in Hm' as [Hl Hi]; congruence.
Qed.

Lemma holds_other_after_merge (p q : properties) (ns : list db_node) :
  chunk_id q <> chunk_id p ->
  holds_chunk_in p ns -> holds_chunk_in p (merge_chunk_nodes q ns).
Proof.
  intros Hne (Hd & Hc & Hall).
  split; [now apply present_after_merge |].
  split; [now apply present_after_merge |].
  apply chunk_nodes_other_after_merge; [congruence | exact Hall].
Qed.

Lemma holds_after_replay_others (p : properties) (ps : list properties)
    (ns : list db_node) :
  (forall q, In q ps -> chunk_id q <> chunk_id p) ->
  holds_chunk_in p ns -> holds_chunk_in p (replay_nodes ps ns).
Proof.
  revert ns. induction ps as [| q ps IH]; intros ns Hne H; simpl; [exact H |].
  apply IH; [intros q' Hq'; apply Hne; now right |].
  apply holds_other_after_merge; [apply Hne; now left | exact H].
Qed.

(** X8: when several chunks of a run have the same id, the Chunk node ends
    with the text and the embedding of the last one written: a write statement
    that went through and is followed by no other for its chunk id decides what
    the store holds for that id, whatever was written for it before. *)
Theorem last_write_of_a_chunk_id_wins {E : Type} (svc : services E) (w : world E)
    (t1 t2 : list event) (p : properties) :
  keeps_core_nodes svc ->
  trace (main svc w) = t1 ++ EvQuery (MergeChunk p) (Ok tt) :: t2 ->
  (forall q, In q (merges t2) -> chunk_id q <> chunk_id p) ->
  holds_chunk p (db (final (main svc w))).
Proof.
  intros Hkeep Ht Hlast. apply holds_chunk_core.
  rewrite (main_core svc Hkeep w), Ht.
  change (t1 ++ EvQuery (MergeChunk p) (Ok tt) :: t2)
    with (t1 ++ [EvQuery (MergeChunk p) (Ok tt)] ++ t2).
  rewrite !merges_app, !replay_nodes_app.
  apply holds_after_replay_others; [exact Hlast |].
  apply holds_after_merge.
Qed.

Lemma last_write_of_a_chunk_id_wins_witness :
  holds_chunk (Properties "claims.csv" "claims.csv.0" "claim_id: 52" sample_embedding)
    (db (final (main (sample_services [chunk_2023; chunk_2024; chunk_policy] "")
                     sample_world))).
Proof.
  apply (last_write_of_a_chunk_id_wins
           (sample_services [chunk_2023; chunk_2024; chunk_policy] "") sample_world
           (firstn 13 (trace (main (sample_services [chunk_2023; chunk_2024; chunk_policy] "")
                                   sample_world)))
           (skipn 14 (trace (main (sample_services [chunk_2023; chunk_2024; chunk_policy] "")
                                  sample_world)))).
  - apply sample_keeps_core.
  - vm_compute. reflexivity.
  - assert (Hlater :
      merges (skipn 14 (trace (main (sample_services
                                       [chunk_2023; chunk_2024; chunk_policy] "")
                                    sample_world)))
      = [Properties "policy.csv" "policy.csv.3" "policy_id: 9" sample_embedding])
      by (vm_compute; reflexivity).
    intros q Hin. rewrite Hlater in Hin. destruct Hin as [<- | []]. discriminate.
Defined.

(** ** Runs on the store *)

Section RunsOnTheStore.

Context {E : Type} (svc : services E).

Lemma loop_run_nil (w : world E) (o : outcome E unit) :
  loop_run svc [] w o -> o = Out w [] (Ok tt).
Proof. intros H. now inversion H. Qed.

Lemma not_in_setup_trace (ev : event) :
  stage_of ev <> SSetup -> ~ In ev setup_trace.
Proof.
  intros Hs Hin. simpl in Hin.
  repeat (destruct Hin as [Hin | Hin]; [subst ev; now apply Hs |]). exact Hin.
Qed.

Lemma not_in_loop_trace (chunks : list document) (w : world E) (o : outcome E unit)
    (ev : event) :
  loop_run svc chunks w o -> loop_stage (stage_of ev) = false -> ~ In ev (trace o).
Proof.
  intros Hl Hs Hin. pose proof (loop_run_stages svc chunks w o Hl) as Hall.
  rewrite List.Forall_forall in Hall. specialize (Hall ev Hin). congruence.
Qed.

(** Calls inside the loop are on chunks of the list. *)
Lemma chunk_run_calls (c : document) (w : world E) (o : outcome E unit) :
  chunk_run svc c w o ->
  (forall text r, In (EvEmbed text r) (trace o) -> text = page_content c)
  /\ (forall ds r, In (EvExtract ds r) (trace o) -> ds = [c]).
Proof.
  intros H.
  destruct H as [e He | f i e1 x Hid He | f i e1 e2 v x Hid He p Hq
                | f i e1 e2 e3 v x Hid He p Hq Hx
                | f i e1 e2 e3 e4 v ex g4 r' Hid He p Hq Hx Ha]; simpl;
    split; intros a r Hin;
    repeat (destruct Hin as [Hin | Hin]; try discriminate); try contradiction;
    now injection Hin as <- _.
Qed.

Lemma loop_run_calls (chunks : list document) (w : world E) (o : outcome E unit) :
  loop_run svc chunks w o ->
  (forall text r, In (EvEmbed text r) (trace o) ->
     exists c, In c chunks /\ text = page_content c)
  /\ (forall ds r, In (EvExtract ds r) (trace o) ->
        exists c, In c chunks /\ ds = [c]).
Proof.
  induction 1 as [w | c cs w o e Hc He | c cs w o o' Hc Hok Hl IH]; cbn [trace].
  - split; intros a r [].
  - destruct (chunk_run_calls c w o Hc) as [H1 H2].
    split; intros a r Hin; exists c; split; try (now left); eauto.
  - destruct (chunk_run_calls c w o Hc) as [H1 H2]. destruct IH as [I1 I2].
    split; intros a r Hin; apply in_app_or in Hin as [Hin | Hin].
    + exists c. split; [now left | eauto].
    + destruct (I1 a r Hin) as (c' & Hc' & ->). exists c'. split; [now right | auto].
    + exists c. split; [now left | eauto].
    + destruct (I2 a r Hin) as (c' & Hc' & ->). exists c'. split; [now right | auto].
Qed.

End RunsOnTheStore.

(** X9: the models only ever see what the splitter returned: in any run,
    every call of the embedding model is on the text of a chunk of the
    splitter's result, and every call of the extraction model is on a list of
    exactly one such chunk. *)
Theorem models_see_only_split_chunks {E : Type} (svc : services E) (w : world E) :
  (forall text r,
     In (EvEmbed text r) (trace (main svc w)) ->
     exists docs chunks c,
       In (EvSplit text_splitter docs (Ok chunks)) (trace (main svc w))
       /\ In c chunks /\ text = page_content c)
  /\ (forall ds r,
        In (EvExtract ds r) (trace (main svc w)) ->
        exists docs chunks c,
          In (EvSplit text_splitter docs (Ok chunks)) (trace (main svc w))
          /\ In c chunks /\ ds = [c]).
Proof.
  generalize (main_run svc w). generalize (main svc w). intros o H.
  destruct H as [e He | e0 e1 x Hs Hl | e0 e1 e2 docs x Hs Hl Hsp
                | e0 e1 e2 docs chunks o x Hs Hl Hsp Hloop Hres
                | e0 e1 e2 e3 docs chunks o fault Hs Hl Hsp Hloop Hres Hq];
    cbn [trace].
  - destruct (setup_run svc w) as [[e0 Hs] | (e' & _ & _ & Hst)];
      [rewrite Hs in He; discriminate |].
    rewrite List.Forall_forall in Hst.
    split; intros a r Hin; specialize (Hst _ Hin); discriminate.
  - split; intros a r Hin; exfalso;
      (apply in_app_or in Hin as [Hin | Hin];
       [now apply not_in_setup_trace in Hin
       | simpl in Hin; repeat (destruct Hin as [Hin | Hin]; try discriminate);
         contradiction]).
  - split; intros a r Hin; exfalso;
      (apply in_app_or in Hin as [Hin | Hin];
       [now apply not_in_setup_trace in Hin
       | simpl in Hin; repeat (destruct Hin as [Hin | Hin]; try discriminate);
         contradiction]).
  - destruct (loop_run_calls svc chunks _ o Hloop) as [H1 H2].
    assert (Hsplit : In (EvSplit text_splitter docs (Ok chunks))
                        (setup_trace
                         ++ [EvLoad loader (Ok docs);
                             EvSplit text_splitter docs (Ok chunks)] ++ trace o)).
    { apply in_or_app. right. right. now left. }
    split; intros a r Hin;
      (apply in_app_or in Hin as [Hin | Hin];
       [now apply not_in_setup_trace in Hin |]);
      simpl in Hin; destruct Hin as [Hin | [Hin | Hin]]; try discriminate.
    + destruct (H1 a r Hin) as (c & Hc & ->). now exists docs, chunks, c.
    + destruct (H2 a r Hin) as (c & Hc & ->). now exists docs, chunks, c.
  - destruct (loop_run_calls svc chunks _ o Hloop) as [H1 H2].
    assert (Hsplit : In (EvSplit text_splitter docs (Ok chunks))
                        (setup_trace
                         ++ [EvLoad loader (Ok docs);
                             EvSplit text_splitter docs (Ok chunks)]
                         ++ trace o
                         ++ [EvQuery (CreateVectorIndex chunkVector)
                                     (match fault with
                                      | Some x => Err x
                                      | None => Ok tt
                                      end)])).
    { apply in_or_app. right. right. now left. }
    split; intros a r Hin;
      (apply in_app_or in Hin as [Hin | Hin];
       [now apply not_in_setup_trace in Hin |]);
      simpl in Hin; destruct Hin as [Hin | [Hin | Hin]]; try discriminate;
      apply in_app_or in Hin as [Hin | Hin];
      try (destruct Hin as [Hin | []]; discriminate).
    + destruct (H1 a r Hin) as (c & Hc & ->). now exists docs, chunks, c.
    + destruct (H2 a r Hin) as (c & Hc & ->). now exists docs, chunks, c.
Qed.

(** X10: with no chunks there is nothing between the split and the index
    statement: no model is called, nothing is printed, and the store ends as
    the index statement leaves the initial one (unchanged if that statement
    fails). *)
Theorem nothing_to_do_without_chunks {E : Type} (svc : services E) (w : world E)
    (cfg : splitter_config) (docs : list document) :
  In (EvSplit cfg docs (Ok [])) (trace (main svc w)) ->
  exists r : result unit,
    trace (main svc w)
    = setup_trace
      ++ [EvLoad loader (Ok docs); EvSplit text_splitter docs (Ok []);
          EvQuery (CreateVectorIndex chunkVector) r]
    /\ res (main svc w) = r
    /\ db (final (main svc w))
       = match r with
         | Ok _ => create_vector_index chunkVector (db w)
         | Err _ => db w
         end.
Proof.
  generalize (main_run svc w). generalize (main svc w). intros o H.
  destruct H as [e He | e0 e1 x Hs Hl | e0 e1 e2 docs0 x Hs Hl Hsp
                | e0 e1 e2 docs0 chunks o x Hs Hl Hsp Hloop Hres
                | e0 e1 e2 e3 docs0 chunks o fault Hs Hl Hsp Hloop Hres Hq];
    cbn [trace]; intros Hin.
  - exfalso. destruct (setup_run svc w) as [[e0 Hs] | (e' & _ & _ & Hst)];
      [rewrite Hs in He; discriminate |].
    rewrite List.Forall_forall in Hst. specialize (Hst _ Hin). discriminate.
  - exfalso. apply in_app_or in Hin as [Hin | Hin];
      [now apply not_in_setup_trace in Hin |].
    simpl in Hin. repeat (destruct Hin as [Hin | Hin]; try discriminate). contradiction.
  - exfalso. apply in_app_or in Hin as [Hin | Hin];
      [now apply not_in_setup_trace in Hin |].
    simpl in Hin. repeat (destruct Hin as [Hin | Hin]; try discriminate). contradiction.
  - exfalso. apply in_app_or in Hin as [Hin | Hin];
      [now apply not_in_setup_trace in Hin |].
    simpl in Hin. destruct Hin as [Hin | [Hin | Hin]]; [discriminate | |].
    + injection Hin as _ _ ->. apply loop_run_nil in Hloop. subst o. discriminate.
    + now apply (not_in_loop_trace svc chunks _ o _ Hloop) in Hin.
  - apply in_app_or in Hin as [Hin | Hin];
      [now apply not_in_setup_trace in Hin |].
    simpl in Hin. destruct Hin as [Hin | [Hin | Hin]]; [discriminate | |].
    + injection Hin as _ -> ->. apply loop_run_nil in Hloop. subst o.
      exists (match fault with Some x => Err x | None => Ok tt end).
      simpl. split; [reflexivity |]. split; [reflexivity |]. now destruct fault.
    + exfalso. apply in_app_or in Hin as [Hin | Hin].
      * now apply (not_in_loop_trace svc chunks _ o _ Hloop) in Hin.
      * destruct Hin as [Hin | []]. discriminate.
Qed.

Lemma nothing_to_do_without_chunks_witness :
  db (final (main (sample_services [] "") sample_world))
  = create_vector_index chunkVector empty_db.
Proof.
  destruct (nothing_to_do_without_chunks (sample_services [] "") sample_world
              text_splitter [])
    as (r & Ht & Hr & Hdb).
  - apply (nth_error_In _ 5). vm_compute. reflexivity.
  - rewrite Hdb. rewrite <- Hr. reflexivity.
Defined.

Lemma create_vector_index_present (ix : vector_index) (g : graph_db) :
  existsb (same_index ix) (db_indexes (create_vector_index ix g)) = true.
Proof.
  unfold create_vector_index.
  destruct (existsb (same_index ix) (db_indexes g)) eqn:Hex; [exact Hex |].
  simpl. rewrite existsb_app. simpl.
  unfold same_index at 2. rewrite String.eqb_refl. simpl. apply orb_true_r.
Qed.

(** X11: the index statement adds at most one index and removes none, and it
    leaves nodes and relationships alone; after a completed run the store has
    a vector index named [chunkVector] or one on [Chunk.textEmbedding]. *)
Theorem completed_run_leaves_vector_index {E : Type} (svc : services E) (w : world E) :
  (forall g : graph_db,
     db_nodes (create_vector_index chunkVector g) = db_nodes g
     /\ db_rels (create_vector_index chunkVector g) = db_rels g
     /\ (db_indexes (create_vector_index chunkVector g) = db_indexes g
         \/ db_indexes (create_vector_index chunkVector g)
            = db_indexes g ++ [chunkVector]))
  /\ (res (main svc w) = Ok tt ->
      existsb (same_index chunkVector) (db_indexes (db (final (main svc w)))) = true).
Proof.
  split.
  { intros g. unfold create_vector_index.
    destruct (existsb (same_index chunkVector) (db_indexes g)); simpl; auto. }
  generalize (main_run svc w). generalize (main svc w). intros o H.
  destruct H as [e He | e0 e1 x Hs Hl | e0 e1 e2 docs x Hs Hl Hsp
                | e0 e1 e2 docs chunks o x Hs Hl Hsp Hloop Hres
                | e0 e1 e2 e3 docs chunks o fault Hs Hl Hsp Hloop Hres Hq];
    cbn [res final db]; try congruence; try discriminate.
  destruct fault; [discriminate |]. intros _. apply create_vector_index_present.
Qed.

Lemma completed_run_leaves_vector_index_witness :
  existsb (same_index chunkVector)
    (db_indexes (db (final (main (sample_services [chunk_policy] "") sample_world))))
  = true.
Proof.
  apply (proj2 (completed_run_leaves_vector_index
                  (sample_services [chunk_policy] "") sample_world)).
  vm_compute. reflexivity.
Defined.

(** X12: the subgraph of a chunk is written over a store that already holds
    the chunk: when an iteration reaches [add_graph_documents], the store it
    hands over is the one its write statement left, with the Document, the
    Chunk and the chunk's text and embedding, so the source node of the
    [HAS_ENTITY] relationships names a Chunk that is there; what the call
    returns is the iteration's state and result. *)
Theorem subgraph_written_over_stored_chunk {E : Type} (svc : services E)
    (c : document) (w : world E) (gds : list graph_document) (r : result unit) :
  In (EvAddGraphDocuments gds r) (trace (process_chunk svc c w)) ->
  exists (p : properties) (e : E),
    chunk_id_of c = Ok (filename p, chunk_id p)
    /\ text p = page_content c
    /\ holds_chunk p (merge_chunk p (db w))
    /\ present "Chunk" (Node.id (chunk_node (chunk_id p))) (merge_chunk p (db w))
    /\ add_graph_documents svc gds (merge_chunk p (db w)) e
       = (db (final (process_chunk svc c w)), env (final (process_chunk svc c w)), r)
    /\ res (process_chunk svc c w) = r.
Proof.
  generalize (process_chunk_run svc c w). generalize (process_chunk svc c w).
  intros o H.
  destruct H as [e He | f i e1 x Hid He | f i e1 e2 v x Hid He p Hq
                | f i e1 e2 e3 v x Hid He p Hq Hx
                | f i e1 e2 e3 e4 v ex g4 r' Hid He p Hq Hx Ha]; simpl; intros Hin;
    repeat (destruct Hin as [Hin | Hin]; try discriminate); try contradiction.
  injection Hin as <- <-. exists p, e3.
  assert (Hh : holds_chunk p (merge_chunk p (db w))).
  { unfold holds_chunk. rewrite db_nodes_merge_chunk. apply holds_after_merge. }
  repeat split; auto; apply Hh.
Qed.

Lemma subgraph_written_over_stored_chunk_witness :
  res (process_chunk (sample_services [chunk_policy] "") chunk_policy sample_world)
  = Ok tt.
Proof.
  destruct (subgraph_written_over_stored_chunk
              (sample_services [chunk_policy] "") chunk_policy sample_world
              (deref (link_entities "policy.csv.3"
                        (Extraction
                           [GraphDocument [Node.mk "policy_id: 9" "Claim" ∅] []
                                          chunk_policy] [0])))
              (Ok tt))
    as (p & e & _ & _ & _ & _ & _ & Hr).
  - vm_compute. do 4 right. left. reflexivity.
  - exact Hr.
Defined.

Lemma merge_chunk_nodes_keys (p : properties) (ns : list db_node) :
  exists added,
    map node_key (merge_chunk_nodes p ns) = map node_key ns ++ added
    /\ length added <= 2.
Proof.
  unfold merge_chunk_nodes. rewrite !set_prop_in_keys by discriminate.
  destruct (merge_node_in_appends "Document" (filename p) ns) as (x1 & H1 & Hx1).
  destruct (merge_node_in_appends "Chunk" (chunk_id p)
              (merge_node_in "Document" (filename p) ns)) as (x2 & H2 & Hx2).
  rewrite H2, H1, !map_app, <- app_assoc.
  eexists. split; [reflexivity |]. rewrite length_app, !length_map. lia.
Qed.

Lemma replay_nodes_keys (ps : list properties) (ns : list db_node) :
  exists added,
    map node_key (replay_nodes ps ns) = map node_key ns ++ added
    /\ length added <= 2 * length ps.
Proof.
  revert ns. induction ps as [| p ps IH]; intros ns.
  - exists []. rewrite app_nil_r. simpl. split; [reflexivity | lia].
  - change (replay_nodes (p :: ps) ns)
      with (replay_nodes ps (merge_chunk_nodes p ns)).
    destruct (IH (merge_chunk_nodes p ns)) as (a2 & H2 & L2).
    destruct (merge_chunk_nodes_keys p ns) as (a1 & H1 & L1).
    exists (a1 ++ a2). rewrite H2, H1, <- app_assoc.
    split; [reflexivity |]. rewrite length_app. simpl length. lia.
Qed.

(** X13: given a subgraph writer that leaves Document and Chunk nodes alone,
    the Document and Chunk nodes at the end of any run, failed or not, are
    what the write statements that went through make, in order, of the initial
    ones: a failure undoes nothing.  No Document or Chunk node is ever
    removed or given another id: their labels and ids at the start are a
    prefix of those at the end, with at most two more per write statement. *)
Theorem run_only_adds_document_and_chunk_nodes {E : Type} (svc : services E)
    (w : world E) :
  keeps_core_nodes svc ->
  core_nodes (db (final (main svc w)))
  = replay_nodes (merges (trace (main svc w))) (core_nodes (db w))
  /\ (exists added,
        map node_key (core_nodes (db (final (main svc w))))
        = map node_key (core_nodes (db w)) ++ added
        /\ length added <= 2 * length (merges (trace (main svc w))))
  /\ (forall label id,
        label = "Document" \/ label = "Chunk" ->
        present label id (db w) -> present label id (db (final (main svc w)))).
Proof.
  intros Hkeep. pose proof (main_core svc Hkeep w) as Hcore.
  split; [exact Hcore |]. split.
  - rewrite Hcore. apply replay_nodes_keys.
  - intros label id Hl Hp. apply present_core; [exact Hl |].
    rewrite Hcore. apply present_after_replay.
    unfold present, present_in, core_nodes in *. now rewrite existsb_core.
Qed.

Lemma run_only_adds_document_and_chunk_nodes_witness :
  core_nodes
    (db (final (main (sample_services [chunk_2023; chunk_policy; chunk_2024]
                                      "policy_id: 9") sample_world)))
  = replay_nodes
      (merges (trace (main (sample_services [chunk_2023; chunk_policy; chunk_2024]
                                            "policy_id: 9") sample_world)))
      (core_nodes (db sample_world)).
Proof.
  apply (run_only_adds_document_and_chunk_nodes
           (sample_services [chunk_2023; chunk_policy; chunk_2024] "policy_id: 9")
           sample_world).
  apply sample_keeps_core.
Defined.

(** ** Invariants of the store *)

Lemma count_merge_node_in_le (label label' id id' : string) (ns : list db_node) :
  length (List.filter (matches label id) (merge_node_in label' id' ns))
  <= Nat.max 1 (length (List.filter (matches label id) ns)).
Proof.
  unfold merge_node_in.
  destruct (existsb (matches label' id') ns) eqn:Hex; [lia |].
  rewrite List.filter_app, length_app. simpl.
  destruct (matches label id _) eqn:Hm; simpl; [| lia].
  apply matches_new_inv in Hm as [-> ->].
  rewrite (count_zero _ _ Hex). simpl. lia.
Qed.

Lemma count_merge_chunk_nodes_le (label id : string) (p : properties)
    (ns : list db_node) :
  length (List.filter (matches label id) ns) <= 1 ->
  length (List.filter (matches label id) (merge_chunk_nodes p ns)) <= 1.
Proof.
  intros H. unfold merge_chunk_nodes. rewrite !count_set_prop by discriminate.
  pose proof (count_merge_node_in_le label "Chunk" id (chunk_id p)
                (merge_node_in "Document" (filename p) ns)) as H2.
  pose proof (count_merge_node_in_le label "Document" id (filename p) ns) as H1.
  lia.
Qed.

Lemma count_replay_nodes_le (label id : string) (ps : list properties)
    (ns : list db_node) :
  length (List.filter (matches label id) ns) <= 1 ->
  length (List.filter (matches label id) (replay_nodes ps ns)) <= 1.
Proof.
  revert ns. induction ps as [| p ps IH]; intros ns H; simpl; [exact H |].
  apply IH. now apply count_merge_chunk_nodes_le.
Qed.

Lemma filter_matches_core (label id : string) (ns : list db_node) :
  label = "Document" \/ label = "Chunk" ->
  List.filter (matches label id) (List.filter is_core ns)
  = List.filter (matches label id) ns.
Proof.
  intros Hl. induction ns as [| n ns IH]; simpl; [reflexivity |].
  destruct (is_core n) eqn:Hc; simpl; [now rewrite IH |].
  destruct (matches label id n) eqn:Hm; [| exact IH].
  rewrite (matches_core label id n Hl Hm) in Hc. discriminate.
Qed.

(** X14: ids stay unique.  If at most one node has a given label and id, the
    write statement leaves at most one; and a store in which no two Documents
    and no two Chunks share an id is still such a store at the end of any run,
    failed or not (given a subgraph writer that leaves Document and Chunk
    nodes alone). *)
Theorem unique_ids_stay_unique :
  (forall (p : properties) (g : graph_db) (label id : string),
     count_nodes label id g <= 1 -> count_nodes label id (merge_chunk p g) <= 1)
  /\ (forall (E : Type) (svc : services E) (w : world E),
        keeps_core_nodes svc ->
        (forall label id, label = "Document" \/ label = "Chunk" ->
                          count_nodes label id (db w) <= 1) ->
        forall label id, label = "Document" \/ label = "Chunk" ->
                         count_nodes label id (db (final (main svc w))) <= 1).
Proof.
  split.
  - intros p g label id H. unfold count_nodes in *.
    rewrite db_nodes_merge_chunk. now apply count_merge_chunk_nodes_le.
  - intros E svc w Hkeep Hinit label id Hl. unfold count_nodes.
    rewrite <- (filter_matches_core label id _ Hl).
    fold (core_nodes (db (final (main svc w)))).
    rewrite (main_core svc Hkeep w). apply count_replay_nodes_le.
    unfold core_nodes. rewrite (filter_matches_core label id _ Hl).
    now apply Hinit.
Qed.

Lemma unique_ids_stay_unique_witness :
  count_nodes "Chunk" "claims.csv.0"
    (db (final (main (sample_services [chunk_2023; chunk_2024] "") sample_world)))
  <= 1.
Proof.
  apply (proj2 unique_ids_stay_unique unit
           (sample_services [chunk_2023; chunk_2024] "") sample_world
           (sample_keeps_core _ _)).
  - intros label id _. vm_compute. lia.
  - now right.
Defined.

Lemma new_document_is_no_chunk (id : string) :
  has_label "Chunk" (DbNode ["Document"] {[ "id" := VStr id ]}) = false.
Proof. reflexivity. Qed.

Lemma complete_chunks_after_merge (p : properties) (ns : list db_node) :
  Forall (fun n => has_label "Chunk" n = true ->
                   is_Some (props n !! "text") /\ is_Some (props n !! "textEmbedding"))
         ns ->
  Forall (fun n => has_label "Chunk" n = true ->
                   is_Some (props n !! "text") /\ is_Some (props n !! "textEmbedding"))
         (merge_chunk_nodes p ns).
Proof.
  intros Hall. rewrite merge_chunk_nodes_map. apply List.Forall_forall.
  intros n' Hin. apply in_map_iff in Hin as (n & <- & Hin).
  destruct (matches "Chunk" (chunk_id p) n) eqn:Hm.
  - intros _. unfold set_node_prop. simpl. split.
    + rewrite lookup_insert_ne by discriminate. rewrite lookup_insert_eq. eauto.
    + rewrite lookup_insert_eq. eauto.
  - intros Hc. rewrite List.Forall_forall in Hall.
    unfold merge_node_in in Hin.
    destruct (existsb (matches "Document" (filename p)) ns);
      destruct (existsb (matches "Chunk" (chunk_id p)) _);
      repeat (apply in_app_or in Hin as [Hin | Hin]); auto;
      destruct Hin as [<- | []];
      try (rewrite new_document_is_no_chunk in Hc; discriminate);
      rewrite matches_new in Hm; discriminate.
Qed.

Lemma complete_chunks_after_replay (ps : list properties) (ns : list db_node) :
  Forall (fun n => has_label "Chunk" n = true ->
                   is_Some (props n !! "text") /\ is_Some (props n !! "textEmbedding"))
         ns ->
  Forall (fun n => has_label "Chunk" n = true ->
                   is_Some (props n !! "text") /\ is_Some (props n !! "textEmbedding"))
         (replay_nodes ps ns).
Proof.
  revert ns. induction ps as [| p ps IH]; intros ns H; simpl; [exact H |].
  apply IH. now apply complete_chunks_after_merge.
Qed.

Lemma forall_chunk_core (Q : db_node -> Prop) (ns : list db_node) :
  Forall (fun n => has_label "Chunk" n = true -> Q n) (List.filter is_core ns) <->
  Forall (fun n => has_label "Chunk" n = true -> Q n) ns.
Proof.
  induction ns as [| n ns IH]; simpl; [reflexivity |].
  destruct (is_core n) eqn:Hc.
  - split; intros H; inversion H; subst; constructor; auto; now apply IH.
  - split; intros H.
    + constructor; [| now apply IH]. intros Hl.
      unfold is_core in Hc. rewrite Hl, orb_true_r in Hc. discriminate.
    + inversion H; subst. now apply IH.
Qed.

(** X15: no Chunk node is left half written.  If every node labelled [Chunk]
    has a [text] and a [textEmbedding], the same holds after the write
    statement, and at the end of any run, failed or not (given a subgraph
    writer that leaves Document and Chunk nodes alone); so it holds for every
    run on a store that starts without Chunk nodes. *)
Theorem chunk_nodes_always_have_text_and_embedding :
  (forall (p : properties) (g : graph_db),
     Forall (fun n => has_label "Chunk" n = true ->
                      is_Some (props n !! "text")
                      /\ is_Some (props n !! "textEmbedding"))
            (db_nodes g) ->
     Forall (fun n => has_label "Chunk" n = true ->
                      is_Some (props n !! "text")
                      /\ is_Some (props n !! "textEmbedding"))
            (db_nodes (merge_chunk p g)))
  /\ (forall (E : Type) (svc : services E) (w : world E),
        keeps_core_nodes svc ->
        Forall (fun n => has_label "Chunk" n = true ->
                         is_Some (props n !! "text")
                         /\ is_Some (props n !! "textEmbedding"))
               (db_nodes (db w)) ->
        Forall (fun n => has_label "Chunk" n = true ->
                         is_Some (props n !! "text")
                         /\ is_Some (props n !! "textEmbedding"))
               (db_nodes (db (final (main svc w))))).
Proof.
  split.
  - intros p g H. rewrite db_nodes_merge_chunk. now apply complete_chunks_after_merge.
  - intros E svc w Hkeep H. apply forall_chunk_core.
    fold (core_nodes (db (final (main svc w)))).
    rewrite (main_core svc Hkeep w). apply complete_chunks_after_replay.
    now apply forall_chunk_core.
Qed.

Lemma chunk_nodes_always_have_text_and_embedding_witness :
  Forall (fun n => has_label "Chunk" n = true ->
                   is_Some (props n !! "text") /\ is_Some (props n !! "textEmbedding"))
         (db_nodes
            (db (final (main (sample_services [chunk_2023; chunk_policy; chunk_2024]
                                              "policy_id: 9") sample_world)))).
Proof.
  apply (proj2 chunk_nodes_always_have_text_and_embedding unit
           (sample_services [chunk_2023; chunk_policy; chunk_2024] "policy_id: 9")
           sample_world (sample_keeps_core _ _)).
  constructor.
Defined.

(** ** Failures before the first write *)

Section EarlyFailures.

Context {E : Type} (svc : services E).

Lemma chunk_run_unwritten (c : document) (w : world E) (o : outcome E unit) :
  chunk_run svc c w o -> merges (trace o) = [] ->
  db (final o) = db w
  /\ (exists e, res o = Err e)
  /\ (forall gds r, ~ In (EvAddGraphDocuments gds r) (trace o)).
Proof.
  intros H.
  destruct H as [e He | f i e1 x Hid He | f i e1 e2 v x Hid He p Hq
                | f i e1 e2 e3 v x Hid He p Hq Hx
                | f i e1 e2 e3 e4 v ex g4 r Hid He p Hq Hx Ha]; simpl;
    intros Hm; try discriminate;
    (split; [reflexivity |]; split; [eauto |]);
    intros gds r' Hin;
    repeat (destruct Hin as [Hin | Hin]; try discriminate); contradiction.
Qed.

Lemma loop_run_unwritten (chunks : list document) (w : world E) (o : outcome E unit) :
  loop_run svc chunks w o -> merges (trace o) = [] ->
  db (final o) = db w
  /\ (res o = Ok tt -> chunks = [])
  /\ (forall gds r, ~ In (EvAddGraphDocuments gds r) (trace o)).
Proof.
  intros H.
  induction H as [w | c cs w o e Hc He | c cs w o o' Hc Hres Hloop IH]; intros Hm.
  - split; [reflexivity |]. split; [reflexivity |]. intros gds r [].
  - destruct (chunk_run_unwritten c w o Hc Hm) as (Hdb & _ & Hno).
    split; [exact Hdb |]. split; [congruence | exact Hno].
  - exfalso. cbn [trace] in Hm. rewrite merges_app in Hm.
    apply app_eq_nil in Hm as [Hm1 _].
    destruct (chunk_run_unwritten c w o Hc Hm1) as (_ & [e He] & _). congruence.
Qed.

End EarlyFailures.

(** X16: a run that fails before any write statement has gone through, be it
    while the clients are built, in loading, in splitting, in a chunk's
    metadata, in embedding or in the write statement itself, leaves the store
    exactly as it found it, and has written no subgraph. *)
Theorem failure_before_first_write_changes_nothing {E : Type} (svc : services E)
    (w : world E) (e : exn) :
  res (main svc w) = Err e ->
  merges (trace (main svc w)) = [] ->
  db (final (main svc w)) = db w
  /\ (forall gds r, ~ In (EvAddGraphDocuments gds r) (trace (main svc w))).
Proof.
  generalize (main_run svc w). generalize (main svc w). intros o H.
  destruct H as [e' He | e0 e1 x Hs Hl | e0 e1 e2 docs x Hs Hl Hsp
                | e0 e1 e2 docs chunks o x Hs Hl Hsp Hloop Hres
                | e0 e1 e2 e3 docs chunks o fault Hs Hl Hsp Hloop Hres Hq];
    cbn [trace res final db]; intros Herr Hm.
  - destruct (setup_run svc w) as [[e0 Hs] | (e'' & _ & Hdb & Hst)];
      [rewrite Hs in He; discriminate |].
    split; [exact Hdb |]. intros gds r Hin.
    rewrite List.Forall_forall in Hst. specialize (Hst _ Hin). discriminate.
  - split; [reflexivity |]. intros gds r Hin.
    apply in_app_or in Hin as [Hin | Hin];
      [now apply not_in_setup_trace in Hin |].
    simpl in Hin. repeat (destruct Hin as [Hin | Hin]; try discriminate). contradiction.
  - split; [reflexivity |]. intros gds r Hin.
    apply in_app_or in Hin as [Hin | Hin];
      [now apply not_in_setup_trace in Hin |].
    simpl in Hin. repeat (destruct Hin as [Hin | Hin]; try discriminate). contradiction.
  - rewrite !merges_app in Hm. apply app_eq_nil in Hm as [_ Hm].
    apply app_eq_nil in Hm as [_ Hm].
    destruct (loop_run_unwritten svc chunks _ o Hloop Hm) as (Hdb & _ & Hno).
    split; [exact Hdb |]. intros gds r Hin.
    apply in_app_or in Hin as [Hin | Hin];
      [now apply not_in_setup_trace in Hin |].
    simpl in Hin. destruct Hin as [Hin | [Hin | Hin]]; try discriminate.
    exact (Hno gds r Hin).
  - rewrite !merges_app in Hm. apply app_eq_nil in Hm as [_ Hm].
    apply app_eq_nil in Hm as [_ Hm]. apply app_eq_nil in Hm as [Hm _].
    destruct (loop_run_unwritten svc chunks _ o Hloop Hm) as (Hdb & _ & Hno).
    destruct fault as [x |]; [| discriminate].
    split; [exact Hdb |]. intros gds r Hin.
    apply in_app_or in Hin as [Hin | Hin];
      [now apply not_in_setup_trace in Hin |].
    simpl in Hin. destruct Hin as [Hin | [Hin | Hin]]; try discriminate.
    apply in_app_or in Hin as [Hin | Hin]; [exact (Hno gds r Hin) |].
    destruct Hin as [Hin | []]. discriminate.
Qed.

Lemma failure_before_first_write_changes_nothing_witness :
  db (final (main (sample_services [chunk_row; chunk_2023] "") sample_world))
  = db sample_world.
Proof.
  apply (failure_before_first_write_changes_nothing
           (sample_services [chunk_row; chunk_2023] "") sample_world
           (KeyError "page")).
  - vm_compute. reflexivity.
  - vm_compute. reflexivity.
Defined.

(** ** What is stored and what is printed *)

Section DataFlow.

Context {E : Type} (svc : services E).

Lemma chunk_run_write (c : document) (w : world E) (o : outcome E unit)
    (p : properties) (r : result unit) :
  chunk_run svc c w o -> In (EvQuery (MergeChunk p) r) (trace o) ->
  chunk_id_of c = Ok (filename p, chunk_id p)
  /\ text p = page_content c
  /\ exists t2,
       trace o = [EvPrint ("Processing - " +:+ chunk_id p);
                  EvEmbed (text p) (Ok (embedding p));
                  EvQuery (MergeChunk p) r] ++ t2.
Proof.
  intros H.
  destruct H as [e He | f i e1 x Hid He | f i e1 e2 v x Hid He q Hq
                | f i e1 e2 e3 v x Hid He q Hq Hx
                | f i e1 e2 e3 e4 v ex g4 r' Hid He q Hq Hx Ha]; simpl;
    intros Hin;
    repeat (destruct Hin as [Hin | Hin]; try discriminate); try contradiction;
    injection Hin as <- <-; simpl; (split; [exact Hid |]); (split; [reflexivity |]);
    eexists; reflexivity.
Qed.

Lemma loop_run_write (chunks : list document) (w : world E) (o : outcome E unit)
    (p : properties) (r : result unit) :
  loop_run svc chunks w o -> In (EvQuery (MergeChunk p) r) (trace o) ->
  exists c t1 t2,
    In c chunks
    /\ chunk_id_of c = Ok (filename p, chunk_id p)
    /\ text p = page_content c
    /\ trace o = t1 ++ [EvPrint ("Processing - " +:+ chunk_id p);
                        EvEmbed (text p) (Ok (embedding p));
                        EvQuery (MergeChunk p) r] ++ t2.
Proof.
  intros H.
  induction H as [w | c cs w o e Hc He | c cs w o o' Hc Hres Hloop IH]; intros Hin.
  - destruct Hin.
  - destruct (chunk_run_write c w o p r Hc Hin) as (Hid & Ht & t2 & Htr).
    exists c, [], t2. split; [now left |]. auto.
  - cbn [trace] in *. apply in_app_or in Hin as [Hin | Hin].
    + destruct (chunk_run_write c w o p r Hc Hin) as (Hid & Ht & t2 & Htr).
      exists c, [], (t2 ++ trace o'). split; [now left |].
      split; [exact Hid |]. split; [exact Ht |].
      rewrite Htr. simpl. reflexivity.
    + destruct (IH Hin) as (c' & t1 & t2 & Hc' & Hid & Ht & Htr).
      exists c', (trace o ++ t1), t2. split; [now right |].
      split; [exact Hid |]. split; [exact Ht |].
      rewrite Htr, <- app_assoc. reflexivity.
Qed.

Lemma printed_app (t1 t2 : list event) :
  printed (t1 ++ t2) = printed t1 ++ printed t2.
Proof. unfold printed. apply omap_app. Qed.

Lemma chunk_run_printed (c : document) (w : world E) (o : outcome E unit) :
  chunk_run svc c w o ->
  (printed (trace o) = [] /\ exists e, res o = Err e)
  \/ (exists f i, chunk_id_of c = Ok (f, i)
                  /\ printed (trace o) = ["Processing - " +:+ i]).
Proof.
  intros H.
  destruct H as [e He | f i e1 x Hid He | f i e1 e2 v x Hid He q Hq
                | f i e1 e2 e3 v x Hid He q Hq Hx
                | f i e1 e2 e3 e4 v ex g4 r' Hid He q Hq Hx Ha];
    [left; split; [reflexivity | eauto] | right; exists f, i; split; [exact Hid | reflexivity] ..].
Qed.

Lemma loop_run_printed (chunks : list document) (w : world E) (o : outcome E unit) :
  loop_run svc chunks w o ->
  exists n,
    n <= length chunks
    /\ Forall2 (fun c line => exists f i, chunk_id_of c = Ok (f, i)
                                          /\ line = "Processing - " +:+ i)
               (firstn n chunks) (printed (trace o))
    /\ (res o = Ok tt -> n = length chunks).
Proof.
  intros H.
  induction H as [w | c cs w o e Hc He | c cs w o o' Hc Hres Hloop IH].
  - exists 0. split; [reflexivity |]. split; [constructor | reflexivity].
  - destruct (chunk_run_printed c w o Hc) as [[Hp _] | (f & i & Hid & Hp)].
    + exists 0. split; [simpl; lia |]. rewrite Hp. split; [constructor | congruence].
    + exists 1. split; [simpl; lia |]. rewrite Hp.
      split; [| congruence]. simpl. constructor; [| constructor]. now exists f, i.
  - destruct IH as (n & Hn & Hall & Hdone).
    destruct (chunk_run_printed c w o Hc) as [[_ [e He]] | (f & i & Hid & Hp)];
      [congruence |].
    exists (S n). split; [simpl; lia |]. cbn [trace res]. rewrite printed_app, Hp.
    split; [| intros Hok; simpl; now rewrite (Hdone Hok)].
    simpl. constructor; [now exists f, i | exact Hall].
Qed.

End DataFlow.

(** X17: whatever a write statement stores was computed from one chunk of the
    run.  Every write statement the run sent comes right after the line
    printed for its chunk id and the embedding call on its text, and carries
    the vector that call returned; its text is the text of a chunk the
    splitter returned, and its file name and id are the ones read off that
    chunk's metadata. *)
Theorem stored_embedding_is_of_the_stored_text {E : Type} (svc : services E)
    (w : world E) (p : properties) (r : result unit) :
  In (EvQuery (MergeChunk p) r) (trace (main svc w)) ->
  exists (docs chunks : list document) (c : document) (t1 t2 : list event),
    In (EvSplit text_splitter docs (Ok chunks)) (trace (main svc w))
    /\ In c chunks
    /\ chunk_id_of c = Ok (filename p, chunk_id p)
    /\ text p = page_content c
    /\ trace (main svc w)
       = t1 ++ [EvPrint ("Processing - " +:+ chunk_id p);
                EvEmbed (text p) (Ok (embedding p));
                EvQuery (MergeChunk p) r] ++ t2.
Proof.
  generalize (main_run svc w). generalize (main svc w). intros o H.
  destruct H as [e' He | e0 e1 x Hs Hl | e0 e1 e2 docs x Hs Hl Hsp
                | e0 e1 e2 docs chunks o x Hs Hl Hsp Hloop Hres
                | e0 e1 e2 e3 docs chunks o fault Hs Hl Hsp Hloop Hres Hq];
    cbn [trace]; intros Hin.
  - exfalso. destruct (setup_run svc w) as [[e0 Hs] | (e'' & _ & _ & Hst)];
      [rewrite Hs in He; discriminate |].
    rewrite List.Forall_forall in Hst. specialize (Hst _ Hin). discriminate.
  - exfalso. apply in_app_or in Hin as [Hin | Hin];
      [now apply not_in_setup_trace in Hin |].
    simpl in Hin. repeat (destruct Hin as [Hin | Hin]; try discriminate). contradiction.
  - exfalso. apply in_app_or in Hin as [Hin | Hin];
      [now apply not_in_setup_trace in Hin |].
    simpl in Hin. repeat (destruct Hin as [Hin | Hin]; try discriminate). contradiction.
  - apply in_app_or in Hin as [Hin | Hin];
      [now apply not_in_setup_trace in Hin |].
    simpl in Hin. destruct Hin as [Hin | [Hin | Hin]]; try discriminate.
    destruct (loop_run_write svc chunks _ o p r Hloop Hin)
      as (c & t1 & t2 & Hc & Hid & Ht & Htr).
    exists docs, chunks, c,
      (setup_trace
       ++ [EvLoad loader (Ok docs); EvSplit text_splitter docs (Ok chunks)] ++ t1), t2.
    split; [apply in_or_app; right; right; now left |].
    split; [exact Hc |]. split; [exact Hid |]. split; [exact Ht |].
    rewrite Htr, <- !app_assoc. reflexivity.
  - apply in_app_or in Hin as [Hin | Hin];
      [now apply not_in_setup_trace in Hin |].
    simpl in Hin. destruct Hin as [Hin | [Hin | Hin]]; try discriminate.
    apply in_app_or in Hin as [Hin | Hin];
      [| destruct Hin as [Hin | []]; discriminate].
    destruct (loop_run_write svc chunks _ o p r Hloop Hin)
      as (c & t1 & t2 & Hc & Hid & Ht & Htr).
    exists docs, chunks, c,
      (setup_trace
       ++ [EvLoad loader (Ok docs); EvSplit text_splitter docs (Ok chunks)] ++ t1),
      (t2 ++ [EvQuery (CreateVectorIndex chunkVector)
                      (match fault with Some x => Err x | None => Ok tt end)]).
    split; [apply in_or_app; right; right; now left |].
    split; [exact Hc |]. split; [exact Hid |]. split; [exact Ht |].
    rewrite Htr, <- !app_assoc. reflexivity.
Qed.

Lemma stored_embedding_is_of_the_stored_text_witness :
  exists (docs chunks : list document) (c : document) (t1 t2 : list event),
    In (EvSplit text_splitter docs (Ok chunks))
       (trace (main (sample_services [chunk_2023; chunk_policy] "") sample_world))
    /\ In c chunks
    /\ chunk_id_of c = Ok ("policy.csv", "policy.csv.3")
    /\ "policy_id: 9" = page_content c
    /\ trace (main (sample_services [chunk_2023; chunk_policy] "") sample_world)
       = t1 ++ [EvPrint ("Processing - " +:+ "policy.csv.3");
                EvEmbed "policy_id: 9" (Ok sample_embedding);
                EvQuery (MergeChunk (Properties "policy.csv" "policy.csv.3"
                                                "policy_id: 9" sample_embedding))
                        (Ok tt)] ++ t2.
Proof.
  apply (stored_embedding_is_of_the_stored_text
           (sample_services [chunk_2023; chunk_policy] "") sample_world
           (Properties "policy.csv" "policy.csv.3" "policy_id: 9" sample_embedding)
           (Ok tt)).
  apply (nth_error_In _ 13). vm_compute. reflexivity.
Defined.

(** X18: the lines on the console follow the chunks.  The script prints one
    line, [Processing - <chunk id>], for each chunk it starts on, in the order
    of the split: the printed lines name the ids of the first [n] chunks, all
    of them when the run completes. *)
Theorem printed_lines_follow_the_chunks {E : Type} (svc : services E) (w : world E)
    (cfg : splitter_config) (docs chunks : list document) :
  In (EvSplit cfg docs (Ok chunks)) (trace (main svc w)) ->
  exists n : nat,
    n <= length chunks
    /\ Forall2 (fun c line => exists f i, chunk_id_of c = Ok (f, i)
                                          /\ line = "Processing - " +:+ i)
               (firstn n chunks) (printed (trace (main svc w)))
    /\ (res (main svc w) = Ok tt -> n = length chunks).
Proof.
  generalize (main_run svc w). generalize (main svc w). intros o H.
  destruct H as [e' He | e0 e1 x Hs Hl | e0 e1 e2 docs0 x Hs Hl Hsp
                | e0 e1 e2 docs0 chunks0 o x Hs Hl Hsp Hloop Hres
                | e0 e1 e2 e3 docs0 chunks0 o fault Hs Hl Hsp Hloop Hres Hq];
    cbn [trace res]; intros Hin.
  - exfalso. destruct (setup_run svc w) as [[e0 Hs] | (e'' & _ & _ & Hst)];
      [rewrite Hs in He; discriminate |].
    rewrite List.Forall_forall in Hst. specialize (Hst _ Hin). discriminate.
  - exfalso. apply in_app_or in Hin as [Hin | Hin];
      [now apply not_in_setup_trace in Hin |].
    simpl in Hin. repeat (destruct Hin as [Hin | Hin]; try discriminate). contradiction.
  - exfalso. apply in_app_or in Hin as [Hin | Hin];
      [now apply not_in_setup_trace in Hin |].
    simpl in Hin. repeat (destruct Hin as [Hin | Hin]; try discriminate). contradiction.
  - apply in_app_or in Hin as [Hin | Hin];
      [now apply not_in_setup_trace in Hin |].
    simpl in Hin. destruct Hin as [Hin | [Hin | Hin]]; [discriminate | |].
    + injection Hin as _ _ <-.
      destruct (loop_run_printed svc chunks0 _ o Hloop) as (n & Hn & Hall & _).
      exists n. split; [exact Hn |]. split; [| discriminate].
      rewrite !printed_app. exact Hall.
    + now apply (not_in_loop_trace svc chunks0 _ o _ Hloop) in Hin.
  - apply in_app_or in Hin as [Hin | Hin];
      [now apply not_in_setup_trace in Hin |].
    simpl in Hin. destruct Hin as [Hin | [Hin | Hin]]; [discriminate | |].
    + injection Hin as _ _ <-.
      destruct (loop_run_printed svc chunks0 _ o Hloop) as (n & Hn & Hall & Hdone).
      exists n. split; [exact Hn |]. split; [| intros _; exact (Hdone Hres)].
      rewrite !printed_app. simpl. rewrite app_nil_r. exact Hall.
    + exfalso. apply in_app_or in Hin as [Hin | Hin].
      * now apply (not_in_loop_trace svc chunks0 _ o _ Hloop) in Hin.
      * destruct Hin as [Hin | []]. discriminate.
Qed.

Lemma printed_lines_follow_the_chunks_witness :
  exists n : nat,
    n <= 3
    /\ Forall2 (fun c line => exists f i, chunk_id_of c = Ok (f, i)
                                          /\ line = "Processing - " +:+ i)
               (firstn n [chunk_2023; chunk_row; chunk_policy])
               ["Processing - claims.csv.0"]
    /\ (res (main (sample_services [chunk_2023; chunk_row; chunk_policy] "")
                  sample_world) = Ok tt -> n = 3).
Proof.
  apply (printed_lines_follow_the_chunks
           (sample_services [chunk_2023; chunk_row; chunk_policy] "") sample_world
           text_splitter [chunk_2023; chunk_row; chunk_policy]
           [chunk_2023; chunk_row; chunk_policy]).
  apply (nth_error_In _ 5). vm_compute. reflexivity.
Defined.

(** * Chunk ids, embeddings and failures along runs *)

(** ** The merging writer *)

Lemma holds_after_merge_node_in (p : properties) (label id : string)
    (ns : list db_node) :
  holds_chunk_in p ns -> holds_chunk_in p (merge_node_in label id ns).
Proof.
  intros (Hd & Hc & Hall). unfold merge_node_in.
  destruct (existsb (matches label id) ns) eqn:Hex; [now repeat split |].
  unfold holds_chunk_in, present_in in *.
  split; [rewrite existsb_app, Hd; reflexivity |].
  split; [rewrite existsb_app, Hc; reflexivity |].
  apply Forall_app. split; [exact Hall |].
  constructor; [| constructor].
  intros Hm. apply matches_new_inv in Hm as [<- <-]. congruence.
Qed.

Lemma merging_import_keeps (gds : list graph_document) (g : graph_db) :
  (forall label id, present label id g -> present label id (merging_import gds g))
  /\ (forall p, holds_chunk p g -> holds_chunk p (merging_import gds g)).
Proof.
  unfold present, holds_chunk, merging_import. cbn [db_nodes].
  generalize (flat_map mentioned_nodes gds). generalize (db_nodes g).
  intros ns l. revert ns. induction l as [| n l IH]; intros ns; [now split |].
  destruct (IH (merge_node_in (Node.type n) (Node.id n) ns)) as [H1 H2].
  split.
  - intros label id H. apply H1. now apply merge_node_in_mono.
  - intros p H. apply H2. now apply holds_after_merge_node_in.
Qed.

Lemma merging_keeps (docs : list document) (v : list float) (fails_on : string) :
  keeps_written_chunks (merging_services docs v fails_on).
Proof. intros gds g e. apply merging_import_keeps. Qed.

(** ** Runs as a loop over the chunks *)

Section LoopOfARun.

Context {E : Type} (svc : services E).

Lemma merges_none (t : list event) :
  (forall p, ~ In (EvQuery (MergeChunk p) (Ok tt)) t) -> merges t = [].
Proof.
  intros H. destruct (merges t) as [| p ps] eqn:Hm; [reflexivity |].
  exfalso. apply (H p). apply merges_in. rewrite Hm. now left.
Qed.

Lemma main_loop (w : world E) :
  ((forall q r, ~ In (EvQuery q r) (trace (main svc w)))
   /\ db (final (main svc w)) = db w
   /\ exists e, res (main svc w) = Err e)
  \/ (exists (docs chunks : list document) (e2 : E) (o : outcome E unit)
             (tail : list event),
        loop_run svc chunks (World (db w) e2) o
        /\ trace (main svc w)
           = setup_trace
             ++ [EvLoad loader (Ok docs); EvSplit text_splitter docs (Ok chunks)]
             ++ trace o ++ tail
        /\ (forall ev, In ev tail ->
              exists r, ev = EvQuery (CreateVectorIndex chunkVector) r)
        /\ merges (trace (main svc w)) = merges (trace o)
        /\ db_nodes (db (final (main svc w))) = db_nodes (db (final o))
        /\ (res (main svc w) = Ok tt -> res o = Ok tt)).
Proof.
  generalize (main_run svc w). generalize (main svc w). intros o H.
  destruct H as [e He | e0 e1 x Hs Hl | e0 e1 e2 docs x Hs Hl Hsp
                | e0 e1 e2 docs chunks o x Hs Hl Hsp Hloop Hres
                | e0 e1 e2 e3 docs chunks o fault Hs Hl Hsp Hloop Hres Hq];
    cbn [trace res final db].
  - left. destruct (setup_run svc w) as [[e0 Hs] | (e' & He' & Hdb & Hst)];
      [rewrite Hs in He; discriminate |].
    split; [| split; [exact Hdb | eauto]].
    intros q r Hin. rewrite List.Forall_forall in Hst.
    specialize (Hst _ Hin). destruct q; discriminate.
  - left. split; [| split; [reflexivity | eauto]]. intros q r Hin.
    apply in_app_or in Hin as [Hin | Hin];
      [apply not_in_setup_trace in Hin; [exact Hin | destruct q; discriminate] |].
    simpl in Hin. repeat (destruct Hin as [Hin | Hin]; try discriminate). contradiction.
  - left. split; [| split; [reflexivity | eauto]]. intros q r Hin.
    apply in_app_or in Hin as [Hin | Hin];
      [apply not_in_setup_trace in Hin; [exact Hin | destruct q; discriminate] |].
    simpl in Hin. repeat (destruct Hin as [Hin | Hin]; try discriminate). contradiction.
  - right. exists docs, chunks, e2, o, [].
    split; [exact Hloop |]. split; [now rewrite (app_nil_r (trace o)) |].
    split; [intros ev [] |].
    split; [rewrite !merges_app; reflexivity |].
    split; [reflexivity | discriminate].
  - right. exists docs, chunks, e2, o,
      [EvQuery (CreateVectorIndex chunkVector)
               (match fault with Some x => Err x | None => Ok tt end)].
    split; [exact Hloop |]. split; [reflexivity |].
    split; [intros ev [<- | []]; eauto |].
    split; [rewrite !merges_app; destruct fault; simpl; now rewrite app_nil_r |].
    split; [| intros _; exact Hres].
    destruct fault; [reflexivity |]. cbn [db]. unfold create_vector_index.
    now destruct (existsb _ _).
Qed.

Lemma main_write (w : world E) (p : properties) (r : result unit) :
  In (EvQuery (MergeChunk p) r) (trace (main svc w)) ->
  exists (docs chunks : list document) (c : document),
    In (EvSplit text_splitter docs (Ok chunks)) (trace (main svc w))
    /\ In c chunks
    /\ chunk_id_of c = Ok (filename p, chunk_id p)
    /\ text p = page_content c
    /\ In (EvEmbed (text p) (Ok (embedding p))) (trace (main svc w)).
Proof.
  intros Hin.
  destruct (main_loop w)
    as [(Hno & _) | (docs & chunks & e2 & o & tail & Hloop & Ht & Htail & _)];
    [now apply Hno in Hin |].
  rewrite Ht in *.
  apply in_app_or in Hin as [Hin | Hin];
    [now apply not_in_setup_trace in Hin |].
  simpl in Hin. destruct Hin as [Hin | [Hin | Hin]]; try discriminate.
  apply in_app_or in Hin as [Hin | Hin];
    [| destruct (Htail _ Hin) as [r' Hr]; discriminate].
  destruct (loop_run_write svc chunks _ o p r Hloop Hin)
    as (c & t1 & t2 & Hc & Hid & Htext & Htr).
  exists docs, chunks, c.
  split; [apply in_or_app; right; right; now left |].
  split; [exact Hc |]. split; [exact Hid |]. split; [exact Htext |].
  apply in_or_app. right. simpl. right. right. apply in_or_app. left.
  rewrite Htr. apply in_or_app. right. right. now left.
Qed.

End LoopOfARun.

(** ** Written chunks under a writer that keeps them *)

Lemma last_with_chunk_id (i : string) (l : list properties) :
  (exists p, In p l /\ chunk_id p = i) ->
  exists ps1 q ps2,
    l = ps1 ++ q :: ps2
    /\ chunk_id q = i
    /\ (forall x, In x ps2 -> chunk_id x <> i).
Proof.
  induction l as [| a l IH]; intros (p & Hin & Hp); [destruct Hin |].
  destruct (existsb (fun x => String.eqb (chunk_id x) i) l) eqn:Hex.
  - apply existsb_exists in Hex as (x & Hx & Heq). apply String.eqb_eq in Heq.
    destruct IH as (ps1 & q & ps2 & -> & Hq & Hrest); [now exists x |].
    now exists (a :: ps1), q, ps2.
  - assert (Hrest : forall x, In x l -> chunk_id x <> i).
    { intros x Hx Heq. apply String.eqb_eq in Heq.
      assert (Ht : existsb (fun x => String.eqb (chunk_id x) i) l = true)
        by (apply existsb_exists; eauto).
      congruence. }
    destruct Hin as [-> | Hin]; [| now destruct (Hrest p Hin)].
    now exists [], p, l.
Qed.

Section WrittenChunks.

Context {E : Type} (svc : services E).

Hypothesis keeps : keeps_written_chunks svc.

Lemma chunk_run_present (c : document) (w : world E) (o : outcome E unit)
    (label id : string) :
  chunk_run svc c w o -> present label id (db w) -> present label id (db (final o)).
Proof.
  intros H Hp.
  destruct H as [e He | f i e1 x Hid He | f i e1 e2 v x Hid He p Hq
                | f i e1 e2 e3 v x Hid He p Hq Hx
                | f i e1 e2 e3 e4 v ex g4 r Hid He p Hq Hx Ha]; cbn [final db];
    try exact Hp.
  - unfold present. rewrite db_nodes_merge_chunk. now apply present_after_merge.
  - destruct (keeps (deref (link_entities i ex)) (merge_chunk p (db w)) e3) as [Hk _].
    rewrite Ha in Hk. apply Hk.
    unfold present. rewrite db_nodes_merge_chunk. now apply present_after_merge.
Qed.

Lemma chunk_run_keeps (c : document) (w : world E) (o : outcome E unit)
    (q : properties) :
  chunk_run svc c w o -> holds_chunk q (db w) ->
  (forall p, In p (merges (trace o)) -> chunk_id p <> chunk_id q) ->
  holds_chunk q (db (final o)).
Proof.
  intros H Hq0 Hne.
  destruct H as [e He | f i e1 x Hid He | f i e1 e2 v x Hid He p Hq
                | f i e1 e2 e3 v x Hid He p Hq Hx
                | f i e1 e2 e3 e4 v ex g4 r Hid He p Hq Hx Ha]; cbn [final db];
    try exact Hq0.
  - unfold holds_chunk. rewrite db_nodes_merge_chunk.
    apply holds_other_after_merge; [apply Hne; now left | exact Hq0].
  - destruct (keeps (deref (link_entities i ex)) (merge_chunk p (db w)) e3) as [_ Hk].
    rewrite Ha in Hk. apply Hk.
    unfold holds_chunk. rewrite db_nodes_merge_chunk.
    apply holds_other_after_merge; [apply Hne; now left | exact Hq0].
Qed.

Lemma chunk_run_written (c : document) (w : world E) (o : outcome E unit)
    (p : properties) :
  chunk_run svc c w o -> In p (merges (trace o)) -> holds_chunk p (db (final o)).
Proof.
  intros H.
  destruct H as [e He | f i e1 x Hid He | f i e1 e2 v x Hid He p0 Hq
                | f i e1 e2 e3 v x Hid He p0 Hq Hx
                | f i e1 e2 e3 e4 v ex g4 r Hid He p0 Hq Hx Ha]; cbn [final db];
    simpl; intros Hin; try contradiction; destruct Hin as [<- | []].
  - unfold holds_chunk. rewrite db_nodes_merge_chunk. apply holds_after_merge.
  - destruct (keeps (deref (link_entities i ex)) (merge_chunk p0 (db w)) e3) as [_ Hk].
    rewrite Ha in Hk. apply Hk.
    unfold holds_chunk. rewrite db_nodes_merge_chunk. apply holds_after_merge.
Qed.

Lemma chunk_run_one_write (c : document) (w : world E) (o : outcome E unit) :
  chunk_run svc c w o -> res o = Ok tt -> exists p, merges (trace o) = [p].
Proof.
  intros H.
  destruct H as [e He | f i e1 x Hid He | f i e1 e2 v x Hid He p0 Hq
                | f i e1 e2 e3 v x Hid He p0 Hq Hx
                | f i e1 e2 e3 e4 v ex g4 r Hid He p0 Hq Hx Ha]; cbn [res];
    try discriminate.
  intros _. now exists p0.
Qed.

Lemma loop_run_present (chunks : list document) (w : world E) (o : outcome E unit)
    (label id : string) :
  loop_run svc chunks w o -> present label id (db w) -> present label id (db (final o)).
Proof.
  intros H.
  induction H as [w | c cs w o e Hc He | c cs w o o' Hc Hres Hloop IH]; intros Hp.
  - exact Hp.
  - now apply (chunk_run_present c w).
  - cbn [final]. apply IH. now apply (chunk_run_present c w).
Qed.

Lemma loop_run_keeps (chunks : list document) (w : world E) (o : outcome E unit)
    (q : properties) :
  loop_run svc chunks w o -> holds_chunk q (db w) ->
  (forall p, In p (merges (trace o)) -> chunk_id p <> chunk_id q) ->
  holds_chunk q (db (final o)).
Proof.
  intros H.
  induction H as [w | c cs w o e Hc He | c cs w o o' Hc Hres Hloop IH];
    intros Hq Hne.
  - exact Hq.
  - now apply (chunk_run_keeps c w).
  - cbn [final trace] in *. rewrite merges_app in Hne. apply IH.
    + apply (chunk_run_keeps c w); [exact Hc | exact Hq |].
      intros p Hp. apply Hne. apply in_or_app. now left.
    + intros p Hp. apply Hne. apply in_or_app. now right.
Qed.

Lemma loop_run_last_write (chunks : list document) (w : world E)
    (o : outcome E unit) (ps1 ps2 : list properties) (p : properties) :
  loop_run svc chunks w o ->
  merges (trace o) = ps1 ++ p :: ps2 ->
  (forall q, In q ps2 -> chunk_id q <> chunk_id p) ->
  holds_chunk p (db (final o)).
Proof.
  intros H. revert ps1.
  induction H as [w | c cs w o e Hc He | c cs w o o' Hc Hres Hloop IH];
    intros ps1 Hm Hne.
  - destruct ps1; discriminate.
  - apply (chunk_run_written c w); [exact Hc |]. rewrite Hm. apply in_elt.
  - cbn [final trace] in *. rewrite merges_app in Hm.
    destruct (chunk_run_one_write c w o Hc Hres) as [p0 Hp0].
    rewrite Hp0 in Hm. destruct ps1 as [| p1 ps1]; simpl in Hm.
    + injection Hm as -> Hm.
      apply (loop_run_keeps cs (final o)); [exact Hloop | | now rewrite Hm].
      apply (chunk_run_written c w); [exact Hc |]. rewrite Hp0. now left.
    + injection Hm as _ Hm. now apply (IH ps1).
Qed.

Lemma loop_run_written_present (chunks : list document) (w : world E)
    (o : outcome E unit) (p : properties) :
  loop_run svc chunks w o -> In p (merges (trace o)) ->
  present "Document" (filename p) (db (final o))
  /\ present "Chunk" (chunk_id p) (db (final o)).
Proof.
  intros H.
  induction H as [w | c cs w o e Hc He | c cs w o o' Hc Hres Hloop IH]; intros Hin.
  - destruct Hin.
  - destruct (chunk_run_written c w o p Hc Hin) as (Hd & Hch & _). now split.
  - cbn [final trace] in *. rewrite merges_app in Hin.
    apply in_app_or in Hin as [Hin | Hin]; [| now apply IH].
    destruct (chunk_run_written c w o p Hc Hin) as (Hd & Hch & _).
    split; now apply (loop_run_present cs (final o)).
Qed.

Lemma main_last_write (w : world E) (ps1 ps2 : list properties) (p : properties) :
  merges (trace (main svc w)) = ps1 ++ p :: ps2 ->
  (forall q, In q ps2 -> chunk_id q <> chunk_id p) ->
  holds_chunk p (db (final (main svc w))).
Proof.
  intros Hm Hne.
  destruct (main_loop svc w)
    as [(Hno & _) | (docs & chunks & e2 & o & tail & Hloop & _ & _ & Hms & Hdb & _)].
  - exfalso. apply (Hno (MergeChunk p) (Ok tt)). apply merges_in.
    rewrite Hm. apply in_elt.
  - unfold holds_chunk. rewrite Hdb. rewrite Hms in Hm.
    exact (loop_run_last_write chunks _ o ps1 ps2 p Hloop Hm Hne).
Qed.

Lemma main_written_present (w : world E) (p : properties) :
  In p (merges (trace (main svc w))) ->
  present "Document" (filename p) (db (final (main svc w)))
  /\ present "Chunk" (chunk_id p) (db (final (main svc w))).
Proof.
  intros Hin.
  destruct (main_loop svc w)
    as [(Hno & _) | (docs & chunks & e2 & o & tail & Hloop & _ & _ & Hms & Hdb & _)].
  - exfalso. apply (Hno (MergeChunk p) (Ok tt)). now apply merges_in.
  - unfold present. rewrite Hdb. rewrite Hms in Hin.
    exact (loop_run_written_present chunks _ o p Hloop Hin).
Qed.

Lemma main_embedded (w : world E) (dim : nat) (p : properties) :
  (forall text v, In (EvEmbed text (Ok v)) (trace (main svc w)) -> length v = dim) ->
  In (EvQuery (MergeChunk p) (Ok tt)) (trace (main svc w)) ->
  embedded_chunk (chunk_id p) dim (db (final (main svc w))).
Proof.
  intros Hdim Hin.
  destruct (last_with_chunk_id (chunk_id p) (merges (trace (main svc w))))
    as (ps1 & q & ps2 & Hm & Hq & Hrest).
  { exists p. split; [now apply merges_in | reflexivity]. }
  assert (Hholds : holds_chunk q (db (final (main svc w)))).
  { apply (main_last_write w ps1 ps2); [exact Hm |].
    intros x Hx. rewrite Hq. now apply Hrest. }
  assert (Hq_in : In (EvQuery (MergeChunk q) (Ok tt)) (trace (main svc w))).
  { apply merges_in. rewrite Hm. apply in_elt. }
  destruct (main_write svc w q (Ok tt) Hq_in) as (_ & _ & _ & _ & _ & _ & _ & Hemb).
  rewrite <- Hq, <- (Hdim _ _ Hemb). now apply holds_embedded.
Qed.

End WrittenChunks.

(** ** Chunk ids *)



(** ** Embeddings *)




(** ** Failures after the write statement *)



